(** * SonarQube-to-Jira synchronisation: a shallow embedding

    The development follows [src/service/sonar_to_jira_service.js] and
    [src/utils/functionUtils.js].  Asynchronous functions become
    computations in a state-and-exception monad: the state carries the
    outside world (the two HTTP back ends), the trace of requests sent so
    far, the module-level [userAccountCache] and the arrays that
    [createJiraTickets] mutates in place.  State changes made before a
    [throw] are kept, as in JavaScript.

    Plain objects used as dictionaries ([resolvedStatus],
    [existingTicketsMap], [userAccountCache]) are finite maps holding their
    own properties.  [resolvedStatus] and [existingTicketsMap] are keyed by
    free text that the back ends return, so their assignments and reads go
    through [assign] and [member], which account for what every object
    literal inherits from [Object.prototype]; [userAccountCache] is keyed
    by the assignee emails of [projectConfig.json].  Logging, the rate
    limiter and the [setTimeout] pauses have no influence on any value and
    are left out.  Response bodies are typed by the members the code
    reads; a member the code guards with [?.], [||] or [&&] is an
    [option]. *)

From Stdlib Require Import ZArith Lia Ascii String.
From stdpp Require Import gmap strings list fin_maps pretty.

Open Scope string_scope.

(** ** JavaScript values used by the service *)

(** A thrown [Error] object: only [name] and [message] are ever read. *)
Record exn := { exn_name : string; exn_message : string }.

Definition Error (message : string) : exn :=
  {| exn_name := "Error"; exn_message := message |}.
Definition TypeError (message : string) : exn :=
  {| exn_name := "TypeError"; exn_message := message |}.
Definition SyntaxError (message : string) : exn :=
  {| exn_name := "SyntaxError"; exn_message := message |}.
Definition ReferenceError (message : string) : exn :=
  {| exn_name := "ReferenceError"; exn_message := message |}.

(** Completion of a function body: a value or a thrown exception. *)
Inductive Result (A : Type) : Type :=
| Ok (a : A)
| Throw (e : exn).
Arguments Ok {A} a.
Arguments Throw {A} e.

(** Truthiness of a string and of a possibly [undefined] string. *)
Definition truthy (s : string) : bool := negb (String.eqb s "").
Definition truthy_opt (o : option string) : bool :=
  match o with Some s => truthy s | None => false end.

(** [x && x.length > 0] for a possibly missing array. *)
Definition nonempty {A} (o : option (list A)) : bool :=
  match o with Some (_ :: _) => true | _ => false end.

(** Property-key coercion of a possibly [undefined] string. *)
Definition property_key (o : option string) : string :=
  match o with Some s => s | None => "undefined" end.

(** ** Object literals used as dictionaries

    An object created by [{}] inherits the members of [Object.prototype]. *)
Definition objectPrototypeNames : list string :=
  ["constructor"; "__defineGetter__"; "__defineSetter__"; "hasOwnProperty";
   "__lookupGetter__"; "__lookupSetter__"; "isPrototypeOf";
   "propertyIsEnumerable"; "toString"; "valueOf"; "__proto__";
   "toLocaleString"].

(** [obj[name] = value] for a boolean or a string [value].  The name
    [__proto__] reaches the setter inherited from [Object.prototype], which
    ignores a value that is not an object; every other name gets an own
    property. *)
Definition assign {A} (name : string) (value : A) (obj : gmap string A)
  : gmap string A :=
  if bool_decide (name = "__proto__") then obj else <[name := value]> obj.

(** What [obj[name]] evaluates to: the own property, else the member
    inherited from [Object.prototype] (a function, or the prototype itself
    for [__proto__]), else [undefined]. *)
Inductive Member (A : Type) : Type :=
| Own (a : A)
| Inherited
| Undefined.
Arguments Own {A} a.
Arguments Inherited {A}.
Arguments Undefined {A}.

Definition member {A} (obj : gmap string A) (name : string) : Member A :=
  match obj !! name with
  | Some a => Own a
  | None =>
      if bool_decide (name ∈ objectPrototypeNames) then Inherited else Undefined
  end.

(** ** Data model *)

(** A SonarQube issue or hotspot as returned by the scanner. *)
Record Finding := {
  key : string;
  project : string;
  component : string;
  message : string;
  type : string;
  severity : option string;
  vulnerabilityProbability : option string
}.

Inductive ItemType := issue | hotspot.

Record SonarData := { issues : list Finding; hotspots : list Finding }.

(** One entry of [projectConfig.json]. *)
Record ProjectConfig := {
  pc_key : string;
  pc_name : string;
  pc_assignee : option string;
  pc_component : option string;
  pc_isChecked : bool
}.

Record ProjectInfo := {
  pi_name : string;
  pi_assignee : option string;
  pi_component : option string
}.

(** Atlassian document nodes of the reference field [customfield_11972]. *)
Record TextNode := { text : option string }.
Record Paragraph := { p_content : option (list TextNode) }.
Record Doc := { d_content : option (list Paragraph) }.

(** A ticket of a Jira search result. *)
Record Ticket := {
  t_key : string;
  t_summary : string;
  customfield_11972 : option Doc;
  t_status : option string
}.

Record Transition := { tr_id : string; tr_name : string }.
Record User := { accountId : string }.

(** Body of the create-issue request. *)
Record JiraPayload := {
  jp_project : string;
  jp_summary : string;
  jp_heading : string;
  jp_description : list string;
  jp_permalink : string;
  jp_issuetype : string;
  jp_reference : string;
  jp_priority : string;
  jp_components : option string;
  jp_assignee : option string
}.

(** Body of the transition request: with or without the comment. *)
Record TransitionBody := {
  tb_comment : bool;
  tb_resolution : string;
  tb_transition : string
}.

(** Parsed response bodies. *)
Record IssueSearchData := { is_issues : option (list string) }.
Record HotspotShowData := { hs_errors : option (list string); hs_key : option string }.
Record JiraSearchData := { js_issues : option (list Ticket); js_total : option nat }.
Record TransitionsData := { transitions : option (list Transition) }.
Record CreatedData := { cd_key : string }.

(** ** Outgoing requests *)

Inductive Request :=
| SonarIssueSearch (batch : list string)
| SonarHotspotShow (hotspotKey : string)
| JiraSearchExisting (batch : list string)
| JiraSearchOpen (startAt : nat)
| JiraCreateIssue (payload : JiraPayload)
| JiraGetTransitions (ticket : string)
| JiraPostTransition (ticket : string) (body : TransitionBody)
| JiraPostComment (ticket sonarKey : string)
| JiraUserSearch (email : string).

(** What [response.json()] yields for each endpoint. *)
Definition BodyOf (r : Request) : Type :=
  match r with
  | SonarIssueSearch _ => IssueSearchData
  | SonarHotspotShow _ => HotspotShowData
  | JiraSearchExisting _ => JiraSearchData
  | JiraSearchOpen _ => JiraSearchData
  | JiraCreateIssue _ => CreatedData
  | JiraGetTransitions _ => TransitionsData
  | JiraPostTransition _ _ => unit
  | JiraPostComment _ _ => unit
  | JiraUserSearch _ => option (list User)
  end.

(** An HTTP response; [json = None] is a body that [response.json()]
    rejects. *)
Record Response (A : Type) := { status : nat; json : option A }.
Arguments status {A} _.
Arguments json {A} _.

Definition ok {A} (r : Response A) : bool :=
  ((200 <=? status r)%nat && (status r <=? 299)%nat)%bool.

(** What one call of [fetch] settles to. *)
Inductive FetchOutcome (A : Type) : Type :=
| Rejected (e : exn)
| Responded (r : Response A).
Arguments Rejected {A} e.
Arguments Responded {A} r.

(** A terminal transition request is one that applies a transition. *)
Definition is_transition_apply (r : Request) : bool :=
  match r with JiraPostTransition _ _ => true | _ => false end.
Definition is_transition_only (r : Request) : bool :=
  match r with JiraPostTransition _ b => negb (tb_comment b) | _ => false end.
Definition is_comment (r : Request) : bool :=
  match r with JiraPostComment _ _ => true | _ => false end.
Definition creates_for (k : string) (r : Request) : bool :=
  match r with JiraCreateIssue p => String.eqb (jp_reference p) k | _ => false end.
Definition is_create (r : Request) : bool :=
  match r with JiraCreateIssue _ => true | _ => false end.
Definition searches_batch (b : list string) (r : Request) : bool :=
  match r with JiraSearchExisting b' => bool_decide (b' = b) | _ => false end.

(** ** Slicing a key list into batches
    [for (i = 0; i < keys.length; i += size) keys.slice(i, i + size)] *)

Fixpoint batches_fuel {A} (fuel size : nat) (l : list A) : list (list A) :=
  match fuel with
  | O => []
  | S fuel' =>
      match l with
      | [] => []
      | _ => take size l :: batches_fuel fuel' size (drop size l)
      end
  end.

Definition batches {A} (size : nat) (l : list A) : list (list A) :=
  batches_fuel (length l) size l.

Definition maxBatchSize : nat := 50.

(** [keys.forEach(key => { status[key] = value })] *)
Definition mark (value : bool) (keys : list string) (status : gmap string bool)
  : gmap string bool :=
  foldl (fun m k => assign k value m) status keys.

Section Service.

Context {W : Type}.
Variable fetch : forall r : Request, W -> FetchOutcome (BodyOf r) * W.
Variable projects : list ProjectConfig.
Variable sonarBaseUrl : string.

(** ** Program state *)

Record State := {
  world : W;
  calls : list Request;
  userAccountCache : gmap string string;
  existingTicketsMap : gmap string string;
  existingTickets : list string;
  createdTickets : list string
}.

Definition M (A : Type) : Type := State -> Result A * State.

Definition ret {A} (a : A) : M A := fun st => (Ok a, st).
Definition throw {A} (e : exn) : M A := fun st => (Throw e, st).
Definition bind {A B} (c : M A) (k : A -> M B) : M B :=
  fun st =>
    match c st with
    | (Ok a, st') => k a st'
    | (Throw e, st') => (Throw e, st')
    end.
Definition try_catch {A} (body : M A) (handler : exn -> M A) : M A :=
  fun st =>
    match body st with
    | (Ok a, st') => (Ok a, st')
    | (Throw e, st') => handler e st'
    end.
Definition get_state : M State := fun st => (Ok st, st).
Definition modify (f : State -> State) : M unit := fun st => (Ok tt, f st).

Notation "x <- c ;; k" := (bind c (fun x => k))
  (at level 100, c at next level, right associativity).
Notation "c ;;; k" := (bind c (fun _ => k))
  (at level 100, right associativity).

(** [for (const x of xs) body(x)] *)
Fixpoint for_of {A} (xs : list A) (body : A -> M unit) : M unit :=
  match xs with
  | [] => ret tt
  | x :: xs' => body x ;;; for_of xs' body
  end.

(** [for (const x of xs) acc = body(x, acc)] with a functional accumulator. *)
Fixpoint for_acc {A B} (xs : list A) (body : A -> B -> M B) (acc : B) : M B :=
  match xs with
  | [] => ret acc
  | x :: xs' => acc' <- body x acc ;; for_acc xs' body acc'
  end.

(** One [await fetch(url, options)]: the request is recorded, the world
    answers and moves on. *)
Definition do_fetch (r : Request) : M (Response (BodyOf r)) :=
  fun st =>
    let (outcome, w') := fetch r (world st) in
    let st' := {| world := w'; calls := calls st ++ [r];
                  userAccountCache := userAccountCache st;
                  existingTicketsMap := existingTicketsMap st;
                  existingTickets := existingTickets st;
                  createdTickets := createdTickets st |} in
    match outcome with
    | Rejected e => (Throw e, st')
    | Responded resp => (Ok resp, st')
    end.

(** [await response.json()] *)
Definition response_json {A} (resp : Response A) : M A :=
  match json resp with
  | Some a => ret a
  | None => throw (SyntaxError "Unexpected token in JSON")
  end.

(** ** [fetchWithRetry] (functionUtils.js)
    [remaining] counts the iterations left, so the last attempt is the one
    with [remaining = 1]; running out of iterations returns [undefined]. *)
Fixpoint fetchWithRetry_loop (r : Request) (remaining : nat)
  : M (option (Response (BodyOf r))) :=
  match remaining with
  | O => ret None
  | S remaining' =>
      fun st =>
        match do_fetch r st with
        | (Ok response, st') =>
            if ok response then (Ok (Some response), st')
            else match remaining' with
                 | O => (Throw (Error ("HTTP " +:+ pretty (status response))), st')
                 | S _ => fetchWithRetry_loop r remaining' st'
                 end
        | (Throw error, st') =>
            match remaining' with
            | O => (Throw error, st')
            | S _ => fetchWithRetry_loop r remaining' st'
            end
        end
  end.

(** Call sites use the default [maxRetries = 3] and read [.ok] of the result. *)
Definition fetchWithRetry (r : Request) : M (Response (BodyOf r)) :=
  response <- fetchWithRetry_loop r 3 ;;
  match response with
  | Some resp => ret resp
  | None => throw (TypeError "Cannot read properties of undefined (reading 'ok')")
  end.

(** ** [checkMultipleIssuesResolved] *)

(** Issues phase of one batch (the inner [try]/[catch]). *)
Definition checkIssuesBatch (batch : list string) (resolvedStatus : gmap string bool)
  : M (gmap string bool) :=
  try_catch
    (issueResponse <- fetchWithRetry (SonarIssueSearch batch) ;;
     if ok issueResponse then
       issueData <- response_json issueResponse ;;
       let foundIssueKeys := default [] (is_issues issueData) in
       ret (mark false foundIssueKeys resolvedStatus)
     else ret resolvedStatus)
    (fun error => ret resolvedStatus).

(** One iteration of the hotspot loop. *)
Definition checkHotspot (hotspotKey : string) (resolvedStatus : gmap string bool)
  : M (gmap string bool) :=
  try_catch
    (hotspotResponse <- fetchWithRetry (SonarHotspotShow hotspotKey) ;;
     if ok hotspotResponse then
       hotspotData <- response_json hotspotResponse ;;
       if nonempty (hs_errors hotspotData) then ret resolvedStatus
       else if truthy_opt (hs_key hotspotData)
            then ret (assign hotspotKey false resolvedStatus)
            else ret resolvedStatus
     else ret resolvedStatus)
    (fun error => ret resolvedStatus).

(** Body of the batch loop.  No inherited member is a boolean, so
    [resolvedStatus[key] === true] holds exactly when the own property
    is [true]. *)
Definition checkBatch (batch : list string) (resolvedStatus : gmap string bool)
  : M (gmap string bool) :=
  resolvedStatus <- checkIssuesBatch batch resolvedStatus ;;
  let keysToCheckAsHotspots :=
    filter (fun k => resolvedStatus !! k = Some true) batch in
  for_acc keysToCheckAsHotspots checkHotspot resolvedStatus.

(** [sonarKeys.forEach(key => { status[key] = value })] on a fresh object. *)
Definition mark_all (value : bool) (sonarKeys : list string) : gmap string bool :=
  mark value sonarKeys ∅.

(** The protected block of the function. *)
Definition checkMultipleIssuesResolved_try (sonarKeys : list string)
  : M (gmap string bool) :=
  let resolvedStatus := mark_all true sonarKeys in
  for_acc (batches maxBatchSize sonarKeys) checkBatch resolvedStatus.

(** The outer [catch]: a fresh object in which the requested keys are
    marked as not resolved. *)
Definition checkMultipleIssuesResolved_catch (sonarKeys : list string) (error : exn)
  : M (gmap string bool) :=
  let fallbackStatus := mark_all false sonarKeys in
  ret fallbackStatus.

Definition checkMultipleIssuesResolved (sonarKeys : list string)
  : M (gmap string bool) :=
  try_catch (checkMultipleIssuesResolved_try sonarKeys)
            (checkMultipleIssuesResolved_catch sonarKeys).

(** ** String helpers of the ticket builder *)

Definition is_colon (c : ascii) : bool := Ascii.eqb c ":"%char.

Fixpoint has_colon (s : string) : bool :=
  match s with
  | EmptyString => false
  | String c s' => is_colon c || has_colon s'
  end.

(** [s.split(':').pop()] *)
Fixpoint last_segment (s : string) : string :=
  match s with
  | EmptyString => EmptyString
  | String c s' =>
      if has_colon s' then last_segment s'
      else if is_colon c then s' else s
  end.

Fixpoint trim_start (s : string) : string :=
  match s with
  | EmptyString => EmptyString
  | String c s' => if Ascii.is_space c then trim_start s' else s
  end.

(** [s.trim()] *)
Definition trim (s : string) : string :=
  String.rev (trim_start (String.rev (trim_start s))).

(** [s.substring(0, n)] *)
Definition prefix_of (n : nat) (s : string) : string := String.substring 0 n s.

(** [[...new Set(l)]]: first occurrences, in order. *)
Fixpoint unique_from (seen l : list string) : list string :=
  match l with
  | [] => []
  | x :: l' =>
      if bool_decide (x ∈ seen) then unique_from seen l'
      else x :: unique_from (x :: seen) l'
  end.
Definition unique (l : list string) : list string := unique_from [] l.

(** ** Ticket fields *)

Definition DEFAULT_PROJECT : string := "LV".

(** The priority decision of [createJiraTicket]. *)
Definition priorityName (itemType : ItemType) (item : Finding) : string :=
  match itemType with
  | issue =>
      if bool_decide (severity item = Some "BLOCKER")
         || bool_decide (severity item = Some "CRITICAL")
      then "Highest" else "High"
  | hotspot =>
      if bool_decide (vulnerabilityProbability item = Some "HIGH")
         || bool_decide (vulnerabilityProbability item = Some "MEDIUM")
      then "Highest" else "High"
  end.

Definition summaryOf (item : Finding) (fileName : string) : string :=
  let summary := message item +:+ " in " +:+ fileName in
  if (254 <? String.length summary)%nat
  then prefix_of 251 summary +:+ "..."
  else summary.

Definition sonarPermalink (itemType : ItemType) (item : Finding) : string :=
  match itemType with
  | issue =>
      sonarBaseUrl +:+ "/project/issues?resolved=false&types=" +:+ type item
        +:+ "&id=" +:+ project item +:+ "&issues=" +:+ key item
  | hotspot =>
      sonarBaseUrl +:+ "/security_hotspots?id=" +:+ project item
        +:+ "&hotspots=" +:+ key item
  end.

Definition itemLabel (itemType : ItemType) : string :=
  match itemType with issue => "Issue" | hotspot => "Hotspot" end.

(** [getProjectInfo] (functionUtils.js) *)
Definition getProjectInfo (projectKey : string) : ProjectInfo :=
  match List.find (fun p => String.eqb (pc_key p) projectKey) projects with
  | Some project =>
      {| pi_name := pc_name project;
         pi_assignee := pc_assignee project;
         pi_component := pc_component project |}
  | None =>
      {| pi_name := projectKey; pi_assignee := None; pi_component := Some "Others" |}
  end.

(** The assignee put into the payload: the cached account id of the
    project's assignee, if there is a truthy one. *)
Definition assigneeOf (projectInfo : ProjectInfo) (cache : gmap string string)
  : option string :=
  match pi_assignee projectInfo with
  | Some email =>
      if truthy email then
        match cache !! email with
        | Some cachedUser => if truthy cachedUser then Some cachedUser else None
        | None => None
        end
      else None
  | None => None
  end.

Definition componentsOf (projectInfo : ProjectInfo) : option string :=
  match pi_component projectInfo with
  | Some c => if truthy c && negb (String.eqb (trim c) "") then Some c else None
  | None => None
  end.

Definition buildPayload (item : Finding) (itemType : ItemType)
    (cache : gmap string string) : JiraPayload :=
  let fileName := last_segment (component item) in
  let projectInfo := getProjectInfo (project item) in
  {| jp_project := DEFAULT_PROJECT;
     jp_summary := summaryOf item fileName;
     jp_heading := itemLabel itemType +:+ " Details";
     jp_description :=
       [ "Project: " +:+ pi_name projectInfo +:+ " (" +:+ project item +:+ ")";
         "Message: " +:+ message item;
         "File: " +:+ fileName ];
     jp_permalink := sonarPermalink itemType item;
     jp_issuetype := "Bug";
     jp_reference := key item;
     jp_priority := priorityName itemType item;
     jp_components := componentsOf projectInfo;
     jp_assignee := assigneeOf projectInfo cache |}.

(** ** [lookupJiraUsers] (functionUtils.js) *)

Definition set_userAccountCache (f : gmap string string -> gmap string string)
  : M unit :=
  modify (fun st =>
    {| world := world st; calls := calls st;
       userAccountCache := f (userAccountCache st);
       existingTicketsMap := existingTicketsMap st;
       existingTickets := existingTickets st;
       createdTickets := createdTickets st |}).

Definition uniqueEmails : list string :=
  unique (omap (fun p =>
                  match pc_assignee p with
                  | Some a =>
                      if truthy a && negb (String.eqb (trim a) "")
                      then Some a else None
                  | None => None
                  end) projects).

Definition cached (email : string) (st : State) : bool :=
  truthy_opt (userAccountCache st !! email).

(** One iteration of the lookup loop. *)
Definition lookupJiraUser (email : string) : M unit :=
  st <- get_state ;;
  if cached email st then ret tt
  else
    try_catch
      (userResponse <- fetchWithRetry (JiraUserSearch email) ;;
       if ok userResponse then
         userData <- response_json userResponse ;;
         match userData with
         | Some (user :: _) => set_userAccountCache (<[email := accountId user]>)
         | _ => ret tt
         end
       else ret tt)
      (fun error => ret tt).

Definition lookupJiraUsers : M unit := for_of uniqueEmails lookupJiraUser.

(** ** [createJiraTickets] *)

Record CreateResult := {
  created : list string;
  existing : list string;
  error : option string
}.

Definition init_locals : M unit :=
  modify (fun st =>
    {| world := world st; calls := calls st;
       userAccountCache := userAccountCache st;
       existingTicketsMap := ∅;
       existingTickets := [];
       createdTickets := [] |}).

(** [existingTicketsMap[sonarKey] = ticket.key] and the guarded push. *)
Definition record_existing (sonarKey ticketKey : string) : M unit :=
  modify (fun st =>
    {| world := world st; calls := calls st;
       userAccountCache := userAccountCache st;
       existingTicketsMap := assign sonarKey ticketKey (existingTicketsMap st);
       existingTickets :=
         if bool_decide (ticketKey ∈ existingTickets st)
         then existingTickets st
         else existingTickets st ++ [ticketKey];
       createdTickets := createdTickets st |}).

Definition push_created (ticketKey : string) : M unit :=
  modify (fun st =>
    {| world := world st; calls := calls st;
       userAccountCache := userAccountCache st;
       existingTicketsMap := existingTicketsMap st;
       existingTickets := existingTickets st;
       createdTickets := createdTickets st ++ [ticketKey] |}).

(** First text run of the first paragraph of the reference field, when the
    guards [customField?.content?.length > 0] and
    [paragraph.content && paragraph.content.length > 0] let it through. *)
Definition referenceText (ticket : Ticket) : option (option string) :=
  match customfield_11972 ticket with
  | Some customField =>
      match d_content customField with
      | Some (paragraph :: _) =>
          match p_content paragraph with
          | Some (node :: _) => Some (text node)
          | _ => None
          end
      | _ => None
      end
  | None => None
  end.

(** Body of the per-ticket loop of the existence check. *)
Definition indexTicket (ticket : Ticket) : M unit :=
  try_catch
    (match referenceText ticket with
     | Some sonarKey => record_existing (property_key sonarKey) (t_key ticket)
     | None => ret tt
     end)
    (fun e => ret tt).

(** Body of the batch loop of the existence check. *)
Definition checkExistingBatch (batch : list string) : M unit :=
  searchResponse <- fetchWithRetry (JiraSearchExisting batch) ;;
  if negb (ok searchResponse)
  then throw (Error ("HTTP error " +:+ pretty (status searchResponse)))
  else
    searchData <- response_json searchResponse ;;
    match js_issues searchData with
    | Some (t :: ts) => for_of (t :: ts) indexTicket
    | _ => ret tt
    end.

(** The existence check: one [try] around the whole batch loop. *)
Definition checkExistingTickets (allSonarKeys : list string) : M unit :=
  match allSonarKeys with
  | [] => ret tt
  | _ =>
      try_catch
        (for_of (batches maxBatchSize allSonarKeys) checkExistingBatch)
        (fun error => ret tt)
  end.

(** [existingTicketsMap[sonarKey] || null]: the ticket key stored under
    the name, or a member inherited from [Object.prototype] (always truthy),
    or [null]. *)
Inductive Existing :=
| ExistingTicket (ticketKey : string)
| PrototypeMember
| NoTicket.

Definition checkIfTicketExists (sonarKey : string) (st : State) : Existing :=
  match member (existingTicketsMap st) sonarKey with
  | Own ticketKey => if truthy ticketKey then ExistingTicket ticketKey else NoTicket
  | Inherited => PrototypeMember
  | Undefined => NoTicket
  end.

(** The inner function [createJiraTicket]. *)
Definition createJiraTicket (item : Finding) (itemType : ItemType) : M unit :=
  st <- get_state ;;
  match checkIfTicketExists (key item) st with
  | ExistingTicket _ | PrototypeMember => ret tt
  | NoTicket =>
      let jiraPayload := buildPayload item itemType (userAccountCache st) in
      if String.eqb (trim (jp_summary jiraPayload)) ""
      then throw (Error "Summary is required and cannot be empty")
      else
        jiraResponse <- fetchWithRetry (JiraCreateIssue jiraPayload) ;;
        if negb (ok jiraResponse)
        then throw (Error ("HTTP " +:+ pretty (status jiraResponse)))
        else
          jiraData <- response_json jiraResponse ;;
          push_created (cd_key jiraData)
  end.

Definition processItems (items : list Finding) (itemType : ItemType) : M unit :=
  for_of items (fun item =>
    try_catch (createJiraTicket item itemType) (fun error => ret tt)).

(** The protected block of [createJiraTickets]. *)
Definition createJiraTickets_try (sonarData : SonarData) : M CreateResult :=
  lookupJiraUsers ;;;
  init_locals ;;;
  let allSonarKeys :=
    (map key (issues sonarData) ++ map key (hotspots sonarData))%list in
  checkExistingTickets allSonarKeys ;;;
  processItems (issues sonarData) issue ;;;
  processItems (hotspots sonarData) hotspot ;;;
  st <- get_state ;;
  ret {| created := createdTickets st; existing := existingTickets st; error := None |}.

(** The outer [catch].  [createdTickets] and [existingTickets] are [const]
    bindings of the [try] block, so the handler's
    [createdTickets || []] reads an undeclared name. *)
Definition createJiraTickets_catch (e : exn) : M CreateResult :=
  throw (ReferenceError "createdTickets is not defined").

Definition createJiraTickets (sonarData : option SonarData) : M CreateResult :=
  match sonarData with
  | None => throw (Error "sonarData is required for createJiraTickets")
  | Some data => try_catch (createJiraTickets_try data) createJiraTickets_catch
  end.

(** ** [closeJiraTicket] *)

Definition preferredTransitions : list string :=
  ["wont do"; "Done"; "Closed"; "Resolved"; "Verified"].

(** The selection loop:
    [for (const preferredName of preferredTransitions)] with
    [transitions.find(t => t.name === preferredName)] and [break]. *)
Fixpoint selectTransition (names : list string) (available : list Transition)
  : option Transition :=
  match names with
  | [] => None
  | preferredName :: names' =>
      match List.find (fun t => String.eqb (tr_name t) preferredName) available with
      | Some transition => Some transition
      | None => selectTransition names' available
      end
  end.

Definition transitionResolutionMap : gmap string string :=
  <["Verified" := "10100"]> (<["wont do" := "10001"]> (<["Done" := "10000"]>
  (<["Closed" := "10601"]> (<["Resolved" := "10608"]> ∅)))).

Definition resolutionIdOf (transitionName : string) : string :=
  match transitionResolutionMap !! transitionName with
  | Some id => if truthy id then id else "10100"
  | None => "10100"
  end.

Definition commentBody (transition : Transition) : TransitionBody :=
  {| tb_comment := true;
     tb_resolution := resolutionIdOf (tr_name transition);
     tb_transition := tr_id transition |}.

Definition transitionOnlyBody (transition : Transition) : TransitionBody :=
  {| tb_comment := false;
     tb_resolution := resolutionIdOf (tr_name transition);
     tb_transition := tr_id transition |}.

(** The separate comment call: neither a thrown error nor a failed
    response changes the outcome. *)
Definition addCommentSeparately (jiraTicketKey sonarKey : string) : M unit :=
  try_catch
    (commentResponse <- fetchWithRetry (JiraPostComment jiraTicketKey sonarKey) ;;
     ret tt)
    (fun commentError => ret tt).

(** The part of the function after a usable transition was found. *)
Definition applyTransition (jiraTicketKey sonarKey : string) (transition : Transition)
  : M bool :=
  closeResponse <- fetchWithRetry
                     (JiraPostTransition jiraTicketKey (commentBody transition)) ;;
  closeResponse <-
    (if negb (ok closeResponse) then
       closeResponse <- fetchWithRetry
                          (JiraPostTransition jiraTicketKey (transitionOnlyBody transition)) ;;
       (if ok closeResponse
        then addCommentSeparately jiraTicketKey sonarKey
        else ret tt) ;;;
       ret closeResponse
     else ret closeResponse) ;;
  if negb (ok closeResponse) then ret false else ret true.

Definition closeJiraTicket_try (jiraTicketKey sonarKey : string) : M bool :=
  transitionsResponse <- fetchWithRetry (JiraGetTransitions jiraTicketKey) ;;
  if negb (ok transitionsResponse)
  then throw (Error ("HTTP error " +:+ pretty (status transitionsResponse)))
  else
    transitionsData <- response_json transitionsResponse ;;
    match transitions transitionsData with
    | None => throw (TypeError "Cannot read properties of undefined (reading 'find')")
    | Some available =>
        match selectTransition preferredTransitions available with
        | None => ret false
        | Some transition =>
            if negb (truthy (tr_id transition)) then ret false
            else applyTransition jiraTicketKey sonarKey transition
        end
    end.

Definition closeJiraTicket (jiraTicketKey sonarKey : string) : M bool :=
  try_catch (closeJiraTicket_try jiraTicketKey sonarKey) (fun error => ret false).

(** ** [closeResolvedJiraTickets] *)

(** The object returned to the caller; the early return leaves
    [ticketsWithErrors] out. *)
Record CloseSummary := {
  ticketsChecked : nat;
  ticketsClosed : nat;
  ticketsNotResolved : nat;
  ticketsWithErrors : option nat
}.

Record Counters := { closedCount : nat; errorCount : nat; notResolvedCount : nat }.

Definition count_closed (c : Counters) : Counters :=
  {| closedCount := S (closedCount c); errorCount := errorCount c;
     notResolvedCount := notResolvedCount c |}.
Definition count_error (c : Counters) : Counters :=
  {| closedCount := closedCount c; errorCount := S (errorCount c);
     notResolvedCount := notResolvedCount c |}.
Definition count_notResolved (c : Counters) : Counters :=
  {| closedCount := closedCount c; errorCount := errorCount c;
     notResolvedCount := S (notResolvedCount c) |}.

(** One iteration of the pagination loop; the result is the new
    [(allTickets, startAt, hasMore)]. *)
Definition fetchPage (allTickets : list Ticket) (startAt : nat)
  : M (list Ticket * nat * bool) :=
  try_catch
    (searchResponse <- fetchWithRetry (JiraSearchOpen startAt) ;;
     if negb (ok searchResponse)
     then throw (Error ("HTTP error " +:+ pretty (status searchResponse)))
     else
       searchData <- response_json searchResponse ;;
       match js_issues searchData with
       | None => throw (Error "Invalid response format from Jira search API")
       | Some batchTickets =>
           let startAt' := (startAt + length batchTickets)%nat in
           let hasMore :=
             match js_total searchData with
             | Some totalTickets => (startAt' <? totalTickets)%nat
             | None => false
             end in
           ret ((allTickets ++ batchTickets)%list, startAt', hasMore)
       end)
    (fun error =>
       match allTickets with
       | [] => throw error
       | _ => ret (allTickets, startAt, false)
       end).

(** [while (hasMore)]; [None] when the iteration budget runs out. *)
Fixpoint fetchAllTickets (fuel : nat) (allTickets : list Ticket) (startAt : nat)
  : M (option (list Ticket)) :=
  match fuel with
  | O => ret None
  | S fuel' =>
      page <- fetchPage allTickets startAt ;;
      let '(allTickets', startAt', hasMore) := page in
      if hasMore then fetchAllTickets fuel' allTickets' startAt'
      else ret (Some allTickets')
  end.

(** [paragraph.content[0].text?.trim()] behind the two guards. *)
Definition extractSonarKey (ticket : Ticket) : option string :=
  match referenceText ticket with
  | Some (Some t) => if truthy (trim t) then Some (trim t) else None
  | _ => None
  end.

(** The three-way test on [resolvedStatusMap[sonarKey]]: [=== true],
    [=== false], or anything else ([undefined] or an inherited member). *)
Inductive Branch := CloseTicket | NotResolved | UnknownStatus.

Definition resolutionBranch (resolvedStatusMap : gmap string bool) (sonarKey : string)
  : Branch :=
  match resolvedStatusMap !! sonarKey with
  | Some true => CloseTicket
  | Some false => NotResolved
  | None => UnknownStatus
  end.

(** Body of the per-ticket closure (run to completion one after another). *)
Definition processTicket (resolvedStatusMap : gmap string bool) (ticket : Ticket)
    (c : Counters) : M Counters :=
  try_catch
    (match referenceText ticket with
     | Some t =>
         match t_status ticket with
         | None => throw (TypeError "Cannot read properties of undefined (reading 'name')")
         | Some ticketStatus =>
             match extractSonarKey ticket with
             | None => ret (count_error c)
             | Some sonarKey =>
                 match resolutionBranch resolvedStatusMap sonarKey with
                 | CloseTicket =>
                     closed <- closeJiraTicket (t_key ticket) sonarKey ;;
                     if (closed : bool) then ret (count_closed c)
                     else ret (count_error c)
                 | NotResolved => ret (count_notResolved c)
                 | UnknownStatus => ret (count_error c)
                 end
             end
         end
     | None => ret (count_error c)
     end)
    (fun e => ret (count_error c)).

Definition maxConcurrent : nat := 5.

Definition closeResolvedJiraTickets_try (fuel : nat) : M (option CloseSummary) :=
  fetched <- fetchAllTickets fuel [] 0 ;;
  match fetched with
  | None => ret None
  | Some allTickets =>
      let allSonarKeys := omap extractSonarKey allTickets in
      match allSonarKeys with
      | [] =>
          ret (Some {| ticketsChecked := length allTickets;
                       ticketsClosed := 0;
                       ticketsNotResolved := 0;
                       ticketsWithErrors := None |})
      | _ =>
          resolvedStatusMap <- checkMultipleIssuesResolved allSonarKeys ;;
          c <- for_acc (batches maxConcurrent allTickets)
                 (fun batch c => for_acc batch (processTicket resolvedStatusMap) c)
                 {| closedCount := 0; errorCount := 0; notResolvedCount := 0 |} ;;
          ret (Some {| ticketsChecked := length allTickets;
                       ticketsClosed := closedCount c;
                       ticketsNotResolved := notResolvedCount c;
                       ticketsWithErrors := Some (errorCount c) |})
      end
  end.

(** The outer [catch] logs and rethrows. *)
Definition closeResolvedJiraTickets (fuel : nat) : M (option CloseSummary) :=
  try_catch (closeResolvedJiraTickets_try fuel) (fun error => throw error).

End Service.

Arguments State W : clear implicits.
Arguments M W A : clear implicits.

(** ** What the scanner's answers say about a finding *)

(** Value that [fetchWithRetry] settles to when every attempt is answered
    by [o]. *)
Definition settled_loop {A} (o : FetchOutcome A) : Result (option (Response A)) :=
  match o with
  | Rejected e => Throw e
  | Responded resp =>
      if ok resp then Ok (Some resp)
      else Throw (Error ("HTTP " +:+ pretty (status resp)))
  end.

Definition settled {A} (o : FetchOutcome A) : Result (Response A) :=
  match o with
  | Rejected e => Throw e
  | Responded resp =>
      if ok resp then Ok resp
      else Throw (Error ("HTTP " +:+ pretty (status resp)))
  end.

(** Keys listed by the unresolved-issues search. *)
Definition reportedIssueKeys (o : FetchOutcome IssueSearchData) : list string :=
  match o with
  | Responded resp =>
      if ok resp then
        match json resp with
        | Some issueData => default [] (is_issues issueData)
        | None => []
        end
      else []
  | Rejected _ => []
  end.

(** The hotspot-show answer reports the hotspot found and not resolved. *)
Definition reportsActiveHotspot (o : FetchOutcome HotspotShowData) : bool :=
  match o with
  | Responded resp =>
      ok resp &&
      match json resp with
      | Some hotspotData =>
          negb (nonempty (hs_errors hotspotData)) && truthy_opt (hs_key hotspotData)
      | None => false
      end
  | Rejected _ => false
  end.

(** The map that one batch leaves behind when the scanner answers every
    issue search for [b] with [issuesAnswer b] and every hotspot query for
    [k] with [hotspotAnswer k]. *)
Definition flipHotspot (hotspotAnswer : string -> FetchOutcome HotspotShowData)
    (status : gmap string bool) (k : string) : gmap string bool :=
  if reportsActiveHotspot (hotspotAnswer k) then assign k false status else status.

Definition batchStatus
    (issuesAnswer : list string -> FetchOutcome IssueSearchData)
    (hotspotAnswer : string -> FetchOutcome HotspotShowData)
    (status : gmap string bool) (b : list string) : gmap string bool :=
  let status1 := mark false (reportedIssueKeys (issuesAnswer b)) status in
  foldl (flipHotspot hotspotAnswer) status1
        (filter (fun k => status1 !! k = Some true) b).

(** A finding is confirmed present when some batch's issue search lists it
    or its hotspot query reports it found and not resolved. *)
Definition confirmed_present
    (issuesAnswer : list string -> FetchOutcome IssueSearchData)
    (hotspotAnswer : string -> FetchOutcome HotspotShowData)
    (sonarKeys : list string) (k : string) : Prop :=
  (∃ b, b ∈ batches maxBatchSize sonarKeys ∧
        k ∈ reportedIssueKeys (issuesAnswer b))
  ∨ reportsActiveHotspot (hotspotAnswer k) = true.

(** The resolution map keeps every entry, only moves entries from [true]
    to [false], holds [true] only where it did before, and leaves the name
    [__proto__] as it was. *)
Definition only_flipped (before after : gmap string bool) : Prop :=
  (forall k b, before !! k = Some b ->
     exists b', after !! k = Some b' /\ (b = false -> b' = false)) /\
  (forall k, after !! k = Some true -> before !! k = Some true) /\
  after !! "__proto__" = before !! "__proto__".

(** Users listed by a user-search answer (none when the call fails). *)
Definition searchMatches (o : FetchOutcome (option (list User))) : list User :=
  match o with
  | Responded resp =>
      if ok resp then
        match json resp with
        | Some (Some users) => users
        | _ => []
        end
      else []
  | Rejected _ => []
  end.

(** ** Traces and the preferred transition, as the specification words them *)

(** [t] is the first available transition carrying the first preferred
    name that any available transition carries. *)
Definition first_preferred_match (names : list string) (available : list Transition)
    (t : Transition) : Prop :=
  ∃ before after pre post,
    names = (before ++ tr_name t :: after)%list ∧
    (∀ q t', q ∈ before → t' ∈ available → tr_name t' ≠ q) ∧
    available = (pre ++ t :: post)%list ∧
    (∀ t', t' ∈ pre → tr_name t' ≠ tr_name t).

(** [st'] differs from [st] only by the world and by the requests [sent]. *)
Definition sends {W} (st st' : State W) (sent : list Request) : Prop :=
  calls st' = (calls st ++ sent)%list ∧
  userAccountCache st' = userAccountCache st ∧
  existingTicketsMap st' = existingTicketsMap st ∧
  existingTickets st' = existingTickets st ∧
  createdTickets st' = createdTickets st.

(** Between [st] and [st'] only requests satisfying [P] were sent. *)
Definition emits {W} (P : Request → Prop) (st st' : State W) : Prop :=
  ∃ sent, calls st' = (calls st ++ sent)%list ∧ Forall P sent.

(** Every ticket key stored in the index is also in [existingTickets]. *)
Definition index_listed {W} (st : State W) : Prop :=
  ∀ k t, existingTicketsMap st !! k = Some t → t ∈ existingTickets st.

(** No creation request is sent for an identifier for which the lookup in
    the index is truthy: one that the index maps to a ticket, or one that
    has no entry and names a member of [Object.prototype]. *)
Definition respects_index (m : gmap string string) (req : Request) : Prop :=
  ∀ k, (∃ t, m !! k = Some t ∧ truthy t = true)
       ∨ (m !! k = None ∧ k ∈ objectPrototypeNames) →
       creates_for k req = false.

(** ** Concrete back ends used to run the model *)

Module Worlds.

(** A back end without memory: every request gets the same answer. *)
Definition constant_world (answer : forall r : Request, FetchOutcome (BodyOf r))
  : forall r : Request, unit -> FetchOutcome (BodyOf r) * unit :=
  fun r w => (answer r, w).

Definition initial (W : Type) (w : W) : State W :=
  {| world := w; calls := []; userAccountCache := ∅;
     existingTicketsMap := ∅; existingTickets := []; createdTickets := [] |}.

Definition respond {A} (code : nat) (body : A) : FetchOutcome A :=
  Responded {| status := code; json := Some body |}.

Definition unreachable_host {A} : FetchOutcome A :=
  Rejected (Error "request failed").

(** A scanner that lists [listed] as unresolved issues and knows no
    hotspot. *)
Definition scanner (listed : list string) (r : Request) : FetchOutcome (BodyOf r) :=
  match r as r0 return FetchOutcome (BodyOf r0) with
  | SonarIssueSearch _ => respond 200 {| is_issues := Some listed |}
  | SonarHotspotShow _ => Responded {| status := 404; json := None |}
  | JiraSearchExisting _ => unreachable_host
  | JiraSearchOpen _ => unreachable_host
  | JiraCreateIssue _ => unreachable_host
  | JiraGetTransitions _ => unreachable_host
  | JiraPostTransition _ _ => unreachable_host
  | JiraPostComment _ _ => unreachable_host
  | JiraUserSearch _ => unreachable_host
  end.

(** A tracker whose workflow offers [offered] for every ticket and answers
    every transition request with [applyStatus]. *)
Definition tracker_workflow (offered : list Transition) (applyStatus : nat)
    (r : Request) : FetchOutcome (BodyOf r) :=
  match r as r0 return FetchOutcome (BodyOf r0) with
  | SonarIssueSearch _ => unreachable_host
  | SonarHotspotShow _ => unreachable_host
  | JiraSearchExisting _ => unreachable_host
  | JiraSearchOpen _ => unreachable_host
  | JiraCreateIssue _ => unreachable_host
  | JiraGetTransitions _ => respond 200 {| transitions := Some offered |}
  | JiraPostTransition _ _ => respond applyStatus tt
  | JiraPostComment _ _ => respond 201 tt
  | JiraUserSearch _ => unreachable_host
  end.

(** A tracker that answers every user search with [matches]. *)
Definition tracker_users (matches : list User) (r : Request) : FetchOutcome (BodyOf r) :=
  match r as r0 return FetchOutcome (BodyOf r0) with
  | SonarIssueSearch _ => unreachable_host
  | SonarHotspotShow _ => unreachable_host
  | JiraSearchExisting _ => unreachable_host
  | JiraSearchOpen _ => unreachable_host
  | JiraCreateIssue _ => unreachable_host
  | JiraGetTransitions _ => unreachable_host
  | JiraPostTransition _ _ => unreachable_host
  | JiraPostComment _ _ => unreachable_host
  | JiraUserSearch _ => respond 200 (Some matches)
  end.

Definition reference_doc (sonarKey : string) : Doc :=
  {| d_content := Some [ {| p_content := Some [ {| text := Some sonarKey |} ] |} ] |}.

Definition open_ticket (ticketKey sonarKey : string) : Ticket :=
  {| t_key := ticketKey; t_summary := "Finding"; t_status := Some "Open";
     customfield_11972 := Some (reference_doc sonarKey) |}.

(** A tracker whose search finds [found] for the batches that [knows]
    accepts and fails with status 500 for the others; every creation
    request yields the ticket [newKey]. *)
Definition tracker_search (knows : list string -> bool) (found : list Ticket)
    (newKey : string) (r : Request) : FetchOutcome (BodyOf r) :=
  match r as r0 return FetchOutcome (BodyOf r0) with
  | SonarIssueSearch _ => unreachable_host
  | SonarHotspotShow _ => unreachable_host
  | JiraSearchExisting batch =>
      if knows batch
      then respond 200 {| js_issues := Some found; js_total := None |}
      else Responded {| status := 500; json := None |}
  | JiraSearchOpen _ =>
      respond 200 {| js_issues := Some found; js_total := Some (length found) |}
  | JiraCreateIssue _ => respond 201 {| cd_key := newKey |}
  | JiraGetTransitions _ => unreachable_host
  | JiraPostTransition _ _ => unreachable_host
  | JiraPostComment _ _ => unreachable_host
  | JiraUserSearch _ => respond 200 (Some [])
  end.

Definition finding (k : string) (sev : string) : Finding :=
  {| key := k; project := "test-project";
     component := "test-project:path/to/file.js"; message := "Issue";
     type := "BUG"; severity := Some sev; vulnerabilityProbability := None |}.

(** [n] findings with the keys [k0], [k1], ... *)
Definition findings (n : nat) : list Finding :=
  map (fun i => finding ("k" +:+ pretty i) "MAJOR") (seq 0 n).

Definition sonar_issues (n : nat) : SonarData :=
  {| issues := findings n; hotspots := [] |}.

Definition has_k0 (batch : list string) : bool := bool_decide ("k0" ∈ batch).

Definition one_project (assignee : string) : list ProjectConfig :=
  [ {| pc_key := "project1"; pc_name := "Project 1"; pc_assignee := Some assignee;
       pc_component := None; pc_isChecked := true |} ].

Definition only_other : list Transition := [ {| tr_id := "2"; tr_name := "Other" |} ].

Definition after_transition_fetch (ticket : string) : State unit :=
  {| world := tt; calls := [JiraGetTransitions ticket]; userAccountCache := ∅;
     existingTicketsMap := ∅; existingTickets := []; createdTickets := [] |}.

Definition offers_done : list Transition := [ {| tr_id := "1"; tr_name := "Done" |} ].

Definition combined_request : Request :=
  JiraPostTransition "TICKET-4"
    {| tb_comment := true; tb_resolution := "10000"; tb_transition := "1" |}.

Definition two_accounts : list User :=
  [ {| accountId := "account1" |}; {| accountId := "account2" |} ].

(** A tracker that lists [found] as its open tickets, offers "Done" for
    each of them and applies every transition, beside a scanner that
    answers as [scannerAnswer] does. *)
Definition closing_world (found : list Ticket)
    (scannerAnswer : forall r : Request, FetchOutcome (BodyOf r)) (r : Request)
  : FetchOutcome (BodyOf r) :=
  match r as r0 return FetchOutcome (BodyOf r0) with
  | SonarIssueSearch batch => scannerAnswer (SonarIssueSearch batch)
  | SonarHotspotShow hotspotKey => scannerAnswer (SonarHotspotShow hotspotKey)
  | JiraSearchExisting _ => unreachable_host
  | JiraSearchOpen _ =>
      respond 200 {| js_issues := Some found; js_total := Some (length found) |}
  | JiraCreateIssue _ => unreachable_host
  | JiraGetTransitions _ => respond 200 {| transitions := Some offers_done |}
  | JiraPostTransition _ _ => respond 204 tt
  | JiraPostComment _ _ => respond 201 tt
  | JiraUserSearch _ => unreachable_host
  end.

End Worlds.

(** ** Environment variables (secrets.utils.js)

    [envVars] is the object that [getEnvironmentVariables] resolved to; a
    variable that is not set is a missing key. *)

(** [requiredVars.filter((varName) => !envVars[varName])] *)
Definition missingVars (envVars : gmap string string) (requiredVars : list string)
  : list string :=
  filter (fun varName => truthy_opt (envVars !! varName) = false) requiredVars.

Definition validateEnvironmentVariables (envVars : gmap string string)
    (requiredVars : list string) : Result unit :=
  match missingVars envVars requiredVars with
  | [] => Ok tt
  | missing =>
      Throw (Error ("Missing required environment variables: "
                    +:+ String.concat ", " missing))
  end.

(** The list checked by [validateEnvironmentVariablesFromSecrets]. *)
Definition requiredEnvVars : list string :=
  ["SONARQUBE_BASE_URL"; "SONARQUBE_TOKEN"; "JIRA_BASE_URL"; "JIRA_USERNAME";
   "JIRA_API_TOKEN"].

(** ** Collecting findings: [processSingleProject] and [fetchSonarData]

    The two project-wide searches go to the scanner only, so this part of
    the program has its own request type and trace.  The arrays
    [allIssues] and [allHotspots], which [processSingleProject] extends in
    place, are threaded through as a pair. *)

Module Collector.

Inductive Query :=
| ProjectIssues (projectKey : string)
| ProjectHotspots (projectKey : string).

Record IssuesPage := { page_issues : option (list Finding) }.
Record HotspotsPage := { page_hotspots : option (list Finding) }.

Definition PageOf (q : Query) : Type :=
  match q with
  | ProjectIssues _ => IssuesPage
  | ProjectHotspots _ => HotspotsPage
  end.

Section Collector.

Context {W : Type}.
Variable fetch : forall q : Query, W -> FetchOutcome (PageOf q) * W.
Variable projects : list ProjectConfig.

Record State := { world : W; queries : list Query }.

Definition M (A : Type) : Type := State -> Result A * State.

Definition ret {A} (a : A) : M A := fun st => (Ok a, st).
Definition throw {A} (e : exn) : M A := fun st => (Throw e, st).
Definition bind {A B} (c : M A) (k : A -> M B) : M B :=
  fun st =>
    match c st with
    | (Ok a, st') => k a st'
    | (Throw e, st') => (Throw e, st')
    end.
Definition try_catch {A} (body : M A) (handler : exn -> M A) : M A :=
  fun st =>
    match body st with
    | (Ok a, st') => (Ok a, st')
    | (Throw e, st') => handler e st'
    end.

Notation "x <- c ;; k" := (bind c (fun x => k))
  (at level 100, c at next level, right associativity).

Fixpoint for_acc {A B} (xs : list A) (body : A -> B -> M B) (acc : B) : M B :=
  match xs with
  | [] => ret acc
  | x :: xs' => acc' <- body x acc ;; for_acc xs' body acc'
  end.

Definition do_fetch (q : Query) : M (Response (PageOf q)) :=
  fun st =>
    let (outcome, w') := fetch q (world st) in
    let st' := {| world := w'; queries := queries st ++ [q] |} in
    match outcome with
    | Rejected e => (Throw e, st')
    | Responded resp => (Ok resp, st')
    end.

Definition response_json {A} (resp : Response A) : M A :=
  match json resp with
  | Some a => ret a
  | None => throw (SyntaxError "Unexpected token in JSON")
  end.

(** [fetchWithRetry] at the scanner's project searches. *)
Fixpoint fetchWithRetry_loop (q : Query) (remaining : nat)
  : M (option (Response (PageOf q))) :=
  match remaining with
  | O => ret None
  | S remaining' =>
      fun st =>
        match do_fetch q st with
        | (Ok response, st') =>
            if ok response then (Ok (Some response), st')
            else match remaining' with
                 | O => (Throw (Error ("HTTP " +:+ pretty (status response))), st')
                 | S _ => fetchWithRetry_loop q remaining' st'
                 end
        | (Throw error, st') =>
            match remaining' with
            | O => (Throw error, st')
            | S _ => fetchWithRetry_loop q remaining' st'
            end
        end
  end.

Definition fetchWithRetry (q : Query) : M (Response (PageOf q)) :=
  response <- fetchWithRetry_loop q 3 ;;
  match response with
  | Some resp => ret resp
  | None => throw (TypeError "Cannot read properties of undefined (reading 'ok')")
  end.

(** The first [try]/[catch] of [processSingleProject]. *)
Definition fetchProjectIssues (projectKey : string) (allIssues : list Finding)
  : M (list Finding) :=
  try_catch
    (issueResponse <- fetchWithRetry (ProjectIssues projectKey) ;;
     if negb (ok issueResponse)
     then throw (Error ("HTTP error " +:+ pretty (status issueResponse)))
     else
       issueData <- response_json issueResponse ;;
       let found := default [] (page_issues issueData) in
       match found with
       | [] => ret allIssues
       | _ => ret (allIssues ++ found)%list
       end)
    (fun error => ret allIssues).

(** The second [try]/[catch] of [processSingleProject]. *)
Definition fetchProjectHotspots (projectKey : string) (allHotspots : list Finding)
  : M (list Finding) :=
  try_catch
    (hotspotResponse <- fetchWithRetry (ProjectHotspots projectKey) ;;
     if negb (ok hotspotResponse)
     then throw (Error ("HTTP error " +:+ pretty (status hotspotResponse)))
     else
       hotspotData <- response_json hotspotResponse ;;
       let found := default [] (page_hotspots hotspotData) in
       match found with
       | [] => ret allHotspots
       | _ => ret (allHotspots ++ found)%list
       end)
    (fun error => ret allHotspots).

Definition processSingleProject (projectKey : string)
    (collected : list Finding * list Finding) : M (list Finding * list Finding) :=
  allIssues <- fetchProjectIssues projectKey collected.1 ;;
  allHotspots <- fetchProjectHotspots projectKey collected.2 ;;
  ret (allIssues, allHotspots).

(** The protected block of [fetchSonarData]. *)
Definition fetchSonarData_try (envVars : gmap string string)
    (projectList : list ProjectConfig) : M SonarData :=
  let enabledProjects :=
    match projectList with
    | _ :: _ => projectList
    | [] => filter (fun project => pc_isChecked project = true) projects
    end in
  match enabledProjects with
  | [] =>
      match envVars !! "SONARQUBE_PROJECT_KEY" with
      | Some sonarProjectKey =>
          if truthy sonarProjectKey then
            collected <- processSingleProject sonarProjectKey ([], []) ;;
            ret {| issues := collected.1; hotspots := collected.2 |}
          else ret {| issues := []; hotspots := [] |}
      | None => ret {| issues := []; hotspots := [] |}
      end
  | _ =>
      collected <- for_acc enabledProjects
                     (fun project => processSingleProject (pc_key project)) ([], []) ;;
      ret {| issues := collected.1; hotspots := collected.2 |}
  end.

(** [fetchSonarData]: the validation runs before the [try]; the [catch]
    wraps what it caught. *)
Definition fetchSonarData (envVars : gmap string string)
    (projectList : list ProjectConfig) : M SonarData :=
  match validateEnvironmentVariables envVars requiredEnvVars with
  | Throw e => throw e
  | Ok _ =>
      try_catch (fetchSonarData_try envVars projectList)
        (fun error => throw (Error ("SonarQube fetch failed: " +:+ exn_message error)))
  end.

End Collector.

Arguments State W : clear implicits.
Arguments M W A : clear implicits.

(** Findings listed by an answer to a project search (none when the call
    fails or the body cannot be read). *)
Definition listedIssues (o : FetchOutcome IssuesPage) : list Finding :=
  match o with
  | Responded resp =>
      if ok resp then
        match json resp with
        | Some issueData => default [] (page_issues issueData)
        | None => []
        end
      else []
  | Rejected _ => []
  end.

Definition listedHotspots (o : FetchOutcome HotspotsPage) : list Finding :=
  match o with
  | Responded resp =>
      if ok resp then
        match json resp with
        | Some hotspotData => default [] (page_hotspots hotspotData)
        | None => []
        end
      else []
  | Rejected _ => []
  end.

(** The queries of one project: its issue searches come first, then its
    hotspot searches, between one and three of each. *)
Definition project_queries (projectKey : string) (sent : list Query) : Prop :=
  ∃ i h, (1 <= i <= 3)%nat ∧ (1 <= h <= 3)%nat ∧
         sent = (replicate i (ProjectIssues projectKey)
                 ++ replicate h (ProjectHotspots projectKey))%list.

(** The queries of a run over [keys], project after project. *)
Fixpoint run_queries (keys : list string) (sent : list Query) : Prop :=
  match keys with
  | [] => sent = []
  | k :: keys' =>
      ∃ first rest, sent = (first ++ rest)%list ∧ project_queries k first
                    ∧ run_queries keys' rest
  end.

(** The projects a run scans: the provided list when it is not empty,
    otherwise the checked projects of the configuration, otherwise the
    project named by SONARQUBE_PROJECT_KEY when that is set. *)
Definition scannedProjects (projects : list ProjectConfig)
    (envVars : gmap string string) (projectList : list ProjectConfig) : list string :=
  match projectList with
  | _ :: _ => map pc_key projectList
  | [] =>
      match filter (fun project => pc_isChecked project = true) projects with
      | (_ :: _) as enabled => map pc_key enabled
      | [] =>
          match envVars !! "SONARQUBE_PROJECT_KEY" with
          | Some fallback => if truthy fallback then [fallback] else []
          | None => []
          end
      end
  end.

End Collector.

(** ** Lambda responses (microservice.utils.js, index.js, ticket_closer.js)

    The body of a response is kept as the object handed to
    [JSON.stringify]; the constant CORS headers are left out.  [errorType]
    reads the member of that name, [None] for an object without it. *)

Record LambdaResponse (A : Type) := { statusCode : nat; body : A }.
Arguments statusCode {A} _.
Arguments body {A} _.

Definition responsify {A} (errorType : A -> option string) (data : A)
    (statusCode : nat) : LambdaResponse A :=
  let statusCode :=
    if truthy_opt (errorType data)
    then if bool_decide (errorType data = Some "NOT_FOUND") then 404%nat else 400%nat
    else statusCode in
  {| statusCode := statusCode; body := data |}.

Definition no_errorType {A} (data : A) : option string := None.

(** Body of the creation handler's answer. *)
Record CreationTotals := {
  totalCreated : nat;
  totalExisting : nat;
  totalProcessed : nat
}.
Inductive WebhookBody :=
| WebhookSummary (message : string) (summary : CreationTotals)
| WebhookError (error details : string).

(** [formatResponse] (index.js) *)
Definition formatResponse (createdTickets : CreateResult)
  : LambdaResponse WebhookBody :=
  let message :=
    match created createdTickets, existing createdTickets with
    | _ :: _, _ :: _ => "Some Jira tickets created, some already existed"
    | _ :: _, [] => "Jira tickets created successfully"
    | [], _ :: _ => "All Jira tickets already exist"
    | [], [] => "No Jira tickets created or found"
    end in
  responsify no_errorType
    (WebhookSummary message
       {| totalCreated := length (created createdTickets);
          totalExisting := length (existing createdTickets);
          totalProcessed := length (created createdTickets)
                            + length (existing createdTickets) |})
    200.

(** Body of the closer handler's answer (the time stamp of the error body
    is left out). *)
Inductive CloserBody :=
| CloserSummary (message : string) (summary : CloseSummary)
| CloserError (error details : string).

Section Handlers.

Context {W : Type}.
Variable fetch : forall r : Request, W -> FetchOutcome (BodyOf r) * W.

(** [ticketCloserHandler] (ticket_closer.js); [None] when the pagination
    budget of the service runs out. *)
Definition ticketCloserHandler (fuel : nat)
  : M W (option (LambdaResponse CloserBody)) :=
  try_catch
    (bind (closeResolvedJiraTickets fetch fuel) (fun result =>
       match result with
       | None => ret None
       | Some result =>
           let message :=
             "Successfully processed " +:+ pretty (ticketsChecked result)
             +:+ " tickets, closed " +:+ pretty (ticketsClosed result)
             +:+ " resolved tickets" in
           ret (Some (responsify no_errorType (CloserSummary message result) 200))
       end))
    (fun error =>
       ret (Some (responsify no_errorType
                    (CloserError "Failed to process ticket closing" (exn_message error))
                    500))).

End Handlers.

(** What the invocation of the project fetcher Lambda resolved to, as far
    as the handler reads it: the invocation status and the parsed payload,
    a [Throw] when a [JSON.parse] of the payload or of its body throws. *)
Record FetcherPayload := {
  fetcher_statusCode : nat;
  fetcher_projects : option (list ProjectConfig)
}.
Record InvokeResult := { StatusCode : nat; Payload : Result FetcherPayload }.

Definition projectBatchSize : nat := 5.

Section Webhook.

Context {Wc W : Type}.
Variable scan : forall q : Collector.Query, Wc -> FetchOutcome (Collector.PageOf q) * Wc.
Variable fetch : forall r : Request, W -> FetchOutcome (BodyOf r) * W.
Variable projects : list ProjectConfig.

(** The handlers of index.js run the collector and the creation service
    one after the other, so their state pairs the two sides.  [envVars] is
    what every call of [getEnvironmentVariables] resolves to, so the
    validation that [createJiraTickets] repeats has passed when its turn
    comes. *)
Definition HandlerState : Type := Collector.State Wc * State W.

(** Steps 2 to 4 of [sonarToJiraHandler] with its outer [catch]. *)
Definition collectAndCreate (envVars : gmap string string)
    (projectList : list ProjectConfig) (st : HandlerState)
  : Result (LambdaResponse WebhookBody) * HandlerState :=
  let failed (error : exn) :=
    responsify no_errorType
      (WebhookError "Failed to process webhook" (exn_message error)) 500 in
  match Collector.fetchSonarData scan projects envVars projectList st.1 with
  | (Throw error, collector') => (Ok (failed error), (collector', st.2))
  | (Ok sonarIssues, collector') =>
      let sonarBaseUrl := property_key (envVars !! "SONARQUBE_BASE_URL") in
      match createJiraTickets fetch projects sonarBaseUrl (Some sonarIssues) st.2 with
      | (Throw error, tracker') => (Ok (failed error), (collector', tracker'))
      | (Ok createdTickets, tracker') =>
          (Ok (formatResponse createdTickets), (collector', tracker'))
      end
  end.

(** Body of the batch loop of [processBatchedProjects]: a failed batch is
    logged and skipped. *)
Definition processProjectBatch (envVars : gmap string string)
    (batch : list ProjectConfig) (collected : list string * list string)
    (st : HandlerState) : (list string * list string) * HandlerState :=
  match Collector.fetchSonarData scan projects envVars batch st.1 with
  | (Throw batchError, collector') => (collected, (collector', st.2))
  | (Ok sonarIssues, collector') =>
      let sonarBaseUrl := property_key (envVars !! "SONARQUBE_BASE_URL") in
      match createJiraTickets fetch projects sonarBaseUrl (Some sonarIssues) st.2 with
      | (Throw batchError, tracker') => (collected, (collector', tracker'))
      | (Ok createdTickets, tracker') =>
          (((collected.1 ++ created createdTickets)%list,
            (collected.2 ++ existing createdTickets)%list),
           (collector', tracker'))
      end
  end.

(** [processBatchedProjects] (index.js) *)
Definition processBatchedProjects (envVars : gmap string string)
    (projectList : list ProjectConfig) (st : HandlerState)
  : Result (LambdaResponse WebhookBody) * HandlerState :=
  let run :=
    foldl (fun acc batch => processProjectBatch envVars batch acc.1 acc.2)
          (([], []), st) (batches projectBatchSize projectList) in
  (Ok (formatResponse {| created := run.1.1; existing := run.1.2; error := None |}),
   run.2).

(** [sonarToJiraHandler] (index.js).  [invocation] is [None] when the
    handler runs locally and does not invoke the project fetcher. *)
Definition sonarToJiraHandler (envVars : gmap string string)
    (invocation : option (Result InvokeResult)) (st : HandlerState)
  : Result (LambdaResponse WebhookBody) * HandlerState :=
  match invocation with
  | None => collectAndCreate envVars [] st
  | Some (Throw lambdaError) => collectAndCreate envVars [] st
  | Some (Ok fetcherResult) =>
      if (StatusCode fetcherResult =? 200)%nat then
        match Payload fetcherResult with
        | Throw lambdaError => collectAndCreate envVars [] st
        | Ok fetcherPayload =>
            if (fetcher_statusCode fetcherPayload =? 200)%nat then
              let projectList := default [] (fetcher_projects fetcherPayload) in
              if (10 <? length projectList)%nat then
                match processBatchedProjects envVars projectList st with
                | (Ok response, st') => (Ok response, st')
                | (Throw lambdaError, st') => collectAndCreate envVars projectList st'
                end
              else collectAndCreate envVars projectList st
            else collectAndCreate envVars [] st
        end
      else collectAndCreate envVars [] st
  end.

End Webhook.

(** The project list the handler holds after its first step. *)
Definition fetchedProjects (invocation : option (Result InvokeResult))
  : list ProjectConfig :=
  match invocation with
  | Some (Ok fetcherResult) =>
      match Payload fetcherResult with
      | Ok fetcherPayload =>
          if ((StatusCode fetcherResult =? 200)%nat
              && (fetcher_statusCode fetcherPayload =? 200)%nat)%bool
          then default [] (fetcher_projects fetcherPayload)
          else []
      | Throw _ => []
      end
  | _ => []
  end.

(** ** Vocabulary of the further properties *)

(** A request of the resolution check: the issue search of one batch of
    the requested keys, or the hotspot query of one requested key. *)
Definition asks_scanner_about (sonarKeys : list string) (r : Request) : Prop :=
  match r with
  | SonarIssueSearch batch => batch ∈ batches maxBatchSize sonarKeys
  | SonarHotspotShow hotspotKey => hotspotKey ∈ sonarKeys
  | _ => False
  end.

(** A request of one closure: the transition fetch of the ticket, or the
    combined request applying a transition with a preferred name. *)
Definition closes_ticket (jiraTicketKey : string) (r : Request) : Prop :=
  r = JiraGetTransitions jiraTicketKey
  ∨ ∃ t, tr_name t ∈ preferredTransitions ∧ truthy (tr_id t) = true ∧
         r = JiraPostTransition jiraTicketKey (commentBody t).

(** A request of the creation run over [sonarData] with the assignees
    [emails]. *)
Definition creation_request (emails : list string) (sonarData : SonarData)
    (r : Request) : Prop :=
  match r with
  | JiraUserSearch email => email ∈ emails
  | JiraSearchExisting batch =>
      batch ∈ batches maxBatchSize
                (map key (issues sonarData) ++ map key (hotspots sonarData))%list
  | JiraCreateIssue payload =>
      ∃ item, item ∈ (issues sonarData ++ hotspots sonarData)%list ∧
              jp_reference payload = key item ∧
              jp_project payload = DEFAULT_PROJECT ∧
              jp_issuetype payload = "Bug"
  | _ => False
  end.

(** Between [st] and [st'] the program sent only requests satisfying [P]
    and changed none of its own data. *)
Definition sends_only {W} (P : Request → Prop) (st st' : State W) : Prop :=
  ∃ sent, sends st st' sent ∧ Forall P sent.

(** A request of a closure run over the fetched tickets [allTickets]: a
    search for open tickets, a request of the resolution check for the
    identifiers extracted from them, or a request closing one of them that
    carries an identifier. *)
Definition closure_request (allTickets : list Ticket) (r : Request) : Prop :=
  match r with
  | JiraSearchOpen _ => True
  | SonarIssueSearch _ | SonarHotspotShow _ =>
      asks_scanner_about (omap extractSonarKey allTickets) r
  | JiraGetTransitions _ | JiraPostTransition _ _ =>
      ∃ ticket, ticket ∈ allTickets ∧ is_Some (extractSonarKey ticket) ∧
                closes_ticket (t_key ticket) r
  | _ => False
  end.



(** Tickets counted so far by the closure loop. *)
Definition handled (c : Counters) : nat :=
  (closedCount c + errorCount c + notResolvedCount c)%nat.

(** Only white space. *)
Fixpoint blank (s : string) : bool :=
  match s with
  | EmptyString => true
  | String c s' => Ascii.is_space c && blank s'
  end.

(** ** Further back ends *)

Module MoreWorlds.

Import Worlds.

(** A tracker whose open-ticket search keeps answering with an empty page
    and a total of [total]. *)
Definition tracker_empty_pages (total : nat) (r : Request) : FetchOutcome (BodyOf r) :=
  match r as r0 return FetchOutcome (BodyOf r0) with
  | SonarIssueSearch _ => unreachable_host
  | SonarHotspotShow _ => unreachable_host
  | JiraSearchExisting _ => unreachable_host
  | JiraSearchOpen _ => respond 200 {| js_issues := Some []; js_total := Some total |}
  | JiraCreateIssue _ => unreachable_host
  | JiraGetTransitions _ => unreachable_host
  | JiraPostTransition _ _ => unreachable_host
  | JiraPostComment _ _ => unreachable_host
  | JiraUserSearch _ => unreachable_host
  end.

(** A tracker whose open-ticket search answers the first page with
    [page] and a total of [total], and fails for every later page. *)
Definition tracker_first_page (page : list Ticket) (total : nat) (r : Request)
  : FetchOutcome (BodyOf r) :=
  match r as r0 return FetchOutcome (BodyOf r0) with
  | SonarIssueSearch _ => unreachable_host
  | SonarHotspotShow _ => unreachable_host
  | JiraSearchExisting _ => unreachable_host
  | JiraSearchOpen O => respond 200 {| js_issues := Some page; js_total := Some total |}
  | JiraSearchOpen (S _) => unreachable_host
  | JiraCreateIssue _ => unreachable_host
  | JiraGetTransitions _ => unreachable_host
  | JiraPostTransition _ _ => unreachable_host
  | JiraPostComment _ _ => unreachable_host
  | JiraUserSearch _ => unreachable_host
  end.

(** No back end answers. *)
Definition offline (r : Request) : FetchOutcome (BodyOf r) := unreachable_host.

(** A scanner that lists one issue for every project and fails every
    hotspot search with status 500. *)
Definition scanner_projects (q : Collector.Query)
  : FetchOutcome (Collector.PageOf q) :=
  match q as q0 return FetchOutcome (Collector.PageOf q0) with
  | Collector.ProjectIssues projectKey =>
      respond 200 {| Collector.page_issues :=
                       Some [finding (projectKey +:+ "-1") "MAJOR"] |}
  | Collector.ProjectHotspots _ => Responded {| status := 500; json := None |}
  end.

Definition scanner_offline (q : Collector.Query)
  : FetchOutcome (Collector.PageOf q) :=
  match q as q0 return FetchOutcome (Collector.PageOf q0) with
  | Collector.ProjectIssues _ => unreachable_host
  | Collector.ProjectHotspots _ => unreachable_host
  end.

Definition collector_world (answer : forall q, FetchOutcome (Collector.PageOf q))
  : forall q : Collector.Query, unit -> FetchOutcome (Collector.PageOf q) * unit :=
  fun q w => (answer q, w).

Definition collector_initial : Collector.State unit :=
  {| Collector.world := tt; Collector.queries := [] |}.

Definition complete_env : gmap string string :=
  <["SONARQUBE_BASE_URL" := "https://sonarqube.test"]>
  (<["SONARQUBE_TOKEN" := "token"]>
  (<["JIRA_BASE_URL" := "https://jira.test"]>
  (<["JIRA_USERNAME" := "user"]>
  (<["JIRA_API_TOKEN" := "secret"]> ∅)))).

Definition two_projects : list ProjectConfig :=
  [ {| pc_key := "alpha"; pc_name := "Alpha"; pc_assignee := None;
       pc_component := None; pc_isChecked := true |};
    {| pc_key := "beta"; pc_name := "Beta"; pc_assignee := None;
       pc_component := None; pc_isChecked := false |} ].

(** Eleven projects, as the project fetcher would return them. *)
Definition eleven_projects : list ProjectConfig :=
  map (fun i => {| pc_key := "p" +:+ pretty i; pc_name := "Project";
                   pc_assignee := None; pc_component := None;
                   pc_isChecked := true |}) (seq 0 11).

Definition fetcher_returned (ps : list ProjectConfig) : option (Result InvokeResult) :=
  Some (Ok {| StatusCode := 200;
              Payload := Ok {| fetcher_statusCode := 200;
                               fetcher_projects := Some ps |} |}).

End MoreWorlds.

(** * Properties *)

Section Proofs.

Context {W : Type}.
Variable fetch : forall r : Request, W -> FetchOutcome (BodyOf r) * W.

(** ** Batching *)

Lemma batches_fuel_concat {A} (size fuel : nat) (l : list A) :
  0 < size -> length l <= fuel -> concat (batches_fuel fuel size l) = l.
Proof.
  intros Hsize. revert l.
  induction fuel as [|fuel IH]; intros l Hlen.
  - destruct l; [reflexivity | simpl in Hlen; lia].
  - destruct l as [|x l]; [reflexivity|].
    cbn [batches_fuel concat]. rewrite IH.
    + apply take_drop.
    + rewrite length_drop. simpl in *. lia.
Qed.

Lemma batches_concat {A} (size : nat) (l : list A) :
  0 < size -> concat (batches size l) = l.
Proof. intros. apply batches_fuel_concat; [assumption | reflexivity]. Qed.

Lemma batches_elem {A} (size : nat) (l b : list A) (x : A) :
  0 < size -> b ∈ batches size l -> x ∈ b -> x ∈ l.
Proof.
  intros Hsize Hb Hx.
  rewrite <- (batches_concat size l Hsize).
  apply list_elem_of_In, in_concat. exists b.
  split; apply list_elem_of_In; assumption.
Qed.

Lemma batches_cover {A} (size : nat) (l : list A) (x : A) :
  0 < size -> x ∈ l -> exists b, b ∈ batches size l /\ x ∈ b.
Proof.
  intros Hsize Hx.
  rewrite <- (batches_concat size l Hsize) in Hx.
  apply list_elem_of_In, in_concat in Hx as (b & Hb & Hxb).
  exists b. split; apply list_elem_of_In; assumption.
Qed.

(** ** The retrying fetch *)

Lemma fetchWithRetry_loop_outcome r n st :
  match fetchWithRetry_loop fetch r (S n) st with
  | (Ok (Some resp), _) => ok resp = true
  | (Ok None, _) => False
  | (Throw _, _) => True
  end.
Proof.
  revert st. induction n as [|n IH]; intros st.
  - cbn [fetchWithRetry_loop]. destruct (do_fetch fetch r st) as [[resp|e] st'].
    + destruct (ok resp) eqn:E; [exact E | exact I].
    + exact I.
  - change (fetchWithRetry_loop fetch r (S (S n)) st) with
      (match do_fetch fetch r st with
       | (Ok response, st') =>
           if ok response then (Ok (Some response), st')
           else fetchWithRetry_loop fetch r (S n) st'
       | (Throw error, st') => fetchWithRetry_loop fetch r (S n) st'
       end).
    destruct (do_fetch fetch r st) as [[resp|e] st'].
    + destruct (ok resp) eqn:E; [exact E | apply IH].
    + apply IH.
Qed.

(** [fetchWithRetry] hands back a response only when it is a success. *)
Lemma fetchWithRetry_ok r st resp st' :
  fetchWithRetry fetch r st = (Ok resp, st') -> ok resp = true.
Proof.
  unfold fetchWithRetry, bind. intros H.
  pose proof (fetchWithRetry_loop_outcome r 2 st) as Hout.
  destruct (fetchWithRetry_loop fetch r 3 st) as [[[resp'|]|e] st1];
    cbn in H; try discriminate.
  injection H as -> _. exact Hout.
Qed.


(** Against a back end that always answers [r] with [o], the retrying
    fetch settles to the value determined by [o]. *)
Lemma fetchWithRetry_loop_stationary r o n :
  (forall w, (fetch r w).1 = o) ->
  forall st, (fetchWithRetry_loop fetch r (S n) st).1 = settled_loop o.
Proof.
  intros Hstat. induction n as [|n IH]; intros st.
  - cbn [fetchWithRetry_loop]. unfold do_fetch.
    specialize (Hstat (world st)).
    destruct (fetch r (world st)) as [o' w']. cbn in Hstat. subst o'.
    destruct o as [e|resp]; cbn; [reflexivity|].
    destruct (ok resp); reflexivity.
  - change (fetchWithRetry_loop fetch r (S (S n)) st) with
      (match do_fetch fetch r st with
       | (Ok response, st') =>
           if ok response then (Ok (Some response), st')
           else fetchWithRetry_loop fetch r (S n) st'
       | (Throw error, st') => fetchWithRetry_loop fetch r (S n) st'
       end).
    unfold do_fetch. pose proof (Hstat (world st)) as Hw.
    destruct (fetch r (world st)) as [o' w']. cbn in Hw. subst o'.
    destruct o as [e|resp]; cbv beta iota zeta.
    + apply IH.
    + destruct (ok resp) eqn:E.
      * cbn. rewrite E. reflexivity.
      * rewrite IH. cbn. rewrite E. reflexivity.
Qed.

Lemma fetchWithRetry_stationary r o :
  (forall w, (fetch r w).1 = o) ->
  forall st, (fetchWithRetry fetch r st).1 = settled o.
Proof.
  intros Hstat st. unfold fetchWithRetry, bind.
  pose proof (fetchWithRetry_loop_stationary r o 2 Hstat st) as H.
  destruct (fetchWithRetry_loop fetch r 3 st) as [res st1]. cbn in H. subst res.
  destruct o as [e|resp]; cbn; [reflexivity|].
  destruct (ok resp); reflexivity.
Qed.

(** Requests sent by the retrying fetch: copies of [r], at least one. *)
Lemma sends_refl (st : State W) : sends st st [].
Proof. unfold sends. rewrite app_nil_r. auto. Qed.

Lemma sends_trans (st1 st2 st3 : State W) l1 l2 :
  sends st1 st2 l1 -> sends st2 st3 l2 -> sends st1 st3 (l1 ++ l2)%list.
Proof.
  intros (Hc1 & Hu1 & Hm1 & He1 & Hd1) (Hc2 & Hu2 & Hm2 & He2 & Hd2).
  unfold sends. rewrite Hc2, Hc1, Hu2, Hm2, He2, Hd2, app_assoc. auto.
Qed.

Lemma do_fetch_sends r (st : State W) : sends st (do_fetch fetch r st).2 [r].
Proof.
  unfold do_fetch. destruct (fetch r (world st)) as [[e|resp] w'];
    cbn; unfold sends; cbn; auto.
Qed.

Lemma fetchWithRetry_loop_sends r n (st : State W) :
  exists k, sends st (fetchWithRetry_loop fetch r n st).2 (replicate k r).
Proof.
  revert st. induction n as [|n IH]; intros st.
  - exists 0. apply sends_refl.
  - cbn [fetchWithRetry_loop].
    pose proof (do_fetch_sends r st) as H1.
    destruct (do_fetch fetch r st) as [[resp|e] st1]; cbn [snd] in H1.
    + destruct (ok resp).
      * exists 1. exact H1.
      * destruct n as [|n]; [exists 1; exact H1|].
        destruct (IH st1) as [k Hk]. exists (S k).
        change (replicate (S k) r) with ([r] ++ replicate k r)%list.
        eapply sends_trans; eauto.
    + destruct n as [|n]; [exists 1; exact H1|].
      destruct (IH st1) as [k Hk]. exists (S k).
      change (replicate (S k) r) with ([r] ++ replicate k r)%list.
      eapply sends_trans; eauto.
Qed.

Lemma fetchWithRetry_loop_sends_some r n (st : State W) :
  exists k, sends st (fetchWithRetry_loop fetch r (S n) st).2 (replicate (S k) r).
Proof.
  cbn [fetchWithRetry_loop].
  pose proof (do_fetch_sends r st) as H1.
  destruct (do_fetch fetch r st) as [[resp|e] st1]; cbn [snd] in H1.
  - destruct (ok resp); [exists 0; exact H1|].
    destruct n as [|n]; [exists 0; exact H1|].
    destruct (fetchWithRetry_loop_sends r (S n) st1) as [k Hk]. exists k.
    change (replicate (S k) r) with ([r] ++ replicate k r)%list.
    eapply sends_trans; eauto.
  - destruct n as [|n]; [exists 0; exact H1|].
    destruct (fetchWithRetry_loop_sends r (S n) st1) as [k Hk]. exists k.
    change (replicate (S k) r) with ([r] ++ replicate k r)%list.
    eapply sends_trans; eauto.
Qed.

Lemma fetchWithRetry_sends r (st : State W) :
  exists k, sends st (fetchWithRetry fetch r st).2 (replicate (S k) r).
Proof.
  unfold fetchWithRetry, bind.
  destruct (fetchWithRetry_loop_sends_some r 2 st) as [k Hk]. exists k.
  destruct (fetchWithRetry_loop fetch r 3 st) as [[[resp|]|e] st1]; exact Hk.
Qed.

(** ** Loops with an accumulator *)

Lemma for_acc_total {A B} (R : B -> B -> Prop) (body : A -> B -> M W B) :
  (forall b, R b b) ->
  (forall b1 b2 b3, R b1 b2 -> R b2 b3 -> R b1 b3) ->
  (forall x acc st, exists acc' st', body x acc st = (Ok acc', st') /\ R acc acc') ->
  forall xs acc st,
    exists acc' st', for_acc xs body acc st = (Ok acc', st') /\ R acc acc'.
Proof.
  intros Hrefl Htrans Hbody xs.
  induction xs as [|x xs IH]; intros acc st.
  - exists acc, st. split; [reflexivity | apply Hrefl].
  - cbn [for_acc]. unfold bind.
    destruct (Hbody x acc st) as (acc1 & st1 & -> & HR1).
    destruct (IH acc1 st1) as (acc2 & st2 & -> & HR2).
    exists acc2, st2. split; [reflexivity | eauto].
Qed.

Lemma for_acc_pure {A B} (f : B -> A -> B) (body : A -> B -> M W B) :
  (forall x acc st, (body x acc st).1 = Ok (f acc x)) ->
  forall xs acc st, (for_acc xs body acc st).1 = Ok (foldl f acc xs).
Proof.
  intros Hbody xs. induction xs as [|x xs IH]; intros acc st; [reflexivity|].
  cbn [for_acc foldl]. unfold bind.
  specialize (Hbody x acc st).
  destruct (body x acc st) as [res st1]. cbn in Hbody. subst res.
  apply IH.
Qed.


(** ** Assignments and lookups in an object literal *)

Lemma lookup_assign {A} (name k : string) (v : A) (m : gmap string A) :
  assign name v m !! k
  = if decide (k = name ∧ name ≠ "__proto__") then Some v else m !! k.
Proof.
  unfold assign. case_bool_decide as Hp.
  - rewrite decide_False; [reflexivity | tauto].
  - destruct (decide (k = name)) as [->|Hne].
    + rewrite lookup_insert_eq, decide_True; [reflexivity | tauto].
    + rewrite lookup_insert_ne by congruence.
      rewrite decide_False; [reflexivity | tauto].
Qed.

Lemma lookup_assign_proto {A} (name : string) (v : A) (m : gmap string A) :
  assign name v m !! "__proto__" = m !! "__proto__".
Proof. rewrite lookup_assign. apply decide_False. intros [E H]. congruence. Qed.

Lemma member_own {A} (m : gmap string A) (k : string) (a : A) :
  m !! k = Some a -> member m k = Own a.
Proof. unfold member. intros ->. reflexivity. Qed.

Lemma member_inherited {A} (m : gmap string A) (k : string) :
  m !! k = None -> k ∈ objectPrototypeNames -> member m k = Inherited.
Proof.
  unfold member. intros -> Hin. rewrite bool_decide_eq_true_2 by exact Hin. reflexivity.
Qed.

Lemma member_undefined {A} (m : gmap string A) (k : string) :
  m !! k = None -> k ∉ objectPrototypeNames -> member m k = Undefined.
Proof.
  unfold member. intros -> Hin. rewrite bool_decide_eq_false_2 by exact Hin. reflexivity.
Qed.


Lemma mark_lookup value ks (m : gmap string bool) k :
  mark value ks m !! k
  = if decide (k ∈ ks ∧ k ≠ "__proto__") then Some value else m !! k.
Proof.
  unfold mark. revert m. induction ks as [|x ks IH]; intros m; cbn [foldl].
  - rewrite decide_False; [reflexivity|]. intros [H _]. inversion H.
  - rewrite IH, lookup_assign.
    destruct (decide (k ∈ ks ∧ k ≠ "__proto__")) as [[Hin Hp]|Hn].
    + rewrite decide_True; [reflexivity|]. split; [right; exact Hin | exact Hp].
    + destruct (decide (k = x ∧ x ≠ "__proto__")) as [[-> Hp]|Hx].
      * rewrite decide_True; [reflexivity|]. split; [left | exact Hp].
      * rewrite decide_False; [reflexivity|]. intros [Hin Hp].
        apply elem_of_cons in Hin as [->|Hin]; [apply Hx | apply Hn]; auto.
Qed.

Lemma mark_all_lookup value ks k :
  mark_all value ks !! k
  = if decide (k ∈ ks ∧ k ≠ "__proto__") then Some value else None.
Proof. unfold mark_all. rewrite mark_lookup. rewrite lookup_empty. reflexivity. Qed.

Lemma only_flipped_refl m : only_flipped m m.
Proof. split; [|split]; [intros k b H; exists b; auto | auto | reflexivity]. Qed.

Lemma only_flipped_trans m1 m2 m3 :
  only_flipped m1 m2 -> only_flipped m2 m3 -> only_flipped m1 m3.
Proof.
  intros (H12 & T12 & P12) (H23 & T23 & P23). split; [|split].
  - intros k b H.
    destruct (H12 k b H) as (b2 & H2 & Hb2).
    destruct (H23 k b2 H2) as (b3 & H3 & Hb3).
    exists b3. split; auto.
  - intros k H. apply T12, T23, H.
  - rewrite P23. exact P12.
Qed.

Lemma only_flipped_assign (m : gmap string bool) k :
  only_flipped m (assign k false m).
Proof.
  split; [|split].
  - intros k' b H. rewrite lookup_assign.
    destruct (decide (k' = k ∧ k ≠ "__proto__")); [exists false | exists b]; auto.
  - intros k'. rewrite lookup_assign.
    destruct (decide (k' = k ∧ k ≠ "__proto__")); [discriminate | auto].
  - apply lookup_assign_proto.
Qed.

Lemma only_flipped_mark ks (m : gmap string bool) :
  only_flipped m (mark false ks m).
Proof.
  split; [|split].
  - intros k b H. rewrite mark_lookup.
    destruct (decide (k ∈ ks ∧ k ≠ "__proto__")); [exists false | exists b]; auto.
  - intros k. rewrite mark_lookup.
    destruct (decide (k ∈ ks ∧ k ≠ "__proto__")); [discriminate | auto].
  - rewrite mark_lookup. apply decide_False. intros [_ H]. apply H. reflexivity.
Qed.

(** ** The reconciliation engine returns, and only flips entries *)

Lemma checkIssuesBatch_total batch m st :
  exists m' st', checkIssuesBatch fetch batch m st = (Ok m', st') /\ only_flipped m m'.
Proof.
  unfold checkIssuesBatch, try_catch, bind.
  destruct (fetchWithRetry fetch (SonarIssueSearch batch) st) as [[resp|e] st1].
  - destruct (ok resp).
    + unfold response_json. destruct (json resp) as [issueData|]; cbn.
      * eexists _, _. split; [reflexivity | apply only_flipped_mark].
      * eexists _, _. split; [reflexivity | apply only_flipped_refl].
    + cbn. eexists _, _. split; [reflexivity | apply only_flipped_refl].
  - cbn. eexists _, _. split; [reflexivity | apply only_flipped_refl].
Qed.

Lemma checkHotspot_total hotspotKey m st :
  exists m' st', checkHotspot fetch hotspotKey m st = (Ok m', st') /\ only_flipped m m'.
Proof.
  unfold checkHotspot, try_catch, bind.
  destruct (fetchWithRetry fetch (SonarHotspotShow hotspotKey) st) as [[resp|e] st1].
  - destruct (ok resp).
    + unfold response_json. destruct (json resp) as [hotspotData|]; cbn.
      * destruct (nonempty (hs_errors hotspotData)); cbn.
        { eexists _, _. split; [reflexivity | apply only_flipped_refl]. }
        destruct (truthy_opt (hs_key hotspotData)); cbn.
        { eexists _, _. split; [reflexivity | apply only_flipped_assign]. }
        eexists _, _. split; [reflexivity | apply only_flipped_refl].
      * eexists _, _. split; [reflexivity | apply only_flipped_refl].
    + cbn. eexists _, _. split; [reflexivity | apply only_flipped_refl].
  - cbn. eexists _, _. split; [reflexivity | apply only_flipped_refl].
Qed.

Lemma checkBatch_total batch m st :
  exists m' st', checkBatch fetch batch m st = (Ok m', st') /\ only_flipped m m'.
Proof.
  unfold checkBatch, bind.
  destruct (checkIssuesBatch_total batch m st) as (m1 & st1 & -> & H1).
  destruct (for_acc_total only_flipped (checkHotspot fetch)
              only_flipped_refl only_flipped_trans checkHotspot_total
              (filter (fun k => m1 !! k = Some true) batch) m1 st1)
    as (m2 & st2 & -> & H2).
  exists m2, st2. split; [reflexivity | eapply only_flipped_trans; eauto].
Qed.

Lemma checkMultipleIssuesResolved_try_total sonarKeys st :
  exists m st',
    checkMultipleIssuesResolved_try fetch sonarKeys st = (Ok m, st') /\
    only_flipped (mark_all true sonarKeys) m.
Proof.
  unfold checkMultipleIssuesResolved_try.
  apply (for_acc_total only_flipped (checkBatch fetch)
           only_flipped_refl only_flipped_trans checkBatch_total).
Qed.

(** The protected block never throws, so the function is its block and
    the outer handler is never entered. *)
Lemma checkMultipleIssuesResolved_total sonarKeys st :
  exists m st',
    checkMultipleIssuesResolved fetch sonarKeys st = (Ok m, st') /\
    checkMultipleIssuesResolved_try fetch sonarKeys st = (Ok m, st') /\
    only_flipped (mark_all true sonarKeys) m.
Proof.
  destruct (checkMultipleIssuesResolved_try_total sonarKeys st)
    as (m & st' & Hrun & Hflip).
  exists m, st'. split; [|split; assumption].
  unfold checkMultipleIssuesResolved, try_catch.
  rewrite Hrun. reflexivity.
Qed.

(** The entries of the map that the engine returns. *)
Lemma resolution_map_entries sonarKeys st :
  exists m st',
    checkMultipleIssuesResolved fetch sonarKeys st = (Ok m, st') /\
    (forall k, k ∈ sonarKeys -> k <> "__proto__" -> exists b : bool, m !! k = Some b) /\
    (forall k, m !! k = Some true -> k ∈ sonarKeys) /\
    m !! "__proto__" = None.
Proof.
  destruct (checkMultipleIssuesResolved_total sonarKeys st)
    as (m & st' & Hrun & _ & Hkeep & Htrue & Hproto).
  exists m, st'. split; [exact Hrun|]. split; [|split].
  - intros k Hk Hp. destruct (Hkeep k true) as (b & Hb & _); [|exists b; exact Hb].
    rewrite mark_all_lookup. apply decide_True. auto.
  - intros k Hk. specialize (Htrue k Hk). rewrite mark_all_lookup in Htrue.
    destruct (decide (k ∈ sonarKeys ∧ k ≠ "__proto__")) as [[Hin _]|_];
      [exact Hin | discriminate].
  - rewrite Hproto, mark_all_lookup. apply decide_False. intros [_ H]. apply H.
    reflexivity.
Qed.


(** ** Reconciliation against a scanner with fixed answers *)

Section FixedScanner.

Variable issuesAnswer : list string -> FetchOutcome IssueSearchData.
Variable hotspotAnswer : string -> FetchOutcome HotspotShowData.
Hypothesis issues_fixed :
  forall batch w, (fetch (SonarIssueSearch batch) w).1 = issuesAnswer batch.
Hypothesis hotspot_fixed :
  forall k w, (fetch (SonarHotspotShow k) w).1 = hotspotAnswer k.

Lemma checkIssuesBatch_fixed batch m st :
  (checkIssuesBatch fetch batch m st).1
  = Ok (mark false (reportedIssueKeys (issuesAnswer batch)) m).
Proof.
  unfold checkIssuesBatch, try_catch, bind.
  pose proof (fetchWithRetry_stationary (SonarIssueSearch batch) _
                (issues_fixed batch) st) as Hs.
  destruct (fetchWithRetry fetch (SonarIssueSearch batch) st) as [res st1].
  cbn in Hs. subst res. unfold reportedIssueKeys.
  destruct (issuesAnswer batch) as [e|resp]; cbn; [reflexivity|].
  destruct (ok resp) eqn:E; cbn; [|reflexivity].
  rewrite E. unfold response_json.
  destruct (json resp) as [issueData|]; reflexivity.
Qed.

Lemma checkHotspot_fixed k m st :
  (checkHotspot fetch k m st).1 = Ok (flipHotspot hotspotAnswer m k).
Proof.
  unfold checkHotspot, try_catch, bind, flipHotspot.
  pose proof (fetchWithRetry_stationary (SonarHotspotShow k) _
                (hotspot_fixed k) st) as Hs.
  destruct (fetchWithRetry fetch (SonarHotspotShow k) st) as [res st1].
  cbn in Hs. subst res. unfold reportsActiveHotspot.
  destruct (hotspotAnswer k) as [e|resp]; cbn; [reflexivity|].
  destruct (ok resp) eqn:E; cbn; [|reflexivity].
  rewrite E. unfold response_json.
  destruct (json resp) as [hotspotData|]; cbn; [|reflexivity].
  destruct (nonempty (hs_errors hotspotData)); cbn; [reflexivity|].
  destruct (truthy_opt (hs_key hotspotData)); reflexivity.
Qed.

Lemma checkBatch_fixed batch m st :
  (checkBatch fetch batch m st).1 = Ok (batchStatus issuesAnswer hotspotAnswer m batch).
Proof.
  unfold checkBatch, bind, batchStatus.
  pose proof (checkIssuesBatch_fixed batch m st) as H1.
  destruct (checkIssuesBatch fetch batch m st) as [res st1].
  cbn in H1. subst res.
  apply (for_acc_pure (flipHotspot hotspotAnswer)). intros. apply checkHotspot_fixed.
Qed.

Lemma checkMultipleIssuesResolved_fixed sonarKeys st :
  (checkMultipleIssuesResolved fetch sonarKeys st).1
  = Ok (foldl (batchStatus issuesAnswer hotspotAnswer)
              (mark_all true sonarKeys) (batches maxBatchSize sonarKeys)).
Proof.
  unfold checkMultipleIssuesResolved, try_catch.
  pose proof (for_acc_pure (batchStatus issuesAnswer hotspotAnswer)
                (checkBatch fetch) checkBatch_fixed
                (batches maxBatchSize sonarKeys) (mark_all true sonarKeys) st) as H.
  unfold checkMultipleIssuesResolved_try.
  destruct (for_acc (batches maxBatchSize sonarKeys) (checkBatch fetch)
              (mark_all true sonarKeys) st) as [res st1].
  cbn in H. subst res. reflexivity.
Qed.

Lemma flipHotspot_fold_lookup l (m : gmap string bool) k :
  k <> "__proto__" ->
  foldl (flipHotspot hotspotAnswer) m l !! k
  = if decide (k ∈ l ∧ reportsActiveHotspot (hotspotAnswer k) = true)
    then Some false else m !! k.
Proof.
  intros Hp. revert m. induction l as [|x l IH]; intros m; cbn [foldl].
  - destruct (decide _) as [[H _]|_]; [inversion H | reflexivity].
  - rewrite IH. unfold flipHotspot.
    destruct (decide (k ∈ l ∧ _)) as [[Hl Ha]|Hn].
    + rewrite decide_True; [reflexivity|]. split; [right; exact Hl | exact Ha].
    + destruct (decide (k = x)) as [->|Hne].
      * destruct (reportsActiveHotspot (hotspotAnswer x)) eqn:E.
        -- rewrite lookup_assign, decide_True by auto.
           rewrite decide_True; [reflexivity|]. split; [left | reflexivity].
        -- rewrite decide_False; [reflexivity|]. intros [_ ?]. discriminate.
      * assert (Hm : (if reportsActiveHotspot (hotspotAnswer x)
                      then assign x false m else m) !! k = m !! k).
        { destruct (reportsActiveHotspot (hotspotAnswer x)); [|reflexivity].
          rewrite lookup_assign. apply decide_False. tauto. }
        rewrite Hm. rewrite decide_False; [reflexivity|].
        intros [Hin Ha]. apply Hn. split; [|exact Ha].
        apply elem_of_cons in Hin as [?|?]; [contradiction | assumption].
Qed.

(** Effect of one batch on the entry of [k]. *)
Lemma batchStatus_lookup (m : gmap string bool) b k :
  k <> "__proto__" ->
  (k ∈ b -> is_Some (m !! k)) ->
  (batchStatus issuesAnswer hotspotAnswer m b !! k = Some false <->
     m !! k = Some false
     ∨ k ∈ reportedIssueKeys (issuesAnswer b)
     ∨ (k ∈ b ∧ reportsActiveHotspot (hotspotAnswer k) = true))
  ∧ (is_Some (m !! k) -> is_Some (batchStatus issuesAnswer hotspotAnswer m b !! k)).
Proof.
  intros Hp Hsome. unfold batchStatus. cbv zeta.
  rewrite flipHotspot_fold_lookup by exact Hp.
  set (m1 := mark false (reportedIssueKeys (issuesAnswer b)) m).
  assert (Hm1 : m1 !! k = if decide (k ∈ reportedIssueKeys (issuesAnswer b))
                          then Some false else m !! k).
  { unfold m1. rewrite mark_lookup.
    destruct (decide (k ∈ reportedIssueKeys (issuesAnswer b))) as [Hr|Hr].
    - rewrite decide_True; [reflexivity | auto].
    - rewrite decide_False; [reflexivity | tauto]. }
  destruct (decide (k ∈ filter (fun k => m1 !! k = Some true) b ∧ _))
    as [[Hf Ha]|Hn].
  - apply list_elem_of_filter in Hf as [Ht Hb].
    split; [|intros _; eexists; reflexivity].
    split; [intros _; right; right; split; assumption | reflexivity].
  - rewrite Hm1.
    destruct (decide (k ∈ reportedIssueKeys (issuesAnswer b))) as [Hr|Hr].
    + split; [|intros _; eexists; reflexivity].
      split; [intros _; right; left; exact Hr | reflexivity].
    + split; [|tauto].
      split; [tauto|]. intros [H|[H|[Hb Ha]]]; [exact H | contradiction |].
      destruct (Hsome Hb) as [[|] Hv]; [|exact Hv].
      exfalso. apply Hn. split; [|exact Ha].
      apply list_elem_of_filter. split; [|exact Hb].
      rewrite Hm1. exact Hv.
Qed.

(** Invariant of the batch loop: [done] are the batches already
    processed. *)
Lemma batch_loop_invariant (sonarKeys : list string) todo :
  forall (done : list (list string)) (m : gmap string bool),
    (forall b k, b ∈ todo -> k ∈ b -> k ∈ sonarKeys) ->
    (forall k, k ∈ sonarKeys -> k <> "__proto__" -> is_Some (m !! k)) ->
    (forall k, k <> "__proto__" ->
       (m !! k = Some false <->
        (∃ b, b ∈ done ∧ k ∈ reportedIssueKeys (issuesAnswer b))
        ∨ ((∃ b, b ∈ done ∧ k ∈ b) ∧ reportsActiveHotspot (hotspotAnswer k) = true))) ->
    let m' := foldl (batchStatus issuesAnswer hotspotAnswer) m todo in
    (forall k, k ∈ sonarKeys -> k <> "__proto__" -> is_Some (m' !! k)) ∧
    (forall k, k <> "__proto__" ->
       (m' !! k = Some false <->
        (∃ b, b ∈ (done ++ todo)%list ∧ k ∈ reportedIssueKeys (issuesAnswer b))
        ∨ ((∃ b, b ∈ (done ++ todo)%list ∧ k ∈ b)
           ∧ reportsActiveHotspot (hotspotAnswer k) = true))).
Proof.
  induction todo as [|b todo IH]; intros done m Hsub Hsome Hfalse; cbn [foldl].
  - cbv zeta. rewrite app_nil_r. split; assumption.
  - cbv zeta.
    replace (done ++ b :: todo)%list with ((done ++ [b]) ++ todo)%list
      by (rewrite <- app_assoc; reflexivity).
    apply IH.
    + intros b' k Hb' Hk. apply (Hsub b' k); [right; exact Hb' | exact Hk].
    + intros k Hk Hp.
      apply (batchStatus_lookup m b k Hp); [intros _|]; apply Hsome; assumption.
    + intros k Hp.
      assert (Hkb : k ∈ b -> is_Some (m !! k)).
      { intros Hk. apply Hsome; [|exact Hp]. apply (Hsub b k); [left | exact Hk]. }
      destruct (batchStatus_lookup m b k Hp Hkb) as [Hiff _].
      rewrite Hiff, (Hfalse k Hp). clear Hiff.
      split.
      * intros [[(b' & Hb' & Hr)|[(b' & Hb' & Hk) Ha]]|[Hr|[Hk Ha]]].
        -- left. exists b'. split; [apply elem_of_app; left; exact Hb' | exact Hr].
        -- right. split; [|exact Ha].
           exists b'. split; [apply elem_of_app; left; exact Hb' | exact Hk].
        -- left. exists b. split; [apply elem_of_app; right; left | exact Hr].
        -- right. split; [|exact Ha].
           exists b. split; [apply elem_of_app; right; left | exact Hk].
      * intros [(b' & Hb' & Hr)|[(b' & Hb' & Hk) Ha]].
        -- apply elem_of_app in Hb' as [Hb'|Hb'].
           ++ left. left. exists b'. split; assumption.
           ++ apply list_elem_of_singleton in Hb'. subst b'. right. left. exact Hr.
        -- apply elem_of_app in Hb' as [Hb'|Hb'].
           ++ left. right. split; [|exact Ha]. exists b'. split; assumption.
           ++ apply list_elem_of_singleton in Hb'. subst b'.
              right. right. split; assumption.
Qed.


Lemma reconciliation_characterised (sonarKeys : list string) (st : State W) :
  exists m st',
    checkMultipleIssuesResolved fetch sonarKeys st = (Ok m, st') ∧
    (forall k, k ∈ sonarKeys -> k <> "__proto__" ->
       (m !! k = Some false <->
          confirmed_present issuesAnswer hotspotAnswer sonarKeys k) ∧
       (m !! k = Some true <->
          ¬ confirmed_present issuesAnswer hotspotAnswer sonarKeys k)) ∧
    m !! "__proto__" = None.
Proof.
  pose proof (checkMultipleIssuesResolved_fixed sonarKeys st) as Hrun.
  destruct (resolution_map_entries sonarKeys st) as (m0 & st' & E & _ & _ & Hproto).
  rewrite E in Hrun. cbn [fst] in Hrun. injection Hrun as Hm0.
  exists m0, st'. split; [exact E|]. split; [|exact Hproto].
  rewrite Hm0. clear E Hproto Hm0 m0.
  destruct (batch_loop_invariant sonarKeys (batches maxBatchSize sonarKeys) []
              (mark_all true sonarKeys)) as [Hsome Hfalse].
  { intros b k Hb Hk. apply (batches_elem maxBatchSize sonarKeys b k);
      [unfold maxBatchSize; lia | exact Hb | exact Hk]. }
  { intros k Hk Hp. rewrite mark_all_lookup, decide_True by auto.
    eexists; reflexivity. }
  { intros k Hp. rewrite mark_all_lookup. split.
    - destruct (decide (k ∈ sonarKeys ∧ k ≠ "__proto__")); discriminate.
    - intros [(b & Hb & _)|[(b & Hb & _) _]]; inversion Hb. }
  cbv zeta in Hsome, Hfalse. rewrite app_nil_l in Hfalse.
  intros k Hk Hp.
  assert (Hpresent :
    (∃ b, b ∈ batches maxBatchSize sonarKeys ∧ k ∈ reportedIssueKeys (issuesAnswer b))
    ∨ ((∃ b, b ∈ batches maxBatchSize sonarKeys ∧ k ∈ b)
       ∧ reportsActiveHotspot (hotspotAnswer k) = true)
    <-> confirmed_present issuesAnswer hotspotAnswer sonarKeys k).
  { unfold confirmed_present. split.
    - intros [H|[_ H]]; [left; exact H | right; exact H].
    - intros [H|H]; [left; exact H | right; split; [|exact H]].
      apply batches_cover; [unfold maxBatchSize; lia | exact Hk]. }
  rewrite <- Hpresent, <- (Hfalse k Hp).
  split; [reflexivity|].
  destruct (Hsome k Hk Hp) as [[|] Hv]; rewrite Hv; split; congruence.
Qed.

(** X28. Reconciliation for every identifier that an object literal can
    hold.  Against a scanner whose answers do not change during the run,
    the engine returns a map in which a requested identifier other than
    [__proto__] is active ([false]) exactly when the scanner confirmed it
    present (some batch's unresolved-issues search listed it, or its
    hotspot-show query reported it found and not resolved) and resolved
    ([true]) otherwise.  The name [__proto__] never gets an entry. *)
Theorem checkMultipleIssuesResolved_reconciles (sonarKeys : list string) (st : State W) :
  exists m st',
    checkMultipleIssuesResolved fetch sonarKeys st = (Ok m, st') ∧
    (forall k, k ∈ sonarKeys -> k <> "__proto__" ->
       (m !! k = Some false <->
          confirmed_present issuesAnswer hotspotAnswer sonarKeys k) ∧
       (m !! k = Some true <->
          ¬ confirmed_present issuesAnswer hotspotAnswer sonarKeys k)) ∧
    m !! "__proto__" = None.
Proof. exact (reconciliation_characterised sonarKeys st). Qed.

(** The two scenarios of the specification for a pair of identifiers. *)
Remark two_identifier_scenarios (k1 k2 : string) (st : State W) :
  k1 <> k2 -> k1 <> "__proto__" -> k2 <> "__proto__" ->
  reportsActiveHotspot (hotspotAnswer k2) = false ->
  exists m st',
    checkMultipleIssuesResolved fetch [k1; k2] st = (Ok m, st') ∧
    (reportedIssueKeys (issuesAnswer [k1; k2]) = [k1] ->
       m !! k1 = Some false ∧ m !! k2 = Some true) ∧
    (reportedIssueKeys (issuesAnswer [k1; k2]) = [] ->
     reportsActiveHotspot (hotspotAnswer k1) = false ->
       m !! k1 = Some true ∧ m !! k2 = Some true).
Proof.
  intros Hne Hp1 Hp2 Hk2.
  destruct (reconciliation_characterised [k1; k2] st) as (m & st' & Hrun & Hm & _).
  exists m, st'. split; [exact Hrun|].
  assert (Hb : forall b, b ∈ batches maxBatchSize [k1; k2] -> b = [k1; k2]).
  { intros b Hin. apply list_elem_of_singleton. exact Hin. }
  assert (H1 : k1 ∈ [k1; k2]) by left.
  assert (H2 : k2 ∈ [k1; k2]) by (right; left).
  split.
  - intros Hrep. split.
    + apply (Hm k1 H1 Hp1). left. exists [k1; k2].
      split; [left | rewrite Hrep; left].
    + apply (Hm k2 H2 Hp2). intros [(b & Hin & Hk)|Ha].
      * rewrite (Hb b Hin), Hrep in Hk.
        apply list_elem_of_singleton in Hk. congruence.
      * congruence.
  - intros Hrep Hk1. split.
    + apply (Hm k1 H1 Hp1). intros [(b & Hin & Hk)|Ha].
      * rewrite (Hb b Hin), Hrep in Hk. inversion Hk.
      * congruence.
    + apply (Hm k2 H2 Hp2). intros [(b & Hin & Hk)|Ha].
      * rewrite (Hb b Hin), Hrep in Hk. inversion Hk.
      * congruence.
Qed.

(** A scanner that cannot be reached confirms nothing: the failures are
    contained by the inner handlers and every identifier stays resolved. *)
Remark failed_queries_leave_resolved (sonarKeys : list string) (st : State W) :
  (forall b, reportedIssueKeys (issuesAnswer b) = []) ->
  (forall k, reportsActiveHotspot (hotspotAnswer k) = false) ->
  exists m st',
    checkMultipleIssuesResolved fetch sonarKeys st = (Ok m, st') ∧
    forall k, k ∈ sonarKeys -> k <> "__proto__" -> m !! k = Some true.
Proof.
  intros Hnone Hinactive.
  destruct (reconciliation_characterised sonarKeys st) as (m & st' & Hrun & Hm & _).
  exists m, st'. split; [exact Hrun|].
  intros k Hk Hp. apply (Hm k Hk Hp). unfold confirmed_present.
  intros [(b & _ & Hb)|Ha].
  - rewrite Hnone in Hb. inversion Hb.
  - rewrite Hinactive in Ha. discriminate.
Qed.

End FixedScanner.

(** X29. The map returned by the engine has a boolean entry for every
    requested identifier other than [__proto__], holds [true] only for
    requested identifiers, and has no entry for [__proto__].  Hence a
    ticket whose extracted identifier was submitted to the engine reaches
    the unknown-status branch of the closure orchestration exactly when
    that identifier is [__proto__]. *)
Theorem resolution_map_covers_requested (sonarKeys : list string) (st : State W) :
  exists m st',
    checkMultipleIssuesResolved fetch sonarKeys st = (Ok m, st') ∧
    (forall k, k ∈ sonarKeys -> k <> "__proto__" -> exists b : bool, m !! k = Some b) ∧
    (forall k, m !! k = Some true -> k ∈ sonarKeys) ∧
    m !! "__proto__" = None ∧
    (forall allTickets ticket k,
       sonarKeys = omap extractSonarKey allTickets ->
       ticket ∈ allTickets -> extractSonarKey ticket = Some k ->
       (resolutionBranch m k = UnknownStatus <-> k = "__proto__")).
Proof.
  destruct (resolution_map_entries sonarKeys st)
    as (m & st' & Hrun & Hsome & Htrue & Hproto).
  exists m, st'. repeat (split; [assumption|]).
  intros allTickets ticket k -> Hin Hk. unfold resolutionBranch. split.
  - intros Hunknown. destruct (decide (k = "__proto__")) as [Hp|Hp]; [exact Hp|].
    destruct (Hsome k) as [b Hb]; [|exact Hp|].
    + apply list_elem_of_omap. exists ticket. split; assumption.
    + rewrite Hb in Hunknown. destruct b; discriminate.
  - intros ->. rewrite Hproto. reflexivity.
Qed.

(** X30. One batch of the engine never removes an entry of the map it
    is given and never turns an active entry back to resolved: every
    entry stays, [false] stays [false], and an entry that is [true]
    afterwards was [true] before.  The batch never throws. *)
Theorem checkBatch_only_flips (batch : list string) (m : gmap string bool)
    (st : State W) :
  exists m' st',
    checkBatch fetch batch m st = (Ok m', st') ∧
    (forall k b, m !! k = Some b ->
       exists b', m' !! k = Some b' ∧ (b = false -> b' = false)) ∧
    (forall k, m' !! k = Some true -> m !! k = Some true).
Proof.
  destruct (checkBatch_total batch m st) as (m' & st' & Hrun & Hkeep & Htrue & _).
  exists m', st'. auto.
Qed.


(** ** Selecting the closing transition *)

Lemma find_first {A} (f : A -> bool) (l : list A) (x : A) :
  List.find f l = Some x <->
  exists pre post, l = (pre ++ x :: post)%list ∧ f x = true ∧
                   forall y, y ∈ pre -> f y = false.
Proof.
  induction l as [|a l IH]; cbn [List.find].
  - split; [discriminate|]. intros (pre & post & H & _). destruct pre; discriminate.
  - destruct (f a) eqn:E.
    + split.
      * intros [= <-]. exists [], l. split; [reflexivity|]. split; [exact E|].
        intros y Hy. inversion Hy.
      * intros (pre & post & Hl & Hx & Hpre). destruct pre as [|p pre].
        -- cbn in Hl. injection Hl as -> _. reflexivity.
        -- cbn in Hl. injection Hl as -> _.
           rewrite (Hpre p) in E by left. discriminate.
    + rewrite IH. split.
      * intros (pre & post & -> & Hx & Hpre). exists (a :: pre), post.
        split; [reflexivity|]. split; [exact Hx|].
        intros y Hy. apply elem_of_cons in Hy as [->|Hy]; [exact E | auto].
      * intros (pre & post & Hl & Hx & Hpre). destruct pre as [|p pre].
        -- cbn in Hl. injection Hl as -> _. congruence.
        -- cbn in Hl. injection Hl as -> ->. exists pre, post.
           split; [reflexivity|]. split; [exact Hx|].
           intros y Hy. apply Hpre. right. exact Hy.
Qed.

Lemma find_nothing {A} (f : A -> bool) (l : list A) :
  List.find f l = None <-> forall y, y ∈ l -> f y = false.
Proof.
  induction l as [|a l IH]; cbn [List.find].
  - split; [intros _ y Hy; inversion Hy | reflexivity].
  - destruct (f a) eqn:E.
    + split; [discriminate|]. intros H. rewrite (H a) in E by left. discriminate.
    + rewrite IH. split.
      * intros H y Hy. apply elem_of_cons in Hy as [->|Hy]; [exact E | auto].
      * intros H y Hy. apply H. right. exact Hy.
Qed.

Lemma name_eqb_true (t : Transition) (q : string) :
  String.eqb (tr_name t) q = true <-> tr_name t = q.
Proof. apply String.eqb_eq. Qed.

Lemma name_eqb_false (t : Transition) (q : string) :
  String.eqb (tr_name t) q = false <-> tr_name t <> q.
Proof. apply String.eqb_neq. Qed.

Lemma selectTransition_spec names available t :
  selectTransition names available = Some t <->
  first_preferred_match names available t.
Proof.
  unfold first_preferred_match.
  induction names as [|q names IH]; cbn [selectTransition].
  - split; [discriminate|].
    intros (before & after & _ & _ & H & _). destruct before; discriminate.
  - destruct (List.find (fun t0 => String.eqb (tr_name t0) q) available)
      as [t0|] eqn:Efind.
    + apply find_first in Efind as (pre & post & Hav & Hname & Hpre).
      apply name_eqb_true in Hname.
      split.
      * intros [= <-]. exists [], names, pre, post. rewrite Hname.
        split; [reflexivity|]. split; [intros ? ? Hin; inversion Hin|].
        split; [exact Hav|].
        intros t' Ht'. apply name_eqb_false. apply Hpre. exact Ht'.
      * intros (before & after & pre' & post' & Hn & Hbefore & Hav' & Hpre').
        destruct before as [|q' before].
        -- cbn in Hn. injection Hn as -> _.
           assert (Hfind : List.find (fun t1 => String.eqb (tr_name t1) (tr_name t))
                             available = Some t).
           { apply find_first. exists pre', post'. split; [exact Hav'|].
             split; [apply String.eqb_refl|].
             intros y Hy. apply name_eqb_false. apply Hpre'. exact Hy. }
           assert (Hfind0 : List.find (fun t1 => String.eqb (tr_name t1) (tr_name t))
                              available = Some t0).
           { apply find_first. exists pre, post. split; [exact Hav|].
             split; [apply name_eqb_true; exact Hname|].
             intros y Hy. apply Hpre. exact Hy. }
           congruence.
        -- cbn in Hn. injection Hn as -> _. exfalso.
           apply (Hbefore q' t0); [left | | exact Hname].
           rewrite Hav. apply elem_of_app. right. left.
    + pose proof (proj1 (find_nothing _ _) Efind) as Hnone.
      rewrite IH. split.
      * intros (before & after & pre & post & Hn & Hbefore & Hav & Hpre).
        exists (q :: before), after, pre, post. rewrite Hn.
        split; [reflexivity|]. split; [|split; assumption].
        intros q0 t' Hq0 Ht'. apply elem_of_cons in Hq0 as [->|Hq0].
        -- apply name_eqb_false. apply Hnone. exact Ht'.
        -- apply Hbefore; assumption.
      * intros (before & after & pre & post & Hn & Hbefore & Hav & Hpre).
        destruct before as [|q' before].
        -- cbn in Hn. injection Hn as -> _. exfalso.
           assert (Hin : t ∈ available)
             by (rewrite Hav; apply elem_of_app; right; left).
           specialize (Hnone t Hin). apply name_eqb_false in Hnone.
           apply Hnone. reflexivity.
        -- cbn in Hn. injection Hn as -> ->.
           exists before, after, pre, post.
           split; [reflexivity|]. split; [|split; assumption].
           intros q0 t' Hq0 Ht'. apply Hbefore; [right|]; assumption.
Qed.

Lemma selectTransition_none names available :
  (forall t, t ∈ available -> tr_name t ∉ names) ->
  selectTransition names available = None.
Proof.
  intros Hno. induction names as [|q names IH]; [reflexivity|].
  cbn [selectTransition].
  replace (List.find (fun t => String.eqb (tr_name t) q) available) with (@None Transition).
  - apply IH. intros t Ht Hin. apply (Hno t Ht). right. exact Hin.
  - symmetry. apply find_nothing. intros t Ht. apply name_eqb_false.
    intros Heq. apply (Hno t Ht). rewrite Heq. left.
Qed.


(** ** Closing a ticket *)

#[local] Arguments selectTransition : simpl never.

(** After the combined request the function is done: a returned response
    is a success, so the branch guarded by [!closeResponse.ok] is never
    entered. *)
Lemma applyTransition_outcome jiraTicketKey sonarKey t (st : State W) :
  applyTransition fetch jiraTicketKey sonarKey t st
  = match fetchWithRetry fetch (JiraPostTransition jiraTicketKey (commentBody t)) st with
    | (Ok _, st2) => (Ok true, st2)
    | (Throw e, st2) => (Throw e, st2)
    end.
Proof.
  unfold applyTransition, bind.
  destruct (fetchWithRetry fetch (JiraPostTransition jiraTicketKey (commentBody t)) st)
    as [[resp|e] st2] eqn:E; [|reflexivity].
  apply fetchWithRetry_ok in E. cbn [BodyOf] in *. rewrite E.
  cbv beta iota zeta delta [negb ret]. rewrite E. reflexivity.
Qed.

Lemma closeJiraTicket_with_transitions jiraTicketKey sonarKey (st st1 : State W)
    (resp : Response (BodyOf (JiraGetTransitions jiraTicketKey))) available :
  fetchWithRetry fetch (JiraGetTransitions jiraTicketKey) st = (Ok resp, st1) ->
  json resp = Some {| transitions := Some available |} ->
  closeJiraTicket fetch jiraTicketKey sonarKey st
  = match selectTransition preferredTransitions available with
    | None => (Ok false, st1)
    | Some t =>
        if truthy (tr_id t) then
          match fetchWithRetry fetch
                  (JiraPostTransition jiraTicketKey (commentBody t)) st1 with
          | (Ok _, st2) => (Ok true, st2)
          | (Throw e, st2) => (Ok false, st2)
          end
        else (Ok false, st1)
    end.
Proof.
  intros Hfetch Hjson.
  unfold closeJiraTicket, try_catch, closeJiraTicket_try, bind.
  rewrite Hfetch. rewrite (fetchWithRetry_ok _ _ _ _ Hfetch). cbn [negb].
  unfold response_json. rewrite Hjson. cbn.
  destruct (selectTransition preferredTransitions available) as [t|]; [|reflexivity].
  destruct (truthy (tr_id t)); cbn; [|reflexivity].
  rewrite applyTransition_outcome.
  destruct (fetchWithRetry fetch (JiraPostTransition jiraTicketKey (commentBody t)) st1)
    as [[r|e] st2]; reflexivity.
Qed.

(** C5. With the transitions the tracker returned, the transition chosen
    is the first available one that carries the first name of
    "wont do", "Done", "Closed", "Resolved", "Verified" carried by any
    available transition, and the first request sent afterwards applies it.
    When no available transition carries a listed name the function
    returns [false] in the state reached by the transition fetch, so no
    request that applies a transition is sent. *)
Theorem closeJiraTicket_selects_preferred
    (jiraTicketKey sonarKey : string) (st st1 : State W)
    (resp : Response (BodyOf (JiraGetTransitions jiraTicketKey)))
    (available : list Transition) :
  fetchWithRetry fetch (JiraGetTransitions jiraTicketKey) st = (Ok resp, st1) ->
  json resp = Some {| transitions := Some available |} ->
  (forall t, selectTransition preferredTransitions available = Some t <->
             first_preferred_match preferredTransitions available t) ∧
  ((forall t, t ∈ available -> tr_name t ∉ preferredTransitions) ->
     closeJiraTicket fetch jiraTicketKey sonarKey st = (Ok false, st1) ∧
     exists sent, calls st1 = (calls st ++ sent)%list ∧
                  Forall (fun r => is_transition_apply r = false) sent) ∧
  (forall t, first_preferred_match preferredTransitions available t ->
     truthy (tr_id t) = true ->
     exists n,
       calls (closeJiraTicket fetch jiraTicketKey sonarKey st).2
       = (calls st1
          ++ replicate (S n) (JiraPostTransition jiraTicketKey (commentBody t)))%list).
Proof.
  intros Hfetch Hjson.
  pose proof (closeJiraTicket_with_transitions _ sonarKey _ _ _ _ Hfetch Hjson) as Hrun.
  split; [intros t; apply selectTransition_spec|]. split.
  - intros Hno. rewrite (selectTransition_none _ _ Hno) in Hrun.
    split; [exact Hrun|].
    destruct (fetchWithRetry_sends (JiraGetTransitions jiraTicketKey) st) as [k Hk].
    rewrite Hfetch in Hk. destruct Hk as [Hk _].
    exists (replicate (S k) (JiraGetTransitions jiraTicketKey)). split; [exact Hk|].
    apply Forall_forall. intros r Hr.
    apply elem_of_replicate in Hr as [-> _]. reflexivity.
  - intros t Ht Hid. apply selectTransition_spec in Ht.
    rewrite Ht, Hid in Hrun. rewrite Hrun.
    destruct (fetchWithRetry_sends
                (JiraPostTransition jiraTicketKey (commentBody t)) st1) as [k Hk].
    exists k.
    destruct (fetchWithRetry fetch (JiraPostTransition jiraTicketKey (commentBody t)) st1)
      as [[r|e] st2]; apply Hk.
Qed.

(** The transition-only retry and the separate comment are never sent:
    every request of a run is the transition fetch or the combined
    transition-with-comment request. *)
Lemma closeJiraTicket_requests jiraTicketKey sonarKey (st : State W) :
  exists sent,
    calls (closeJiraTicket fetch jiraTicketKey sonarKey st).2 = (calls st ++ sent)%list ∧
    forall r, r ∈ sent -> is_transition_only r = false ∧ is_comment r = false.
Proof.
  unfold closeJiraTicket, try_catch, closeJiraTicket_try, bind.
  destruct (fetchWithRetry_sends (JiraGetTransitions jiraTicketKey) st) as [k Hk].
  assert (Hget : forall r, r ∈ replicate (S k) (JiraGetTransitions jiraTicketKey) ->
                           is_transition_only r = false ∧ is_comment r = false).
  { intros r Hr. apply elem_of_replicate in Hr as [-> _]. split; reflexivity. }
  destruct (fetchWithRetry fetch (JiraGetTransitions jiraTicketKey) st)
    as [[resp|e] st1]; cbn [snd] in Hk; destruct Hk as [Hk _].
  2:{ cbn. eauto. }
  destruct (ok resp); cbn [negb]; [|cbn; eauto].
  unfold response_json. destruct (json resp) as [data|]; [|cbn; eauto].
  cbn. destruct (transitions data) as [available|]; [|cbn; eauto].
  destruct (selectTransition preferredTransitions available) as [t|]; [|cbn; eauto].
  destruct (truthy (tr_id t)); cbn [negb]; [|cbn; eauto].
  rewrite applyTransition_outcome.
  destruct (fetchWithRetry_sends
              (JiraPostTransition jiraTicketKey (commentBody t)) st1) as [k2 Hk2].
  exists (replicate (S k) (JiraGetTransitions jiraTicketKey)
          ++ replicate (S k2) (JiraPostTransition jiraTicketKey (commentBody t)))%list.
  split.
  - destruct (fetchWithRetry fetch (JiraPostTransition jiraTicketKey (commentBody t)) st1)
      as [[r|e] st2]; cbn [snd] in Hk2; destruct Hk2 as [Hk2 _];
      cbv beta iota zeta delta [ret snd];
      rewrite Hk2, Hk, app_assoc; reflexivity.
  - intros r Hr. apply elem_of_app in Hr as [Hr|Hr]; [apply Hget; exact Hr|].
    apply elem_of_replicate in Hr as [-> _]. split; reflexivity.
Qed.

(** When the combined request fails, the closure reports [false] and the
    run ends with that request. *)
Lemma combined_failure_returns_false jiraTicketKey sonarKey (st st1 st2 : State W)
    (resp : Response (BodyOf (JiraGetTransitions jiraTicketKey))) available t e :
  fetchWithRetry fetch (JiraGetTransitions jiraTicketKey) st = (Ok resp, st1) ->
  json resp = Some {| transitions := Some available |} ->
  selectTransition preferredTransitions available = Some t ->
  truthy (tr_id t) = true ->
  fetchWithRetry fetch (JiraPostTransition jiraTicketKey (commentBody t)) st1
    = (Throw e, st2) ->
  closeJiraTicket fetch jiraTicketKey sonarKey st = (Ok false, st2).
Proof.
  intros Hfetch Hjson Hsel Hid Hpost.
  rewrite (closeJiraTicket_with_transitions _ sonarKey _ _ _ _ Hfetch Hjson).
  rewrite Hsel, Hid, Hpost. reflexivity.
Qed.


(** ** Ticket priority *)

Lemma priorityName_cases (item : Finding) :
  (priorityName issue item = "Highest" <->
     severity item = Some "BLOCKER" ∨ severity item = Some "CRITICAL") ∧
  (priorityName issue item = "High" <->
     ¬ (severity item = Some "BLOCKER" ∨ severity item = Some "CRITICAL")) ∧
  (priorityName hotspot item = "Highest" <->
     vulnerabilityProbability item = Some "HIGH"
     ∨ vulnerabilityProbability item = Some "MEDIUM") ∧
  (priorityName hotspot item = "High" <->
     ¬ (vulnerabilityProbability item = Some "HIGH"
        ∨ vulnerabilityProbability item = Some "MEDIUM")) ∧
  (vulnerabilityProbability item = Some "LOW" -> priorityName hotspot item = "High").
Proof.
  unfold priorityName.
  destruct (bool_decide_reflect (severity item = Some "BLOCKER")) as [Hb|Hb],
           (bool_decide_reflect (severity item = Some "CRITICAL")) as [Hc|Hc],
           (bool_decide_reflect (vulnerabilityProbability item = Some "HIGH")) as [Hh|Hh],
           (bool_decide_reflect (vulnerabilityProbability item = Some "MEDIUM")) as [Hm|Hm];
    cbn [orb]; repeat split; intros;
    try reflexivity; try discriminate; try tauto; congruence.
Qed.

(** C4. An issue gets priority Highest exactly when its severity is BLOCKER
    or CRITICAL and High otherwise; a hotspot gets Highest exactly when its
    vulnerability probability is HIGH or MEDIUM and High otherwise, in
    particular for LOW.  The payload of the created ticket carries that
    priority. *)
Theorem priority_follows_severity (item : Finding) :
  ((priorityName issue item = "Highest" <->
      severity item = Some "BLOCKER" ∨ severity item = Some "CRITICAL") ∧
   (priorityName issue item = "High" <->
      ¬ (severity item = Some "BLOCKER" ∨ severity item = Some "CRITICAL")) ∧
   (priorityName hotspot item = "Highest" <->
      vulnerabilityProbability item = Some "HIGH"
      ∨ vulnerabilityProbability item = Some "MEDIUM") ∧
   (priorityName hotspot item = "High" <->
      ¬ (vulnerabilityProbability item = Some "HIGH"
         ∨ vulnerabilityProbability item = Some "MEDIUM")) ∧
   (vulnerabilityProbability item = Some "LOW" -> priorityName hotspot item = "High")) ∧
  (forall projects sonarBaseUrl itemType cache,
     jp_priority (buildPayload projects sonarBaseUrl item itemType cache)
     = priorityName itemType item).
Proof.
  split; [apply priorityName_cases | reflexivity].
Qed.


(** ** The user account cache *)

Section UserLookup.

Variable projects : list ProjectConfig.

Lemma lookupJiraUser_returns email (st : State W) :
  (lookupJiraUser fetch email st).1 = Ok tt.
Proof.
  unfold lookupJiraUser, bind, get_state, try_catch.
  destruct (cached email st); [reflexivity|].
  destruct (fetchWithRetry fetch (JiraUserSearch email) st) as [[resp|e] st1];
    [|reflexivity].
  destruct (ok resp); [|reflexivity].
  unfold response_json. destruct (json resp) as [[[|user users]|]|]; reflexivity.
Qed.

Lemma lookupJiraUser_other email other (st : State W) :
  other <> email ->
  userAccountCache (lookupJiraUser fetch email st).2 !! other
  = userAccountCache st !! other.
Proof.
  intros Hne. unfold lookupJiraUser, bind, get_state, try_catch.
  destruct (cached email st); [reflexivity|].
  destruct (fetchWithRetry_sends (JiraUserSearch email) st) as (k & _ & Hcache & _).
  destruct (fetchWithRetry fetch (JiraUserSearch email) st) as [[resp|e] st1];
    cbn [snd] in Hcache; [|cbn; rewrite Hcache; reflexivity].
  destruct (ok resp); [|cbn; rewrite Hcache; reflexivity].
  unfold response_json.
  destruct (json resp) as [[[|user users]|]|]; cbn; rewrite Hcache;
    try reflexivity.
  apply lookup_insert_ne. congruence.
Qed.

Lemma lookupJiraUser_fixed email o (st : State W) :
  (forall w, (fetch (JiraUserSearch email) w).1 = o) ->
  userAccountCache (lookupJiraUser fetch email st).2 !! email
  = if cached email st then userAccountCache st !! email
    else match searchMatches o with
         | user :: _ => Some (accountId user)
         | [] => userAccountCache st !! email
         end.
Proof.
  intros Hfixed. unfold lookupJiraUser, bind, get_state, try_catch.
  destruct (cached email st); [reflexivity|].
  pose proof (fetchWithRetry_stationary (JiraUserSearch email) o Hfixed st) as Hs.
  destruct (fetchWithRetry_sends (JiraUserSearch email) st) as (k & _ & Hcache & _).
  destruct (fetchWithRetry fetch (JiraUserSearch email) st) as [res st1].
  cbn [fst] in Hs. cbn [snd] in Hcache. subst res. unfold searchMatches.
  cbn [BodyOf] in *.
  destruct o as [e|resp]; cbn; [rewrite Hcache; reflexivity|].
  destruct (ok resp) eqn:E; cbn; [|rewrite Hcache; reflexivity].
  rewrite ?E. unfold response_json.
  destruct (json resp) as [[[|user users]|]|]; cbn; rewrite ?Hcache;
    try reflexivity.
  apply lookup_insert_eq.
Qed.

Lemma lookup_loop_returns emails (st : State W) :
  (for_of emails (lookupJiraUser fetch) st).1 = Ok tt.
Proof.
  revert st. induction emails as [|e emails IH]; intros st; [reflexivity|].
  cbn [for_of]. unfold bind.
  pose proof (lookupJiraUser_returns e st) as H.
  destruct (lookupJiraUser fetch e st) as [res st1]. cbn in H. subst res.
  apply IH.
Qed.

Lemma cached_iff_lookup email (st st1 : State W) :
  userAccountCache st1 !! email = userAccountCache st !! email ->
  cached email st1 = cached email st.
Proof. unfold cached. intros ->. reflexivity. Qed.

Lemma lookup_loop_no_match email o emails :
  (forall w, (fetch (JiraUserSearch email) w).1 = o) ->
  searchMatches o = [] ->
  forall st : State W,
    userAccountCache (for_of emails (lookupJiraUser fetch) st).2 !! email
    = userAccountCache st !! email.
Proof.
  intros Hfixed Hnone. induction emails as [|e emails IH]; intros st; [reflexivity|].
  cbn [for_of]. unfold bind.
  assert (Hstep : userAccountCache (lookupJiraUser fetch e st).2 !! email
                  = userAccountCache st !! email).
  { destruct (decide (email = e)) as [<-|Hne].
    - rewrite (lookupJiraUser_fixed email o st Hfixed), Hnone.
      destruct (cached email st); reflexivity.
    - apply lookupJiraUser_other. exact Hne. }
  pose proof (lookupJiraUser_returns e st) as Hret.
  destruct (lookupJiraUser fetch e st) as [res st1]. cbn in Hret, Hstep. subst res.
  rewrite IH. exact Hstep.
Qed.

Lemma lookup_loop_first_match email o user users emails :
  (forall w, (fetch (JiraUserSearch email) w).1 = o) ->
  searchMatches o = user :: users ->
  forall st : State W,
    (email ∈ emails ∧ cached email st = false)
    ∨ userAccountCache st !! email = Some (accountId user) ->
    userAccountCache (for_of emails (lookupJiraUser fetch) st).2 !! email
    = Some (accountId user).
Proof.
  intros Hfixed Hmatch. induction emails as [|e emails IH]; intros st Hst.
  - destruct Hst as [[Hin _]|Hst]; [inversion Hin | exact Hst].
  - cbn [for_of]. unfold bind.
    assert (Hstep :
      (email ∈ emails ∧ cached email (lookupJiraUser fetch e st).2 = false)
      ∨ userAccountCache (lookupJiraUser fetch e st).2 !! email
        = Some (accountId user)).
    { destruct (decide (email = e)) as [<-|Hne].
      - right. rewrite (lookupJiraUser_fixed email o st Hfixed), Hmatch.
        destruct Hst as [[_ Hc]|Hst].
        + rewrite Hc. reflexivity.
        + destruct (cached email st); [exact Hst | reflexivity].
      - pose proof (lookupJiraUser_other e email st Hne) as Hsame.
        destruct Hst as [[Hin Hc]|Hst].
        + left. split.
          * apply elem_of_cons in Hin as [?|?]; [contradiction | assumption].
          * rewrite (cached_iff_lookup email st _ Hsame). exact Hc.
        + right. rewrite Hsame. exact Hst. }
    pose proof (lookupJiraUser_returns e st) as Hret.
    destruct (lookupJiraUser fetch e st) as [res st1]. cbn in Hret, Hstep. subst res.
    apply IH. exact Hstep.
Qed.

Lemma assigneeOf_unresolved (info : ProjectInfo) (cache : gmap string string) email :
  pi_assignee info = Some email ->
  truthy_opt (cache !! email) = false ->
  assigneeOf info cache = None.
Proof.
  intros Ha Hc. unfold assigneeOf. rewrite Ha.
  destruct (truthy email); [|reflexivity].
  destruct (cache !! email) as [cachedUser|]; [|reflexivity].
  cbn in Hc. rewrite Hc. reflexivity.
Qed.

(** C8 (amended). For an assignee email that is looked up, a user search
    that returns no match leaves the email unresolved, and tickets of a
    project with that assignee are created without an assignee; a search
    that returns one or more matches caches the account id of the first
    match. *)
Theorem lookupJiraUsers_caches_first_match
    (email : string) (o : FetchOutcome (option (list User))) (st : State W) :
  (forall w, (fetch (JiraUserSearch email) w).1 = o) ->
  email ∈ uniqueEmails projects ->
  cached email st = false ->
  (lookupJiraUsers fetch projects st).1 = Ok tt ∧
  (searchMatches o = [] ->
     cached email (lookupJiraUsers fetch projects st).2 = false ∧
     forall sonarBaseUrl item itemType,
       pi_assignee (getProjectInfo projects (project item)) = Some email ->
       jp_assignee (buildPayload projects sonarBaseUrl item itemType
                      (userAccountCache (lookupJiraUsers fetch projects st).2))
       = None) ∧
  (forall user users, searchMatches o = user :: users ->
     userAccountCache (lookupJiraUsers fetch projects st).2 !! email
     = Some (accountId user)).
Proof.
  intros Hfixed Hin Hc. unfold lookupJiraUsers.
  split; [apply lookup_loop_returns|]. split.
  - intros Hnone.
    pose proof (lookup_loop_no_match email o (uniqueEmails projects) Hfixed Hnone st)
      as Hsame.
    assert (Hc' : cached email
                    (for_of (uniqueEmails projects) (lookupJiraUser fetch) st).2 = false).
    { rewrite (cached_iff_lookup email st _ Hsame). exact Hc. }
    split; [exact Hc'|].
    intros sonarBaseUrl item itemType Ha. cbn [buildPayload jp_assignee].
    apply (assigneeOf_unresolved _ _ email Ha). exact Hc'.
  - intros user users Hmatch.
    apply (lookup_loop_first_match email o user users _ Hfixed Hmatch).
    left. split; assumption.
Qed.

End UserLookup.


(** ** Ticket creation *)

Section Creation.

Variable projects : list ProjectConfig.
Variable sonarBaseUrl : string.

Lemma emits_refl (P : Request -> Prop) (st : State W) : emits P st st.
Proof. exists []. rewrite app_nil_r. split; [reflexivity | constructor]. Qed.

Lemma emits_trans (P : Request -> Prop) (st1 st2 st3 : State W) :
  emits P st1 st2 -> emits P st2 st3 -> emits P st1 st3.
Proof.
  intros (l1 & H1 & F1) (l2 & H2 & F2). exists (l1 ++ l2)%list.
  split; [rewrite H2, H1, app_assoc; reflexivity | apply Forall_app; auto].
Qed.

Lemma emits_weaken (P Q : Request -> Prop) (st st' : State W) :
  (forall r, P r -> Q r) -> emits P st st' -> emits Q st st'.
Proof.
  intros HPQ (l & H & F). exists l. split; [exact H|].
  eapply Forall_impl; eauto.
Qed.

Lemma emits_same_calls (P : Request -> Prop) (st st' : State W) :
  calls st' = calls st -> emits P st st'.
Proof. intros H. exists []. rewrite app_nil_r. split; [exact H | constructor]. Qed.

Lemma fetchWithRetry_emits (P : Request -> Prop) r (st : State W) :
  P r -> emits P st (fetchWithRetry fetch r st).2.
Proof.
  intros HP. destruct (fetchWithRetry_sends r st) as (k & Hc & _).
  exists (replicate (S k) r). split; [exact Hc|].
  apply Forall_forall. intros x Hx. apply elem_of_replicate in Hx as [-> _]. exact HP.
Qed.

(** *** The user lookup sends no creation request *)

Lemma lookupJiraUser_emits email (st : State W) :
  emits (fun r => is_create r = false) st (lookupJiraUser fetch email st).2.
Proof.
  unfold lookupJiraUser, bind, get_state, try_catch.
  destruct (cached email st); [apply emits_refl|].
  pose proof (fetchWithRetry_emits (fun r => is_create r = false)
                (JiraUserSearch email) st eq_refl) as He.
  destruct (fetchWithRetry fetch (JiraUserSearch email) st) as [[resp|e] st1];
    cbn [snd] in He; [|exact He].
  destruct (ok resp); [|exact He].
  unfold response_json. destruct (json resp) as [[[|user users]|]|]; exact He.
Qed.

Lemma lookupJiraUsers_emits (st : State W) :
  (lookupJiraUsers fetch projects st).1 = Ok tt ∧
  emits (fun r => is_create r = false) st (lookupJiraUsers fetch projects st).2.
Proof.
  unfold lookupJiraUsers. split; [apply lookup_loop_returns|].
  generalize (uniqueEmails projects). intros emails. revert st.
  induction emails as [|e emails IH]; intros st; [apply emits_refl|].
  cbn [for_of]. unfold bind.
  pose proof (lookupJiraUser_returns e st) as Hret.
  pose proof (lookupJiraUser_emits e st) as He.
  destruct (lookupJiraUser fetch e st) as [res st1]. cbn in Hret, He. subst res.
  eapply emits_trans; [exact He | apply IH].
Qed.

(** *** The existence check *)

Lemma indexTicket_spec ticket (st : State W) :
  exists st', indexTicket ticket st = (Ok tt, st') ∧
    calls st' = calls st ∧ createdTickets st' = createdTickets st ∧
    userAccountCache st' = userAccountCache st ∧
    (index_listed st -> index_listed st').
Proof.
  unfold indexTicket, try_catch.
  destruct (referenceText ticket) as [sonarKey|].
  - eexists. split; [reflexivity|]. cbn. repeat split.
    intros Hinv k t. cbn. rewrite lookup_assign.
    destruct (decide (k = property_key sonarKey ∧ property_key sonarKey ≠ "__proto__"))
      as [_|_].
    + intros [= <-].
      case_bool_decide as Hin; [exact Hin|].
      apply elem_of_app. right. left.
    + intros Hk.
      specialize (Hinv k t Hk).
      case_bool_decide; [exact Hinv|]. apply elem_of_app. left. exact Hinv.
  - exists st. repeat split; auto.
Qed.

Lemma indexTickets_spec tickets (st : State W) :
  exists st', for_of tickets indexTicket st = (Ok tt, st') ∧
    calls st' = calls st ∧ createdTickets st' = createdTickets st ∧
    userAccountCache st' = userAccountCache st ∧
    (index_listed st -> index_listed st').
Proof.
  revert st. induction tickets as [|ticket tickets IH]; intros st.
  - exists st. repeat split; auto.
  - cbn [for_of]. unfold bind.
    destruct (indexTicket_spec ticket st) as (st1 & -> & Hc1 & Hd1 & Hu1 & Hi1).
    destruct (IH st1) as (st2 & -> & Hc2 & Hd2 & Hu2 & Hi2).
    exists st2. split; [reflexivity|].
    rewrite Hc2, Hd2, Hu2. repeat split; auto.
Qed.

(** One batch of the existence check: either it completes, or it throws
    before touching the index. *)
Lemma checkExistingBatch_spec batch (st : State W) :
  exists n,
    let st' := (checkExistingBatch fetch batch st).2 in
    calls st' = (calls st ++ replicate (S n) (JiraSearchExisting batch))%list ∧
    createdTickets st' = createdTickets st ∧
    userAccountCache st' = userAccountCache st ∧
    (index_listed st -> index_listed st') ∧
    (forall e, (checkExistingBatch fetch batch st).1 = Throw e ->
               existingTicketsMap st' = existingTicketsMap st ∧
               existingTickets st' = existingTickets st).
Proof.
  unfold checkExistingBatch, bind.
  destruct (fetchWithRetry_sends (JiraSearchExisting batch) st)
    as (n & Hc & Hu & Hm & He & Hd).
  exists n. cbv zeta.
  assert (Hkeep : forall st1 : State W,
            existingTicketsMap st1 = existingTicketsMap st ->
            existingTickets st1 = existingTickets st ->
            index_listed st -> index_listed st1).
  { intros st1 H1 H2 Hinv k t. rewrite H1, H2. apply Hinv. }
  destruct (fetchWithRetry fetch (JiraSearchExisting batch) st) as [[resp|e] st1];
    cbn [snd] in *.
  2:{ cbn. repeat split; auto. }
  destruct (ok resp); cbn [negb].
  2:{ cbn. repeat split; auto. }
  unfold response_json. destruct (json resp) as [searchData|].
  2:{ cbn. repeat split; auto. }
  cbv beta iota zeta delta [ret]. destruct (js_issues searchData) as [[|t ts]|].
  1,3: cbn; repeat split; auto; intros; discriminate.
  destruct (indexTickets_spec (t :: ts) st1) as (st2 & Hrun & Hc2 & Hd2 & Hu2 & Hi2).
  rewrite Hrun. cbn [fst snd].
  rewrite Hc2, Hd2, Hu2. repeat split; auto; intros; discriminate.
Qed.

Lemma checkExistingBatches_spec bs (st : State W) :
  let st' := (for_of bs (checkExistingBatch fetch) st).2 in
  emits (fun r => is_create r = false) st st' ∧
  createdTickets st' = createdTickets st ∧
  userAccountCache st' = userAccountCache st ∧
  (index_listed st -> index_listed st').
Proof.
  revert st. induction bs as [|b bs IH]; intros st; cbv zeta.
  - cbn. repeat split; auto. apply emits_refl.
  - cbn [for_of]. unfold bind.
    destruct (checkExistingBatch_spec b st) as (n & Hc & Hd & Hu & Hi & _).
    cbv zeta in Hc, Hd, Hu, Hi.
    assert (He : emits (fun r => is_create r = false) st
                   (checkExistingBatch fetch b st).2).
    { exists (replicate (S n) (JiraSearchExisting b)). split; [exact Hc|].
      apply Forall_forall. intros x Hx.
      apply elem_of_replicate in Hx as [-> _]. reflexivity. }
    destruct (checkExistingBatch fetch b st) as [[[]|e] st1]; cbn [snd] in *.
    + destruct (IH st1) as (He2 & Hd2 & Hu2 & Hi2). cbv zeta in He2, Hd2, Hu2, Hi2.
      rewrite Hd2, Hu2. repeat split; auto.
      eapply emits_trans; eauto.
    + repeat split; auto.
Qed.

Lemma checkExistingTickets_spec allSonarKeys (st : State W) :
  exists st', checkExistingTickets fetch allSonarKeys st = (Ok tt, st') ∧
    emits (fun r => is_create r = false) st st' ∧
    createdTickets st' = createdTickets st ∧
    userAccountCache st' = userAccountCache st ∧
    (index_listed st -> index_listed st').
Proof.
  unfold checkExistingTickets.
  destruct allSonarKeys as [|k ks].
  - exists st. repeat split; auto. apply emits_refl.
  - unfold try_catch.
    pose proof (checkExistingBatches_spec (batches maxBatchSize (k :: ks)) st) as H.
    cbv zeta in H.
    destruct (for_of (batches maxBatchSize (k :: ks)) (checkExistingBatch fetch) st)
      as [[[]|e] st1]; cbn [snd] in H; exists st1; split; try reflexivity; exact H.
Qed.


(** *** Creating one ticket *)

Lemma checkIfTicketExists_indexed k t (st : State W) :
  existingTicketsMap st !! k = Some t -> truthy t = true ->
  checkIfTicketExists k st = ExistingTicket t.
Proof.
  intros Hk Ht. unfold checkIfTicketExists.
  rewrite (member_own _ _ _ Hk), Ht. reflexivity.
Qed.

Lemma checkIfTicketExists_inherited k (st : State W) :
  existingTicketsMap st !! k = None -> k ∈ objectPrototypeNames ->
  checkIfTicketExists k st = PrototypeMember.
Proof.
  intros Hk Hin. unfold checkIfTicketExists.
  rewrite (member_inherited _ _ Hk Hin). reflexivity.
Qed.

(** The lookup is empty exactly when the name has no truthy entry and
    names no member of [Object.prototype]. *)
Lemma checkIfTicketExists_none k (st : State W) :
  checkIfTicketExists k st = NoTicket <->
  (existingTicketsMap st !! k = None ∧ k ∉ objectPrototypeNames)
  ∨ (exists t, existingTicketsMap st !! k = Some t ∧ truthy t = false).
Proof.
  unfold checkIfTicketExists, member.
  destruct (existingTicketsMap st !! k) as [t|].
  - destruct (truthy t) eqn:Ht; split.
    + discriminate.
    + intros [[? _]|(t' & [= <-] & Ht')]; congruence.
    + intros _. right. exists t. auto.
    + reflexivity.
  - case_bool_decide as Hin; split.
    + discriminate.
    + intros [[_ Hn]|(t & ? & _)]; [contradiction | discriminate].
    + intros _. left. auto.
    + reflexivity.
Qed.

Lemma checkIfTicketExists_same_index k (st st' : State W) :
  existingTicketsMap st' = existingTicketsMap st ->
  checkIfTicketExists k st' = checkIfTicketExists k st.
Proof. unfold checkIfTicketExists. intros ->. reflexivity. Qed.

(** A finding for which the lookup is truthy is skipped without any
    effect. *)
Lemma createJiraTicket_indexed item itemType (st : State W) :
  checkIfTicketExists (key item) st <> NoTicket ->
  createJiraTicket fetch projects sonarBaseUrl item itemType st = (Ok tt, st).
Proof.
  intros H. unfold createJiraTicket, bind, get_state.
  destruct (checkIfTicketExists (key item) st); [reflexivity | reflexivity |].
  contradiction.
Qed.

Lemma create_request_respects_index item itemType cache (st : State W) :
  checkIfTicketExists (key item) st = NoTicket ->
  respects_index (existingTicketsMap st)
    (JiraCreateIssue (buildPayload projects sonarBaseUrl item itemType cache)).
Proof.
  intros Hnone k Hk. cbn [creates_for buildPayload jp_reference].
  apply String.eqb_neq. intros Heq. subst k.
  destruct Hk as [(t & Hk & Ht)|[Hk Hin]].
  - rewrite (checkIfTicketExists_indexed _ _ _ Hk Ht) in Hnone. discriminate.
  - rewrite (checkIfTicketExists_inherited _ _ Hk Hin) in Hnone. discriminate.
Qed.

(** Whatever its outcome, one call leaves the index alone and sends only
    creation requests for identifiers outside the index. *)
Lemma createJiraTicket_spec item itemType (st : State W) :
  let st' := (createJiraTicket fetch projects sonarBaseUrl item itemType st).2 in
  existingTicketsMap st' = existingTicketsMap st ∧
  existingTickets st' = existingTickets st ∧
  emits (respects_index (existingTicketsMap st)) st st'.
Proof.
  cbv zeta. unfold createJiraTicket, bind, get_state.
  destruct (checkIfTicketExists (key item) st) as [t| |] eqn:Hidx.
  1,2: cbn; repeat split; apply emits_refl.
  set (payload := buildPayload projects sonarBaseUrl item itemType (userAccountCache st)).
  destruct (String.eqb (trim (jp_summary payload)) "").
  { cbn. repeat split. apply emits_refl. }
  destruct (fetchWithRetry_sends (JiraCreateIssue payload) st)
    as (n & Hc & Hu & Hm & He & Hd).
  assert (Hemit : emits (respects_index (existingTicketsMap st)) st
                    (fetchWithRetry fetch (JiraCreateIssue payload) st).2).
  { apply fetchWithRetry_emits. apply create_request_respects_index. exact Hidx. }
  destruct (fetchWithRetry fetch (JiraCreateIssue payload) st) as [[resp|e] st1];
    cbn [snd] in *; [|cbn; auto].
  destruct (ok resp); cbn [negb]; [|cbn; auto].
  unfold response_json. destruct (json resp) as [jiraData|]; [|cbn; auto].
  cbn. repeat split; auto.
Qed.

Lemma guarded_create_spec item itemType (st : State W) :
  exists st',
    try_catch (createJiraTicket fetch projects sonarBaseUrl item itemType)
      (fun error => ret tt) st = (Ok tt, st') ∧
    existingTicketsMap st' = existingTicketsMap st ∧
    existingTickets st' = existingTickets st ∧
    emits (respects_index (existingTicketsMap st)) st st'.
Proof.
  unfold try_catch.
  pose proof (createJiraTicket_spec item itemType st) as H. cbv zeta in H.
  destruct (createJiraTicket fetch projects sonarBaseUrl item itemType st)
    as [[[]|e] st1]; cbn [snd] in H; exists st1; split; try reflexivity; exact H.
Qed.

Lemma processItems_spec items itemType (st : State W) :
  exists st',
    processItems fetch projects sonarBaseUrl items itemType st = (Ok tt, st') ∧
    existingTicketsMap st' = existingTicketsMap st ∧
    existingTickets st' = existingTickets st ∧
    emits (respects_index (existingTicketsMap st)) st st'.
Proof.
  unfold processItems. revert st.
  induction items as [|item items IH]; intros st.
  - exists st. repeat split. apply emits_refl.
  - cbn [for_of]. unfold bind.
    destruct (guarded_create_spec item itemType st) as (st1 & -> & Hm & He & Hemit).
    destruct (IH st1) as (st2 & -> & Hm2 & He2 & Hemit2).
    exists st2. split; [reflexivity|].
    rewrite Hm2, He2, Hm, He. repeat split.
    rewrite Hm in Hemit2. eapply emits_trans; eauto.
Qed.

Lemma processItems_all_indexed items itemType (st : State W) :
  (forall f, f ∈ items -> checkIfTicketExists (key f) st <> NoTicket) ->
  processItems fetch projects sonarBaseUrl items itemType st = (Ok tt, st).
Proof.
  unfold processItems. induction items as [|item items IH]; intros Hall; [reflexivity|].
  cbn [for_of]. unfold bind, try_catch.
  rewrite (createJiraTicket_indexed item itemType st) by (apply Hall; left).
  apply IH. intros f Hf. apply Hall. right. exact Hf.
Qed.

(** C3. A creation run never throws.  For every identifier that the
    Existence Index built by the run maps to a ticket, the run sends no
    creation request and the ticket's key is in the returned [existing]
    list; a finding found in the index is skipped without any effect.
    Hence a run whose index answers for all findings of the set (a second
    run after the tickets of the first are indexed) sends no creation
    request at all and returns an empty [created] list. *)
Theorem createJiraTickets_skips_indexed (sonarData : SonarData) (st : State W) :
  exists result st' sent,
    createJiraTickets fetch projects sonarBaseUrl (Some sonarData) st
      = (Ok result, st') ∧
    error result = None ∧
    calls st' = (calls st ++ sent)%list ∧
    (forall item itemType t (st0 : State W),
       checkIfTicketExists (key item) st0 = ExistingTicket t ->
       createJiraTicket fetch projects sonarBaseUrl item itemType st0 = (Ok tt, st0)) ∧
    (forall k t,
       existingTicketsMap st' !! k = Some t -> truthy t = true ->
       t ∈ existing result ∧ Forall (fun r => creates_for k r = false) sent) ∧
    ((forall f, f ∈ (issues sonarData ++ hotspots sonarData)%list ->
                checkIfTicketExists (key f) st' <> NoTicket) ->
     created result = [] ∧ Forall (fun r => is_create r = false) sent).
Proof.
  unfold createJiraTickets, try_catch, createJiraTickets_try, bind.
  destruct (lookupJiraUsers_emits st) as [Hret Huser].
  destruct (lookupJiraUsers fetch projects st) as [res st1].
  cbn [fst snd] in Hret, Huser. subst res.
  set (st2 := (init_locals st1).2).
  change (init_locals st1) with (Ok tt, st2).
  assert (Hc2 : calls st2 = calls st1) by reflexivity.
  assert (Hd2 : createdTickets st2 = []) by reflexivity.
  assert (Hinv2 : index_listed st2).
  { intros k t Hk. cbn in Hk. rewrite lookup_empty in Hk. discriminate. }
  destruct (checkExistingTickets_spec
              (map key (issues sonarData) ++ map key (hotspots sonarData))%list st2)
    as (st3 & -> & Hsearch & Hd3 & Hu3 & Hinv3).
  specialize (Hinv3 Hinv2).
  destruct (processItems_spec (issues sonarData) issue st3)
    as (st4 & Hrun4 & Hm4 & He4 & Hemit4).
  destruct (processItems_spec (hotspots sonarData) hotspot st4)
    as (st5 & Hrun5 & Hm5 & He5 & Hemit5).
  rewrite Hrun4, Hrun5. cbn [get_state ret].
  assert (Hbefore : emits (fun r => is_create r = false) st st3).
  { eapply emits_trans; [exact Huser|].
    eapply emits_trans; [apply emits_same_calls; exact Hc2 | exact Hsearch]. }
  destruct Hbefore as (sent1 & Hs1 & HF1).
  destruct Hemit4 as (sent2 & Hs2 & HF2).
  destruct Hemit5 as (sent3 & Hs3 & HF3).
  rewrite Hm4 in HF3.
  exists {| created := createdTickets st5; existing := existingTickets st5;
            error := None |}, st5, (sent1 ++ sent2 ++ sent3)%list.
  split; [reflexivity|]. split; [reflexivity|].
  split; [rewrite Hs3, Hs2, Hs1, !app_assoc; reflexivity|].
  split; [intros item itemType t st0 Hidx; apply createJiraTicket_indexed;
          rewrite Hidx; discriminate|].
  split.
  - intros k t Hk Ht. cbn [existing].
    rewrite Hm5, Hm4 in Hk. split.
    + rewrite He5, He4. apply (Hinv3 k t Hk).
    + apply Forall_app. split; [|apply Forall_app; split].
      * eapply Forall_impl; [exact HF1|]. intros [] Hr; cbn in *; congruence.
      * eapply Forall_impl; [exact HF2|]. intros r Hr. apply (Hr k). eauto.
      * eapply Forall_impl; [exact HF3|]. intros r Hr. apply (Hr k). eauto.
  - intros Hall. cbn [created].
    assert (Hall3 : forall f, f ∈ (issues sonarData ++ hotspots sonarData)%list ->
                              checkIfTicketExists (key f) st3 <> NoTicket).
    { intros f Hf.
      rewrite <- (checkIfTicketExists_same_index (key f) st3 st5)
        by (rewrite Hm5, Hm4; reflexivity).
      apply Hall. exact Hf. }
    rewrite processItems_all_indexed in Hrun4
      by (intros f Hf; apply Hall3; apply elem_of_app; left; exact Hf).
    injection Hrun4 as <-.
    rewrite processItems_all_indexed in Hrun5
      by (intros f Hf; apply Hall3; apply elem_of_app; right; exact Hf).
    injection Hrun5 as <-.
    split; [rewrite Hd3; exact Hd2|].
    assert (sent2 = []) as ->
      by (apply (app_inv_head (calls st3)); rewrite app_nil_r; symmetry; exact Hs2).
    assert (sent3 = []) as ->
      by (apply (app_inv_head (calls st3)); rewrite app_nil_r; symmetry; exact Hs3).
    rewrite !app_nil_r. exact HF1.
Qed.

(** C7 (amended). The existence check has one [try] around its batch
    loop.  When the search for batch [b] fails after the batches before it
    were processed, the failing batch adds nothing to the index, the check
    ends normally in the state reached by that failed search, and so no
    search is sent for any later batch. *)
Theorem checkExistingTickets_stops_at_failure
    (allSonarKeys : list string) (pre post : list (list string)) (b : list string)
    (st st1 st2 : State W) (e : exn) :
  batches maxBatchSize allSonarKeys = (pre ++ b :: post)%list ->
  for_of pre (checkExistingBatch fetch) st = (Ok tt, st1) ->
  checkExistingBatch fetch b st1 = (Throw e, st2) ->
  checkExistingTickets fetch allSonarKeys st = (Ok tt, st2) ∧
  existingTicketsMap st2 = existingTicketsMap st1 ∧
  existingTickets st2 = existingTickets st1 ∧
  exists n, calls st2 = (calls st1 ++ replicate (S n) (JiraSearchExisting b))%list.
Proof.
  intros Hb Hpre Hfail.
  assert (Hloop : forall l (s s1 : State W),
            for_of l (checkExistingBatch fetch) s = (Ok tt, s1) ->
            for_of (l ++ b :: post)%list (checkExistingBatch fetch) s
            = match checkExistingBatch fetch b s1 with
              | (Ok _, s2) => for_of post (checkExistingBatch fetch) s2
              | (Throw e', s2) => (Throw e', s2)
              end).
  { induction l as [|x l IH]; intros s s1 Hl.
    - cbn in Hl. injection Hl as <-. cbn [app for_of]. unfold bind.
      destruct (checkExistingBatch fetch b s) as [[[]|e'] s2]; reflexivity.
    - cbn [app for_of] in *. unfold bind in *.
      destruct (checkExistingBatch fetch x s) as [[[]|e'] s']; [|discriminate].
      apply IH. exact Hl. }
  split.
  - unfold checkExistingTickets. destruct allSonarKeys as [|k ks].
    + destruct pre; discriminate.
    + unfold try_catch. rewrite Hb, (Hloop pre st st1 Hpre), Hfail. reflexivity.
  - destruct (checkExistingBatch_spec b st1) as (n & Hc & _ & _ & _ & Hthrow).
    rewrite Hfail in Hc, Hthrow. cbn [fst snd] in Hc, Hthrow.
    destruct (Hthrow e eq_refl) as [Hm He].
    split; [exact Hm|]. split; [exact He|]. exists n. exact Hc.
Qed.

End Creation.

(** ** The closure run *)

(** When no identifier can be extracted from the fetched tickets, the
    run returns through the early [return], whose object has no
    [ticketsWithErrors]. *)
Lemma early_return_shape fuel tickets (st st1 : State W) :
  fetchAllTickets fetch fuel [] 0 st = (Ok (Some tickets), st1) ->
  omap extractSonarKey tickets = [] ->
  closeResolvedJiraTickets fetch fuel st
  = (Ok (Some {| ticketsChecked := length tickets; ticketsClosed := 0;
                 ticketsNotResolved := 0; ticketsWithErrors := None |}), st1).
Proof.
  intros Hfetch Hkeys.
  unfold closeResolvedJiraTickets, try_catch, closeResolvedJiraTickets_try, bind.
  rewrite Hfetch, Hkeys. reflexivity.
Qed.

(** The handler of [createJiraTickets] never returns. *)
Remark createJiraTickets_catch_throws (e : exn) (st : State W) :
  exists e', createJiraTickets_catch e st = (Throw e', st)
             ∧ exn_name e' = "ReferenceError".
Proof. eexists. split; reflexivity. Qed.

End Proofs.

(** * Further properties of the service *)

Section MoreProofs.

Context {W : Type}.
Variable fetch : forall r : Request, W -> FetchOutcome (BodyOf r) * W.

(** ** The retrying fetch: number of attempts *)

Lemma fetchWithRetry_loop_bounded r n (st : State W) :
  exists k, k <= n ∧ (n = 0 ∨ 1 <= k) ∧
    sends st (fetchWithRetry_loop fetch r n st).2 (replicate k r) ∧
    (forall e, (fetchWithRetry_loop fetch r n st).1 = Throw e -> k = n).
Proof.
  revert st. induction n as [|n IH]; intros st.
  - exists 0. split; [lia|]. split; [left; reflexivity|]. split; [apply sends_refl|].
    intros e He. reflexivity.
  - cbn [fetchWithRetry_loop].
    pose proof (do_fetch_sends fetch r st) as H1.
    destruct (do_fetch fetch r st) as [[resp|e] st1]; cbn [snd] in H1.
    + destruct (ok resp).
      * exists 1. split; [lia|]. split; [right; lia|]. split; [exact H1|].
        intros e He. discriminate.
      * destruct n as [|n].
        { exists 1. split; [lia|]. split; [right; lia|]. split; [exact H1|]. reflexivity. }
        destruct (IH st1) as (k & Hle & Hpos & Hk & Hthrow). exists (S k).
        split; [lia|]. split; [right; lia|]. split.
        -- change (replicate (S k) r) with ([r] ++ replicate k r)%list.
           eapply sends_trans; eauto.
        -- intros e He. f_equal. eapply Hthrow. exact He.
    + destruct n as [|n].
      { exists 1. split; [lia|]. split; [right; lia|]. split; [exact H1|]. reflexivity. }
      destruct (IH st1) as (k & Hle & Hpos & Hk & Hthrow). exists (S k).
      split; [lia|]. split; [right; lia|]. split.
      * change (replicate (S k) r) with ([r] ++ replicate k r)%list.
        eapply sends_trans; eauto.
      * intros e' He. f_equal. eapply Hthrow. exact He.
Qed.

(** X1. [fetchWithRetry] sends the same request between one and three
    times and nothing else, and leaves the program's own data alone.  A
    response it returns is a success; it throws only after the third
    attempt. *)
Theorem fetchWithRetry_attempts (r : Request) (st : State W) :
  exists n, 1 <= n <= 3 ∧
    sends st (fetchWithRetry fetch r st).2 (replicate n r) ∧
    match (fetchWithRetry fetch r st).1 with
    | Ok resp => ok resp = true
    | Throw _ => n = 3
    end.
Proof.
  destruct (fetchWithRetry_loop_bounded r 3 st) as (k & Hle & Hpos & Hk & Hthrow).
  pose proof (fetchWithRetry_loop_outcome fetch r 2 st) as Hout.
  exists k. unfold fetchWithRetry, bind.
  destruct (fetchWithRetry_loop fetch r 3 st) as [[[resp|]|e] st1];
    cbn [fst snd] in *.
  - split; [destruct Hpos; [discriminate | lia]|]. split; [exact Hk | exact Hout].
  - contradiction.
  - split; [destruct Hpos; [discriminate | lia]|]. split; [exact Hk|].
    apply (Hthrow e). reflexivity.
Qed.

(** ** Batches *)

Lemma batches_fuel_sizes {A} (size fuel : nat) (l : list A) :
  0 < size ->
  Forall (fun b => 0 < length b <= size) (batches_fuel fuel size l).
Proof.
  intros Hsize. revert l. induction fuel as [|fuel IH]; intros l; [constructor|].
  destruct l as [|x l]; [constructor|].
  cbn [batches_fuel]. constructor; [|apply IH].
  rewrite length_take. cbn [length]. lia.
Qed.

Lemma batches_fuel_full {A} (size fuel : nat) (l : list A) pre b post :
  0 < size ->
  batches_fuel fuel size l = (pre ++ b :: post)%list -> post <> [] ->
  length b = size.
Proof.
  intros Hsize. revert l pre. induction fuel as [|fuel IH]; intros l pre Heq Hpost.
  - destruct pre; discriminate.
  - destruct l as [|x l]; [destruct pre; discriminate|].
    cbn [batches_fuel] in Heq. destruct pre as [|p pre].
    + cbn in Heq. injection Heq as Hb Hrest. subst b.
      rewrite length_take.
      destruct (decide (size <= length (x :: l))) as [Hle|Hgt]; [lia|].
      exfalso. apply Hpost. rewrite <- Hrest.
      rewrite drop_ge by lia. destruct fuel; reflexivity.
    + cbn in Heq. injection Heq as _ Hrest.
      eapply IH; eassumption.
Qed.

(** X2. Slicing a list into batches of [size] loses and reorders nothing:
    the batches concatenate to the list, every batch holds between one
    and [size] elements, and every batch but the last is full. *)
Theorem batches_partition {A} (size : nat) (l : list A) :
  0 < size ->
  concat (batches size l) = l ∧
  Forall (fun b => 0 < length b <= size) (batches size l) ∧
  (forall pre b post,
     batches size l = (pre ++ b :: post)%list -> post <> [] -> length b = size).
Proof.
  intros Hsize. split; [apply batches_concat; exact Hsize|]. split.
  - apply batches_fuel_sizes. exact Hsize.
  - intros pre b post. apply batches_fuel_full. exact Hsize.
Qed.

(** ** Runs that only send requests *)

Lemma sends_only_refl (P : Request -> Prop) (st : State W) : sends_only P st st.
Proof. exists []. split; [apply sends_refl | constructor]. Qed.

Lemma sends_only_trans (P : Request -> Prop) (st1 st2 st3 : State W) :
  sends_only P st1 st2 -> sends_only P st2 st3 -> sends_only P st1 st3.
Proof.
  intros (l1 & H1 & F1) (l2 & H2 & F2). exists (l1 ++ l2)%list.
  split; [eapply sends_trans; eauto | apply Forall_app; auto].
Qed.

Lemma sends_only_weaken (P Q : Request -> Prop) (st st' : State W) :
  (forall r, P r -> Q r) -> sends_only P st st' -> sends_only Q st st'.
Proof.
  intros HPQ (l & H & F). exists l. split; [exact H|].
  eapply Forall_impl; eauto.
Qed.

Lemma fetchWithRetry_sends_only (P : Request -> Prop) r (st : State W) :
  P r -> sends_only P st (fetchWithRetry fetch r st).2.
Proof.
  intros HP. destruct (fetchWithRetry_sends fetch r st) as [k Hk].
  exists (replicate (S k) r). split; [exact Hk|].
  apply Forall_forall. intros x Hx. apply elem_of_replicate in Hx as [-> _]. exact HP.
Qed.

Lemma for_acc_sends_only {A B} (P : Request -> Prop) (body : A -> B -> M W B) xs :
  (forall x, x ∈ xs -> forall acc st,
     exists acc' st', body x acc st = (Ok acc', st') ∧ sends_only P st st') ->
  forall acc st,
    exists acc' st', for_acc xs body acc st = (Ok acc', st') ∧ sends_only P st st'.
Proof.
  induction xs as [|x xs IH]; intros Hbody acc st.
  - exists acc, st. split; [reflexivity | apply sends_only_refl].
  - cbn [for_acc]. unfold bind.
    destruct (Hbody x (list_elem_of_here x xs) acc st) as (acc1 & st1 & -> & H1).
    destruct (IH (fun y Hy => Hbody y (list_elem_of_further y x xs Hy)) acc1 st1)
      as (acc2 & st2 & -> & H2).
    exists acc2, st2. split; [reflexivity | eapply sends_only_trans; eauto].
Qed.

(** ** The resolution check talks to the scanner only *)

Lemma checkIssuesBatch_sends_only (P : Request -> Prop) batch m (st : State W) :
  P (SonarIssueSearch batch) ->
  exists m' st', checkIssuesBatch fetch batch m st = (Ok m', st') ∧ sends_only P st st'.
Proof.
  intros HP. unfold checkIssuesBatch, try_catch, bind.
  pose proof (fetchWithRetry_sends_only P (SonarIssueSearch batch) st HP) as Hs.
  destruct (fetchWithRetry fetch (SonarIssueSearch batch) st) as [[resp|e] st1];
    cbn [snd] in Hs; [|cbn; eauto].
  destruct (ok resp); [|cbn; eauto].
  unfold response_json. destruct (json resp) as [data|]; cbn; eauto.
Qed.

Lemma checkHotspot_sends_only (P : Request -> Prop) k m (st : State W) :
  P (SonarHotspotShow k) ->
  exists m' st', checkHotspot fetch k m st = (Ok m', st') ∧ sends_only P st st'.
Proof.
  intros HP. unfold checkHotspot, try_catch, bind.
  pose proof (fetchWithRetry_sends_only P (SonarHotspotShow k) st HP) as Hs.
  destruct (fetchWithRetry fetch (SonarHotspotShow k) st) as [[resp|e] st1];
    cbn [snd] in Hs; [|cbn; eauto].
  destruct (ok resp); [|cbn; eauto].
  unfold response_json. destruct (json resp) as [data|]; [|cbn; eauto].
  cbn. destruct (nonempty (hs_errors data)); [cbn; eauto|].
  destruct (truthy_opt (hs_key data)); cbn; eauto.
Qed.

Lemma checkBatch_sends_only (P : Request -> Prop) batch m (st : State W) :
  P (SonarIssueSearch batch) ->
  (forall k, k ∈ batch -> P (SonarHotspotShow k)) ->
  exists m' st', checkBatch fetch batch m st = (Ok m', st') ∧ sends_only P st st'.
Proof.
  intros HPi HPh. unfold checkBatch, bind.
  destruct (checkIssuesBatch_sends_only P batch m st HPi) as (m1 & st1 & -> & H1).
  destruct (for_acc_sends_only P (checkHotspot fetch)
              (filter (fun k => m1 !! k = Some true) batch)) with (acc := m1) (st := st1)
    as (m2 & st2 & E2 & H2).
  - intros k Hk acc st0. apply checkHotspot_sends_only, HPh.
    apply list_elem_of_filter in Hk as [_ Hk]. exact Hk.
  - exists m2, st2. split; [exact E2 | eapply sends_only_trans; eauto].
Qed.

Lemma checkMultipleIssuesResolved_run (sonarKeys : list string) (st : State W) :
  exists m st',
    checkMultipleIssuesResolved fetch sonarKeys st = (Ok m, st') ∧
    sends_only (asks_scanner_about sonarKeys) st st'.
Proof.
  unfold checkMultipleIssuesResolved, try_catch,
    checkMultipleIssuesResolved_try.
  destruct (for_acc_sends_only (asks_scanner_about sonarKeys) (checkBatch fetch)
              (batches maxBatchSize sonarKeys))
    with (acc := mark_all true sonarKeys) (st := st) as (m & st' & E & H).
  - intros b Hb acc st0. apply checkBatch_sends_only.
    + exact Hb.
    + intros k Hk. cbn. eapply batches_elem; [|exact Hb|exact Hk].
      unfold maxBatchSize. lia.
  - rewrite E. exists m, st'. split; [reflexivity | exact H].
Qed.

(** X3. The resolution check never throws and talks to the scanner only:
    every request it sends is the issue search of one batch of the
    requested keys or the hotspot query of one requested key, and the
    program's own data are left as they were. *)
Theorem checkMultipleIssuesResolved_asks_only_scanner
    (sonarKeys : list string) (st : State W) :
  exists m st' sent,
    checkMultipleIssuesResolved fetch sonarKeys st = (Ok m, st') ∧
    sends st st' sent ∧
    Forall (asks_scanner_about sonarKeys) sent ∧
    Forall (fun r => is_transition_apply r = false ∧ is_create r = false) sent.
Proof.
  destruct (checkMultipleIssuesResolved_run sonarKeys st) as (m & st' & E & sent & Hs & HF).
  exists m, st', sent. repeat (split; [assumption|]).
  eapply Forall_impl; [exact HF|].
  intros r Hr. destruct r; cbn in Hr; try contradiction; split; reflexivity.
Qed.

(** ** One closure *)

#[local] Arguments selectTransition : simpl never.

Lemma selectTransition_preferred names available t :
  selectTransition names available = Some t -> tr_name t ∈ names.
Proof.
  intros H. apply selectTransition_spec in H as (before & after & pre & post & -> & _).
  apply elem_of_app. right. left.
Qed.

Lemma closeJiraTicket_run jiraTicketKey sonarKey (st : State W) :
  exists closed st' sent,
    closeJiraTicket fetch jiraTicketKey sonarKey st = (Ok closed, st') ∧
    sends st st' sent ∧
    Forall (closes_ticket jiraTicketKey) sent ∧
    (closed = true ->
     exists t, last sent = Some (JiraPostTransition jiraTicketKey (commentBody t))).
Proof.
  unfold closeJiraTicket, try_catch, closeJiraTicket_try, bind.
  destruct (fetchWithRetry_sends fetch (JiraGetTransitions jiraTicketKey) st) as [k Hk].
  assert (Hget : Forall (closes_ticket jiraTicketKey)
                   (replicate (S k) (JiraGetTransitions jiraTicketKey))).
  { apply Forall_forall. intros r Hr. apply elem_of_replicate in Hr as [-> _].
    left. reflexivity. }
  assert (Hstop : forall st1 : State W,
            sends st st1 (replicate (S k) (JiraGetTransitions jiraTicketKey)) ->
            exists closed st' sent,
              (Ok false, st1) = (Ok closed, st') ∧ sends st st' sent ∧
              Forall (closes_ticket jiraTicketKey) sent ∧
              (closed = true ->
               exists t, last sent
                         = Some (JiraPostTransition jiraTicketKey (commentBody t)))).
  { intros st1 H1. exists false, st1, (replicate (S k) (JiraGetTransitions jiraTicketKey)).
    split; [reflexivity|]. split; [exact H1|]. split; [exact Hget|]. discriminate. }
  destruct (fetchWithRetry fetch (JiraGetTransitions jiraTicketKey) st)
    as [[resp|e] st1]; cbn [snd] in Hk; [|apply Hstop; exact Hk].
  destruct (ok resp); cbn [negb]; [|apply Hstop; exact Hk].
  unfold response_json. destruct (json resp) as [data|]; [|apply Hstop; exact Hk].
  cbn. destruct (transitions data) as [available|]; [|apply Hstop; exact Hk].
  destruct (selectTransition preferredTransitions available) as [t|] eqn:Hsel;
    [|apply Hstop; exact Hk].
  destruct (truthy (tr_id t)) eqn:Hid; cbn [negb]; [|apply Hstop; exact Hk].
  rewrite applyTransition_outcome.
  destruct (fetchWithRetry_sends fetch
              (JiraPostTransition jiraTicketKey (commentBody t)) st1) as [k2 Hk2].
  assert (Hall : Forall (closes_ticket jiraTicketKey)
            (replicate (S k) (JiraGetTransitions jiraTicketKey)
             ++ replicate (S k2) (JiraPostTransition jiraTicketKey (commentBody t)))%list).
  { apply Forall_app. split; [exact Hget|].
    apply Forall_forall. intros r Hr. apply elem_of_replicate in Hr as [-> _].
    right. exists t. split; [eapply selectTransition_preferred; exact Hsel|].
    split; [exact Hid | reflexivity]. }
  destruct (fetchWithRetry fetch (JiraPostTransition jiraTicketKey (commentBody t)) st1)
    as [[r|e] st2]; cbn [snd] in Hk2.
  - exists true, st2, (replicate (S k) (JiraGetTransitions jiraTicketKey)
                      ++ replicate (S k2)
                           (JiraPostTransition jiraTicketKey (commentBody t)))%list.
    split; [reflexivity|]. split; [eapply sends_trans; eauto|]. split; [exact Hall|].
    intros _. exists t. rewrite (replicate_S_end k2), app_assoc. apply last_snoc.
  - exists false, st2, (replicate (S k) (JiraGetTransitions jiraTicketKey)
                       ++ replicate (S k2)
                            (JiraPostTransition jiraTicketKey (commentBody t)))%list.
    split; [reflexivity|]. split; [eapply sends_trans; eauto|]. split; [exact Hall|].
    discriminate.
Qed.

(** X4. [closeJiraTicket] never throws.  Every request it sends is the
    transition fetch of its ticket or the combined request that applies a
    transition with a preferred name and a non-empty id; nothing else
    changes.  It answers [true] only when the last request sent was such a
    transition request. *)
Theorem closeJiraTicket_contained (jiraTicketKey sonarKey : string) (st : State W) :
  exists closed st' sent,
    closeJiraTicket fetch jiraTicketKey sonarKey st = (Ok closed, st') ∧
    sends st st' sent ∧
    Forall (closes_ticket jiraTicketKey) sent ∧
    Forall (fun r => is_transition_only r = false ∧ is_comment r = false
                     ∧ is_create r = false) sent ∧
    (closed = true ->
     exists t, last sent = Some (JiraPostTransition jiraTicketKey (commentBody t))).
Proof.
  destruct (closeJiraTicket_run jiraTicketKey sonarKey st)
    as (closed & st' & sent & E & Hs & HF & Hlast).
  exists closed, st', sent. repeat (split; [assumption|]).
  split; [|exact Hlast].
  eapply Forall_impl; [exact HF|].
  intros r [->|(t & _ & _ & ->)]; repeat split; reflexivity.
Qed.

(** ** The closure loop *)

Lemma handled_count_error c : handled (count_error c) = S (handled c).
Proof. unfold handled, count_error. cbn. lia. Qed.

Lemma handled_count_closed c : handled (count_closed c) = S (handled c).
Proof. unfold handled, count_closed. cbn. lia. Qed.

Lemma handled_count_notResolved c : handled (count_notResolved c) = S (handled c).
Proof. unfold handled, count_notResolved. cbn. lia. Qed.

Lemma processTicket_run m ticket c (st : State W) :
  exists c' st' sent,
    processTicket fetch m ticket c st = (Ok c', st') ∧
    sends st st' sent ∧
    Forall (closes_ticket (t_key ticket)) sent ∧
    handled c' = S (handled c) ∧
    ((st' = st ∧ sent = [] ∧ closedCount c' = closedCount c)
     ∨ exists k, extractSonarKey ticket = Some k ∧ m !! k = Some true).
Proof.
  assert (Hquiet : forall c', handled c' = S (handled c) ->
            closedCount c' = closedCount c ->
            exists c'' st' sent,
              (Ok c', st) = (Ok c'', st') ∧ sends st st' sent ∧
              Forall (closes_ticket (t_key ticket)) sent ∧
              handled c'' = S (handled c) ∧
              ((st' = st ∧ sent = [] ∧ closedCount c'' = closedCount c)
               ∨ exists k, extractSonarKey ticket = Some k ∧ m !! k = Some true)).
  { intros c' Hh Hc. exists c', st, []. split; [reflexivity|].
    split; [apply sends_refl|]. split; [constructor|]. split; [exact Hh|].
    left. auto. }
  unfold processTicket, try_catch.
  destruct (referenceText ticket) as [t|] eqn:Href;
    [|apply Hquiet; [apply handled_count_error | reflexivity]].
  destruct (t_status ticket) as [ticketStatus|];
    [|apply Hquiet; [apply handled_count_error | reflexivity]].
  destruct (extractSonarKey ticket) as [sonarKey|] eqn:Hkey;
    [|apply Hquiet; [apply handled_count_error | reflexivity]].
  unfold resolutionBranch. destruct (m !! sonarKey) as [[|]|] eqn:Hm.
  - unfold bind.
    destruct (closeJiraTicket_run (t_key ticket) sonarKey st)
      as (closed & st' & sent & -> & Hs & HF & _).
    destruct closed.
    + exists (count_closed c), st', sent. split; [reflexivity|].
      split; [exact Hs|]. split; [exact HF|].
      split; [apply handled_count_closed|]. right. exists sonarKey. auto.
    + exists (count_error c), st', sent. split; [reflexivity|].
      split; [exact Hs|]. split; [exact HF|].
      split; [apply handled_count_error|]. right. exists sonarKey. auto.
  - apply Hquiet; [apply handled_count_notResolved | reflexivity].
  - apply Hquiet; [apply handled_count_error | reflexivity].
Qed.

(** X5. Processing one ticket never throws and counts the ticket exactly
    once.  Whatever it sends belongs to the closure of that ticket, and
    unless the resolution map holds [true] for the identifier extracted
    from the ticket, it sends nothing, changes nothing and counts no
    closure. *)
Theorem processTicket_closes_only_resolved
    (m : gmap string bool) (ticket : Ticket) (c : Counters) (st : State W) :
  exists c' st' sent,
    processTicket fetch m ticket c st = (Ok c', st') ∧
    sends st st' sent ∧
    Forall (closes_ticket (t_key ticket)) sent ∧
    handled c' = S (handled c) ∧
    (¬ (exists k, extractSonarKey ticket = Some k ∧ resolutionBranch m k = CloseTicket) ->
     st' = st ∧ sent = [] ∧ closedCount c' = closedCount c).
Proof.
  destruct (processTicket_run m ticket c st)
    as (c' & st' & sent & E & Hs & HF & Hh & Hcases).
  exists c', st', sent. repeat (split; [assumption|]).
  intros Hno. destruct Hcases as [Hq|(k & Hk & Hm)]; [exact Hq|].
  exfalso. apply Hno. exists k. split; [exact Hk|].
  unfold resolutionBranch. rewrite Hm. reflexivity.
Qed.

Lemma closure_batch_total m batch c (st : State W) :
  exists c' st',
    for_acc batch (processTicket fetch m) c st = (Ok c', st') ∧
    handled c' = handled c + length batch.
Proof.
  revert c st. induction batch as [|ticket batch IH]; intros c st.
  - exists c, st. split; [reflexivity | cbn; lia].
  - cbn [for_acc]. unfold bind.
    destruct (processTicket_run m ticket c st) as (c1 & st1 & sent & -> & _ & _ & Hh & _).
    destruct (IH c1 st1) as (c2 & st2 & -> & Hh2).
    exists c2, st2. split; [reflexivity | cbn [length]; lia].
Qed.

Lemma closure_loop_total m bs c (st : State W) :
  exists c' st',
    for_acc bs (fun batch c => for_acc batch (processTicket fetch m) c) c st
    = (Ok c', st') ∧
    handled c' = handled c + length (concat bs).
Proof.
  revert c st. induction bs as [|batch bs IH]; intros c st.
  - exists c, st. split; [reflexivity | cbn; lia].
  - cbn [for_acc]. unfold bind.
    destruct (closure_batch_total m batch c st) as (c1 & st1 & -> & Hh).
    destruct (IH c1 st1) as (c2 & st2 & -> & Hh2).
    exists c2, st2. split; [reflexivity|].
    cbn [concat]. rewrite length_app. lia.
Qed.

(** What [closeResolvedJiraTickets] does once the tickets are fetched. *)
Lemma closeResolvedJiraTickets_after_fetch fuel allTickets (st st1 : State W) :
  fetchAllTickets fetch fuel [] 0 st = (Ok (Some allTickets), st1) ->
  exists summary st',
    closeResolvedJiraTickets fetch fuel st = (Ok (Some summary), st') ∧
    ticketsChecked summary = length allTickets ∧
    match ticketsWithErrors summary with
    | Some errors =>
        ticketsClosed summary + ticketsNotResolved summary + errors
        = ticketsChecked summary
    | None => ticketsClosed summary = 0 ∧ ticketsNotResolved summary = 0
    end.
Proof.
  intros Hfetch.
  unfold closeResolvedJiraTickets, try_catch, closeResolvedJiraTickets_try, bind.
  rewrite Hfetch.
  destruct (omap extractSonarKey allTickets) as [|k ks] eqn:Hkeys.
  - eexists _, st1. split; [reflexivity|]. cbn. auto.
  - destruct (checkMultipleIssuesResolved_run (k :: ks) st1) as (m & st2 & -> & _).
    destruct (closure_loop_total m (batches maxConcurrent allTickets)
                {| closedCount := 0; errorCount := 0; notResolvedCount := 0 |} st2)
      as (c & st3 & -> & Hh).
    eexists _, st3. split; [reflexivity|]. cbn.
    split; [reflexivity|].
    rewrite batches_concat in Hh by (unfold maxConcurrent; lia).
    unfold handled in Hh. cbn in Hh. lia.
Qed.

(** X6. The counts returned by a closure run add up: at the normal return
    every fetched ticket is counted as closed, as not resolved or as an
    error; the early return, which has no error count, reports nothing
    closed and nothing unresolved. *)
Theorem closeResolvedJiraTickets_counts_add_up
    (fuel : nat) (st st' : State W) (summary : CloseSummary) :
  closeResolvedJiraTickets fetch fuel st = (Ok (Some summary), st') ->
  match ticketsWithErrors summary with
  | Some errors =>
      ticketsClosed summary + ticketsNotResolved summary + errors
      = ticketsChecked summary
  | None => ticketsClosed summary = 0 ∧ ticketsNotResolved summary = 0
  end.
Proof.
  intros Hrun.
  assert (Hfetch : exists allTickets st1,
            fetchAllTickets fetch fuel [] 0 st = (Ok (Some allTickets), st1)).
  { revert Hrun.
    unfold closeResolvedJiraTickets, try_catch, closeResolvedJiraTickets_try, bind.
    destruct (fetchAllTickets fetch fuel [] 0 st) as [[[allTickets|]|e] st1];
      cbn; intros Hrun; try discriminate.
    eauto. }
  destruct Hfetch as (allTickets & st1 & Hfetch).
  destruct (closeResolvedJiraTickets_after_fetch fuel allTickets st st1 Hfetch)
    as (summary' & st'' & Hrun' & _ & Hsum).
  rewrite Hrun in Hrun'. injection Hrun' as -> _. exact Hsum.
Qed.

(** ** Pagination *)

Lemma fetchPage_cases allTickets startAt (st : State W) :
  (exists n, sends st (fetchPage fetch allTickets startAt st).2
               (replicate (S n) (JiraSearchOpen startAt))) ∧
  match (fetchPage fetch allTickets startAt st).1 with
  | Throw e => allTickets = []
  | Ok (allTickets', startAt', hasMore) =>
      (exists batchTickets,
         allTickets' = (allTickets ++ batchTickets)%list ∧
         startAt' = startAt + length batchTickets)
      ∨ (allTickets' = allTickets ∧ hasMore = false ∧ allTickets <> [])
  end.
Proof.
  unfold fetchPage, try_catch, bind.
  destruct (fetchWithRetry_sends fetch (JiraSearchOpen startAt) st) as [n Hn].
  assert (Hfail : forall (e : exn) (st1 : State W),
            sends st st1 (replicate (S n) (JiraSearchOpen startAt)) ->
            let run := match allTickets with
                       | [] => throw e
                       | _ => ret (allTickets, startAt, false)
                       end st1 in
            (exists n, sends st run.2 (replicate (S n) (JiraSearchOpen startAt))) ∧
            match run.1 with
            | Throw e => allTickets = []
            | Ok (allTickets', startAt', hasMore) =>
                (exists batchTickets,
                   allTickets' = (allTickets ++ batchTickets)%list ∧
                   startAt' = startAt + length batchTickets)
                ∨ (allTickets' = allTickets ∧ hasMore = false ∧ allTickets <> [])
            end).
  { intros e st1 H1. destruct allTickets as [|t ts]; cbn.
    - split; [eauto | reflexivity].
    - split; [eauto|]. right. repeat split. discriminate. }
  destruct (fetchWithRetry fetch (JiraSearchOpen startAt) st) as [[resp|e] st1];
    cbn [snd] in Hn; [|apply Hfail; exact Hn].
  destruct (ok resp); cbn [negb]; [|apply Hfail; exact Hn].
  unfold response_json. destruct (json resp) as [data|]; [|apply Hfail; exact Hn].
  cbn. destruct (js_issues data) as [batchTickets|]; [|apply Hfail; exact Hn].
  cbn. split; [eauto|]. left. exists batchTickets. split; reflexivity.
Qed.

Lemma fetchAllTickets_throws fuel allTickets startAt (st st' : State W) e :
  fetchAllTickets fetch fuel allTickets startAt st = (Throw e, st') ->
  allTickets = [] ∧ exists n, sends st st' (replicate (S n) (JiraSearchOpen startAt)).
Proof.
  revert allTickets startAt st. induction fuel as [|fuel IH];
    intros allTickets startAt st; [discriminate|].
  cbn [fetchAllTickets]. unfold bind.
  destruct (fetchPage_cases allTickets startAt st) as [[n Hn] Hres].
  destruct (fetchPage fetch allTickets startAt st) as [[[[all' start'] hasMore]|e'] st1];
    cbn [fst snd] in *.
  - destruct hasMore; [|discriminate].
    intros Hrec. apply IH in Hrec as [Hnil [n' Hn']].
    destruct Hres as [(batchTickets & Hall & Hstart)|(_ & Hmore & _)]; [|discriminate].
    subst all'. apply app_eq_nil in Hnil as [-> ->].
    split; [reflexivity|].
    cbn in Hstart. rewrite Nat.add_0_r in Hstart. subst start'.
    exists (n + S n'). replace (S (n + S n')) with (S n + S n') by lia.
    rewrite replicate_add. eapply sends_trans; eauto.
  - intros H. injection H as -> ->. split; [exact Hres | eauto].
Qed.

Lemma closeResolvedJiraTickets_throws fuel (st st' : State W) e :
  closeResolvedJiraTickets fetch fuel st = (Throw e, st') ->
  exists n, sends st st' (replicate (S n) (JiraSearchOpen 0)).
Proof.
  intros Hrun.
  destruct (fetchAllTickets fetch fuel [] 0 st) as [[[allTickets|]|e'] st1] eqn:Hfetch.
  - destruct (closeResolvedJiraTickets_after_fetch fuel allTickets st st1 Hfetch)
      as (summary & st2 & Hrun' & _).
    rewrite Hrun in Hrun'. discriminate.
  - revert Hrun.
    unfold closeResolvedJiraTickets, try_catch, closeResolvedJiraTickets_try, bind.
    rewrite Hfetch. discriminate.
  - revert Hrun.
    unfold closeResolvedJiraTickets, try_catch, closeResolvedJiraTickets_try, bind.
    rewrite Hfetch. cbn. intros H. injection H as -> ->.
    apply fetchAllTickets_throws in Hfetch as [_ Hs]. exact Hs.
Qed.

(** X7. A closure run can fail only while it has no ticket in hand: when
    [closeResolvedJiraTickets] throws, all it has sent are searches for
    the first page of open tickets, so no ticket was touched and the
    scanner was not asked anything. *)
Theorem closeResolvedJiraTickets_fails_before_any_ticket
    (fuel : nat) (st st' : State W) (e : exn) :
  closeResolvedJiraTickets fetch fuel st = (Throw e, st') ->
  exists sent,
    sends st st' sent ∧
    Forall (fun r => r = JiraSearchOpen 0) sent ∧
    Forall (fun r => is_transition_apply r = false ∧ is_create r = false) sent.
Proof.
  intros Hrun. apply closeResolvedJiraTickets_throws in Hrun as [n Hn].
  exists (replicate (S n) (JiraSearchOpen 0)). split; [exact Hn|].
  split; apply Forall_forall; intros r Hr; apply elem_of_replicate in Hr as [-> _];
    [reflexivity | split; reflexivity].
Qed.
Lemma fetchWithRetry_first_success r resp (st : State W) :
  (fetch r (world st)).1 = Responded resp -> ok resp = true ->
  (fetchWithRetry fetch r st).1 = Ok resp ∧
  calls (fetchWithRetry fetch r st).2 = (calls st ++ [r])%list.
Proof.
  intros Hfetch Hok. unfold fetchWithRetry, bind. cbn [fetchWithRetry_loop].
  unfold do_fetch. destruct (fetch r (world st)) as [o w']. cbn in Hfetch. subst o.
  cbv beta iota zeta. rewrite Hok. cbn. split; reflexivity.
Qed.

Lemma fetchAllTickets_stalls total :
  (forall w, (fetch (JiraSearchOpen 0) w).1
             = Responded {| status := 200;
                            json := Some {| js_issues := Some [];
                                            js_total := Some total |} |}) ->
  0 < total ->
  forall fuel (st : State W),
    (fetchAllTickets fetch fuel [] 0 st).1 = Ok None ∧
    calls (fetchAllTickets fetch fuel [] 0 st).2
    = (calls st ++ replicate fuel (JiraSearchOpen 0))%list.
Proof.
  intros Hpage Htotal fuel. induction fuel as [|fuel IH]; intros st.
  - cbn. rewrite app_nil_r. split; reflexivity.
  - cbn [fetchAllTickets]. unfold bind, fetchPage, try_catch, bind.
    destruct (fetchWithRetry_first_success (JiraSearchOpen 0) _ st (Hpage (world st)))
      as [Hres Hcalls]; [reflexivity|].
    destruct (fetchWithRetry fetch (JiraSearchOpen 0) st) as [res st1].
    cbn [fst snd] in Hres, Hcalls. subst res.
    cbn. destruct total as [|total]; [lia|]. cbn.
    destruct (IH st1) as [IH1 IH2]. split; [exact IH1|].
    rewrite IH2, Hcalls, <- app_assoc. reflexivity.
Qed.

(** X8. The pagination advances by the number of tickets on a page, so a
    tracker that keeps answering with an empty page and a positive total
    keeps the loop at the first page: whatever the iteration budget, the
    run ends it inside the loop, having sent that many identical searches
    and nothing else. *)
Theorem pagination_stalls_on_empty_pages (total fuel : nat) (st : State W) :
  (forall w, (fetch (JiraSearchOpen 0) w).1
             = Responded {| status := 200;
                            json := Some {| js_issues := Some [];
                                            js_total := Some total |} |}) ->
  0 < total ->
  (closeResolvedJiraTickets fetch fuel st).1 = Ok None ∧
  calls (closeResolvedJiraTickets fetch fuel st).2
  = (calls st ++ replicate fuel (JiraSearchOpen 0))%list.
Proof.
  intros Hpage Htotal.
  destruct (fetchAllTickets_stalls total Hpage Htotal fuel st) as [Hres Hcalls].
  unfold closeResolvedJiraTickets, try_catch, closeResolvedJiraTickets_try, bind.
  destruct (fetchAllTickets fetch fuel [] 0 st) as [res st1].
  cbn [fst snd] in Hres, Hcalls. subst res. cbn. split; [reflexivity | exact Hcalls].
Qed.

(** ** Requests of a closure run *)

Lemma sends_only_emits (P : Request -> Prop) (st st' : State W) :
  sends_only P st st' -> emits P st st'.
Proof. intros (sent & (Hc & _) & HF). exists sent. auto. Qed.

Lemma fetchAllTickets_emits fuel allTickets startAt (st : State W) :
  emits (fun r => exists s, r = JiraSearchOpen s) st
    (fetchAllTickets fetch fuel allTickets startAt st).2.
Proof.
  revert allTickets startAt st. induction fuel as [|fuel IH];
    intros allTickets startAt st; [apply emits_refl|].
  cbn [fetchAllTickets]. unfold bind.
  destruct (fetchPage_cases allTickets startAt st) as [[n (Hn & _)] _].
  assert (H1 : emits (fun r => exists s, r = JiraSearchOpen s) st
                 (fetchPage fetch allTickets startAt st).2).
  { exists (replicate (S n) (JiraSearchOpen startAt)). split; [exact Hn|].
    apply Forall_forall. intros r Hr. apply elem_of_replicate in Hr as [-> _]. eauto. }
  destruct (fetchPage fetch allTickets startAt st) as [[[[all' start'] hasMore]|e] st1];
    cbn [snd] in H1; [|exact H1].
  destruct hasMore; [|exact H1].
  eapply emits_trans; [exact H1 | apply IH].
Qed.

Lemma closes_ticket_closure_request allTickets ticket r :
  ticket ∈ allTickets -> is_Some (extractSonarKey ticket) ->
  closes_ticket (t_key ticket) r -> closure_request allTickets r.
Proof.
  intros Hin Hkey Hr. pose proof Hr as [->|(t & _ & _ & ->)]; cbn; eauto.
Qed.

Lemma closure_batch_emits allTickets m batch c (st : State W) :
  (forall ticket, ticket ∈ batch -> ticket ∈ allTickets) ->
  emits (closure_request allTickets) st
    (for_acc batch (processTicket fetch m) c st).2.
Proof.
  revert c st. induction batch as [|ticket batch IH]; intros c st Hsub;
    [apply emits_refl|].
  cbn [for_acc]. unfold bind.
  destruct (processTicket_run m ticket c st)
    as (c1 & st1 & sent & -> & (Hc & _) & HF & _ & Hcases).
  eapply emits_trans; [|apply IH; intros t Ht; apply Hsub; right; exact Ht].
  exists sent. split; [exact Hc|].
  destruct Hcases as [(_ & -> & _)|(k & Hk & _)]; [constructor|].
  eapply Forall_impl; [exact HF|]. intros r Hr.
  eapply closes_ticket_closure_request; [apply Hsub; left | | exact Hr].
  rewrite Hk. eauto.
Qed.

Lemma closure_loop_emits allTickets m bs c (st : State W) :
  (forall batch ticket, batch ∈ bs -> ticket ∈ batch -> ticket ∈ allTickets) ->
  emits (closure_request allTickets) st
    (for_acc bs (fun batch c => for_acc batch (processTicket fetch m) c) c st).2.
Proof.
  revert c st. induction bs as [|batch bs IH]; intros c st Hsub; [apply emits_refl|].
  cbn [for_acc]. unfold bind.
  pose proof (closure_batch_emits allTickets m batch c st
                (fun t Ht => Hsub batch t (list_elem_of_here batch bs) Ht)) as H1.
  destruct (closure_batch_total m batch c st) as (c1 & st1 & E & _).
  rewrite E in H1 |- *. cbn [snd] in H1.
  eapply emits_trans; [exact H1|].
  apply IH. intros b t Hb Ht. eapply Hsub; [right; exact Hb | exact Ht].
Qed.

(** X21. Whatever a closure run does, it never creates a ticket and never
    posts a separate comment or a transition without comment.  All it
    sends are searches for open tickets, requests of the resolution check
    for the identifiers extracted from the fetched tickets, and requests
    closing a fetched ticket that carries an identifier. *)
Theorem closeResolvedJiraTickets_requests (fuel : nat) (st : State W) :
  exists allTickets sent,
    calls (closeResolvedJiraTickets fetch fuel st).2 = (calls st ++ sent)%list ∧
    Forall (closure_request allTickets) sent ∧
    Forall (fun r => is_create r = false ∧ is_comment r = false
                     ∧ is_transition_only r = false) sent ∧
    (forall summary, (closeResolvedJiraTickets fetch fuel st).1 = Ok (Some summary) ->
                     ticketsChecked summary = length allTickets).
Proof.
  assert (Hclean : forall allTickets sent,
            Forall (closure_request allTickets) sent ->
            Forall (fun r => is_create r = false ∧ is_comment r = false
                             ∧ is_transition_only r = false) sent).
  { intros allTickets sent H. eapply Forall_impl; [exact H|]. intros r Hr.
    destruct r; cbn in Hr; try contradiction; try (repeat split; reflexivity).
    destruct Hr as (tk & _ & _ & [Hr|(t & _ & _ & Hr)]); [discriminate|].
    injection Hr as _ ->. repeat split. }
  assert (Hsearch : forall sent,
            Forall (fun r => exists s, r = JiraSearchOpen s) sent ->
            Forall (closure_request []) sent).
  { intros sent H. eapply Forall_impl; [exact H|]. intros r [s ->]. exact I. }
  pose proof (fetchAllTickets_emits fuel [] 0 st) as (sent0 & Hc0 & HF0).
  unfold closeResolvedJiraTickets, try_catch, closeResolvedJiraTickets_try, bind.
  destruct (fetchAllTickets fetch fuel [] 0 st) as [[[allTickets|]|e] st1];
    cbn [snd] in Hc0.
  3:{ exists [], sent0. cbn. split; [exact Hc0|]. split; [auto|].
      split; [eauto | discriminate]. }
  2:{ exists [], sent0. cbn. split; [exact Hc0|]. split; [auto|].
      split; [eauto | discriminate]. }
  assert (HF0' : Forall (closure_request allTickets) sent0).
  { eapply Forall_impl; [exact HF0|]. intros r [s ->]. exact I. }
  destruct (omap extractSonarKey allTickets) as [|k ks] eqn:Hkeys.
  { exists allTickets, sent0. cbn. split; [exact Hc0|]. split; [exact HF0'|].
    split; [eauto|]. intros summary H. injection H as <-. reflexivity. }
  destruct (checkMultipleIssuesResolved_run (k :: ks) st1)
    as (m & st2 & -> & sent1 & (Hc1 & _) & HF1).
  pose proof (closure_loop_emits allTickets m (batches maxConcurrent allTickets)
                {| closedCount := 0; errorCount := 0; notResolvedCount := 0 |} st2)
    as (sent2 & Hc2 & HF2).
  { intros batch ticket Hb Ht. eapply batches_elem; [|exact Hb|exact Ht].
    unfold maxConcurrent. lia. }
  destruct (closure_loop_total m (batches maxConcurrent allTickets)
              {| closedCount := 0; errorCount := 0; notResolvedCount := 0 |} st2)
    as (c & st3 & E & _).
  rewrite E in Hc2 |- *. cbn [snd] in Hc2.
  assert (HF : Forall (closure_request allTickets) (sent0 ++ sent1 ++ sent2)%list).
  { apply Forall_app. split; [exact HF0'|]. apply Forall_app. split; [|exact HF2].
    eapply Forall_impl; [exact HF1|]. intros r Hr.
    destruct r; cbn in Hr |- *; try contradiction; rewrite Hkeys; exact Hr. }
  exists allTickets, (sent0 ++ sent1 ++ sent2)%list. cbn.
  split; [rewrite Hc2, Hc1, Hc0, <- !app_assoc; reflexivity|].
  split; [exact HF|]. split; [eauto|].
  intros summary H. injection H as <-. reflexivity.
Qed.

(** X22. A page that fails after tickets were fetched does not fail the
    run: when the first page came with tickets and announced more, and the
    search for the next page fails, the run goes on with the tickets of
    the first page. *)
Theorem pagination_failure_keeps_fetched
    (fuel total : nat) (page : list Ticket) (e : exn) (st st1 st2 : State W)
    (resp : Response (BodyOf (JiraSearchOpen 0))) :
  fetchWithRetry fetch (JiraSearchOpen 0) st = (Ok resp, st1) ->
  json resp = Some {| js_issues := Some page; js_total := Some total |} ->
  page <> [] -> length page < total ->
  fetchWithRetry fetch (JiraSearchOpen (length page)) st1 = (Throw e, st2) ->
  fetchAllTickets fetch (S (S fuel)) [] 0 st = (Ok (Some page), st2) ∧
  exists summary st',
    closeResolvedJiraTickets fetch (S (S fuel)) st = (Ok (Some summary), st') ∧
    ticketsChecked summary = length page.
Proof.
  intros Hfirst Hjson Hpage Hmore Hnext.
  assert (Hfetch : fetchAllTickets fetch (S (S fuel)) [] 0 st = (Ok (Some page), st2)).
  { destruct total as [|m']; [lia|].
    assert (Hle : (length page <=? m')%nat = true) by (apply Nat.leb_le; lia).
    cbn [fetchAllTickets]. unfold bind, fetchPage, try_catch, bind.
    rewrite Hfirst. rewrite (fetchWithRetry_ok fetch _ _ _ _ Hfirst). cbn [negb].
    unfold response_json. rewrite Hjson. cbn. rewrite Hle. cbv beta iota.
    rewrite Hnext. destruct page as [|t ts]; [contradiction|]. reflexivity. }
  split; [exact Hfetch|].
  destruct (closeResolvedJiraTickets_after_fetch (S (S fuel)) page st st2 Hfetch)
    as (summary & st' & Hrun & Hchecked & _).
  eauto.
Qed.

(** ** Findings of projects that are not configured *)

(** X23. A finding whose project has no entry in the configuration still
    gets a ticket payload: the component is "Others", there is no
    assignee whatever the cache holds, and the project key stands in for
    the project name. *)
Theorem unconfigured_project_payload
    (projects : list ProjectConfig) (sonarBaseUrl : string)
    (item : Finding) (itemType : ItemType) (cache : gmap string string) :
  (forall p, p ∈ projects -> pc_key p <> project item) ->
  getProjectInfo projects (project item)
  = {| pi_name := project item; pi_assignee := None; pi_component := Some "Others" |} ∧
  jp_components (buildPayload projects sonarBaseUrl item itemType cache) = Some "Others" ∧
  jp_assignee (buildPayload projects sonarBaseUrl item itemType cache) = None ∧
  "Project: " +:+ project item +:+ " (" +:+ project item +:+ ")"
  ∈ jp_description (buildPayload projects sonarBaseUrl item itemType cache).
Proof.
  intros Hnone.
  assert (Hinfo : getProjectInfo projects (project item)
                  = {| pi_name := project item; pi_assignee := None;
                       pi_component := Some "Others" |}).
  { unfold getProjectInfo.
    replace (List.find (fun p => String.eqb (pc_key p) (project item)) projects)
      with (@None ProjectConfig); [reflexivity|].
    symmetry. apply find_nothing. intros p Hp.
    apply String.eqb_neq. apply Hnone. exact Hp. }
  split; [exact Hinfo|].
  unfold buildPayload. cbv zeta. cbn [jp_components jp_assignee jp_description].
  rewrite Hinfo. cbn [pi_name]. split; [reflexivity|]. split; [reflexivity|]. left.
Qed.

(** ** The closer handler *)

(** X9. [ticketCloserHandler] never throws.  It answers 200 with the
    summary the service returned, or 500 with the message of the error the
    service threw; in that case all that was sent are searches for the
    first page of open tickets. *)
Theorem ticketCloserHandler_answers (fuel : nat) (st : State W) :
  exists answer st',
    ticketCloserHandler fetch fuel st = (Ok answer, st') ∧
    match answer with
    | None => closeResolvedJiraTickets fetch fuel st = (Ok None, st')
    | Some response =>
        match body response with
        | CloserSummary message summary =>
            statusCode response = 200 ∧
            closeResolvedJiraTickets fetch fuel st = (Ok (Some summary), st')
        | CloserError error details =>
            statusCode response = 500 ∧
            exists e,
              closeResolvedJiraTickets fetch fuel st = (Throw e, st') ∧
              details = exn_message e ∧
              exists sent, sends st st' sent ∧
                           Forall (fun r => r = JiraSearchOpen 0) sent
        end
    end.
Proof.
  unfold ticketCloserHandler, try_catch, bind.
  destruct (closeResolvedJiraTickets fetch fuel st) as [[[summary|]|e] st1] eqn:Hrun.
  - eexists _, st1. split; [reflexivity|]. cbn. split; reflexivity.
  - eexists _, st1. split; [reflexivity|]. reflexivity.
  - eexists _, st1. split; [reflexivity|]. cbn. split; [reflexivity|].
    exists e. split; [reflexivity|]. split; [reflexivity|].
    destruct (closeResolvedJiraTickets_throws fuel st st1 e Hrun) as [n Hn].
    exists (replicate (S n) (JiraSearchOpen 0)). split; [exact Hn|].
    apply Forall_forall. intros r Hr. apply elem_of_replicate in Hr as [-> _]. reflexivity.
Qed.

(** ** Strings of the ticket builder *)

Lemma string_app_cons (c : ascii) (a b : string) :
  String c a +:+ b = String c (a +:+ b).
Proof. reflexivity. Qed.

Lemma string_length_app (a b : string) :
  String.length (a +:+ b) = String.length a + String.length b.
Proof.
  induction a as [|c a IH]; [reflexivity|].
  change (S (String.length (a +:+ b)) = S (String.length a + String.length b)).
  f_equal. exact IH.
Qed.

Lemma string_app_assoc (a b c : string) : (a +:+ b) +:+ c = a +:+ (b +:+ c).
Proof.
  induction a as [|x a IH]; [reflexivity|].
  change (String x ((a +:+ b) +:+ c) = String x (a +:+ (b +:+ c))).
  f_equal. exact IH.
Qed.

Lemma prefix_of_split (n : nat) (s : string) :
  n <= String.length s ->
  exists dropped, s = prefix_of n s +:+ dropped ∧ String.length (prefix_of n s) = n.
Proof.
  unfold prefix_of. revert s. induction n as [|n IH]; intros s Hn.
  - exists s. destruct s; split; reflexivity.
  - destruct s as [|c s]; [cbn in Hn; lia|].
    destruct (IH s) as (dropped & Hs & Hlen); [cbn in Hn; lia|].
    exists dropped. cbn. rewrite string_app_cons.
    split; [f_equal; exact Hs | f_equal; exact Hlen].
Qed.

(** X10. The ticket summary always fits Jira's limit: it has at most 254
    characters; a text within the limit is kept as it is, and a longer one
    is cut to its first 251 characters followed by three dots. *)
Theorem summaryOf_fits (item : Finding) (fileName : string) :
  String.length (summaryOf item fileName) <= 254 ∧
  (String.length (message item +:+ " in " +:+ fileName) <= 254 ->
     summaryOf item fileName = message item +:+ " in " +:+ fileName) ∧
  (254 < String.length (message item +:+ " in " +:+ fileName) ->
     exists kept dropped,
       message item +:+ " in " +:+ fileName = kept +:+ dropped ∧
       String.length kept = 251 ∧
       summaryOf item fileName = kept +:+ "...").
Proof.
  unfold summaryOf. cbv zeta.
  destruct (Nat.ltb_spec 254 (String.length (message item +:+ " in " +:+ fileName)))
    as [Hlong|Hshort].
  - destruct (prefix_of_split 251 (message item +:+ " in " +:+ fileName))
      as (dropped & Hsplit & Hlen); [lia|].
    split; [rewrite string_length_app, Hlen; cbn; lia|].
    split; [lia|]. intros _.
    exists (prefix_of 251 (message item +:+ " in " +:+ fileName)), dropped.
    split; [exact Hsplit|]. split; [exact Hlen | reflexivity].
  - split; [exact Hshort|]. split; [reflexivity | lia].
Qed.

Lemma blank_app (a b : string) : blank (a +:+ b) = blank a && blank b.
Proof.
  induction a as [|c a IH]; [reflexivity|].
  change (blank (String c a +:+ b)) with (Ascii.is_space c && blank (a +:+ b)).
  rewrite IH. cbn [blank]. rewrite andb_assoc. reflexivity.
Qed.

Lemma blank_rev_app (a b : string) : blank (String.rev_app a b) = blank a && blank b.
Proof.
  revert b. induction a as [|c a IH]; intros b; [reflexivity|].
  change (String.rev_app (String c a) b) with (String.rev_app a (String c b)).
  rewrite IH. cbn [blank]. destruct (Ascii.is_space c), (blank a); reflexivity.
Qed.

Lemma blank_rev (s : string) : blank (String.rev s) = blank s.
Proof. unfold String.rev. rewrite blank_rev_app. cbn. apply andb_true_r. Qed.

Lemma blank_trim_start (s : string) : blank (trim_start s) = blank s.
Proof.
  induction s as [|c s IH]; [reflexivity|].
  cbn. destruct (Ascii.is_space c) eqn:E; cbn; [exact IH | rewrite E; reflexivity].
Qed.

Lemma trim_not_blank (s : string) : blank s = false -> trim s <> "".
Proof.
  intros Hs Htrim.
  assert (Hb : blank (trim s) = false).
  { unfold trim. rewrite blank_rev, blank_trim_start, blank_rev, blank_trim_start.
    exact Hs. }
  rewrite Htrim in Hb. discriminate.
Qed.

Lemma summaryOf_not_blank (item : Finding) (fileName : string) :
  blank (summaryOf item fileName) = false.
Proof.
  unfold summaryOf. cbv zeta.
  destruct (254 <? String.length (message item +:+ " in " +:+ fileName))%nat.
  - rewrite blank_app. replace (blank "...") with false by reflexivity.
    apply andb_false_r.
  - rewrite !blank_app. replace (blank " in ") with false by reflexivity.
    apply andb_false_r.
Qed.

(** X11. The summary of a ticket is never blank, so the check
    "Summary is required" of [createJiraTicket] cannot fail.  The lookup
    in the index is empty exactly when the finding's key has no entry and
    names no member of [Object.prototype], or has the empty ticket key as
    its entry; for such a finding the function always reaches the
    creation request and sends it at least once, and it records a ticket
    key exactly when it returns normally.  For every other finding, also
    one whose key is a name such as [constructor] without any entry, the
    function returns at once and sends nothing. *)
Theorem createJiraTicket_reaches_request
    (projects : list ProjectConfig) (sonarBaseUrl : string)
    (item : Finding) (itemType : ItemType) (st : State W) :
  trim (summaryOf item (last_segment (component item))) <> "" ∧
  (checkIfTicketExists (key item) st = NoTicket <->
     (existingTicketsMap st !! key item = None ∧ key item ∉ objectPrototypeNames)
     ∨ (exists t, existingTicketsMap st !! key item = Some t ∧ truthy t = false)) ∧
  (checkIfTicketExists (key item) st <> NoTicket ->
   createJiraTicket fetch projects sonarBaseUrl item itemType st = (Ok tt, st)) ∧
  (checkIfTicketExists (key item) st = NoTicket ->
   exists n,
     calls (createJiraTicket fetch projects sonarBaseUrl item itemType st).2
     = (calls st ++ replicate (S n)
          (JiraCreateIssue (buildPayload projects sonarBaseUrl item itemType
                              (userAccountCache st))))%list ∧
     match (createJiraTicket fetch projects sonarBaseUrl item itemType st).1 with
     | Ok _ =>
         exists ticketKey,
           createdTickets (createJiraTicket fetch projects sonarBaseUrl item itemType st).2
           = (createdTickets st ++ [ticketKey])%list
     | Throw _ =>
         createdTickets (createJiraTicket fetch projects sonarBaseUrl item itemType st).2
         = createdTickets st
     end).
Proof.
  split; [apply trim_not_blank, summaryOf_not_blank|].
  split; [apply checkIfTicketExists_none|].
  split; [apply createJiraTicket_indexed|].
  intros Hnew. unfold createJiraTicket, bind, get_state. rewrite Hnew.
  cbv zeta.
  assert (Hsum : String.eqb (trim (jp_summary (buildPayload projects sonarBaseUrl item
                                 itemType (userAccountCache st)))) "" = false).
  { apply String.eqb_neq. cbn [buildPayload jp_summary].
    apply trim_not_blank, summaryOf_not_blank. }
  rewrite Hsum.
  destruct (fetchWithRetry_sends fetch
              (JiraCreateIssue (buildPayload projects sonarBaseUrl item itemType
                                  (userAccountCache st))) st) as [n Hn].
  exists n.
  destruct (fetchWithRetry fetch
              (JiraCreateIssue (buildPayload projects sonarBaseUrl item itemType
                                  (userAccountCache st))) st) as [[resp|e] st1];
    cbn [snd] in Hn; destruct Hn as (Hc & _ & _ & _ & Hd);
    [|split; [exact Hc | exact Hd]].
  cbn [BodyOf] in *. destruct (ok resp); cbn [negb]; [|split; [exact Hc | exact Hd]].
  unfold response_json. destruct (json resp) as [data|];
    [|split; [exact Hc | exact Hd]].
  cbn. split; [exact Hc|]. exists (cd_key data). rewrite Hd. reflexivity.
Qed.

Lemma is_colon_eq (c : ascii) : is_colon c = true -> c = ":"%char.
Proof. unfold is_colon. apply Ascii.eqb_eq. Qed.

Lemma last_segment_split (s : string) :
  has_colon (last_segment s) = false ∧
  exists before, s = before +:+ last_segment s ∧
                 (before = "" ∨ exists b, before = b +:+ ":").
Proof.
  induction s as [|c s [IHno (before & IHeq & IHbefore)]].
  - split; [reflexivity|]. exists "". split; [reflexivity | left; reflexivity].
  - cbn [last_segment]. destruct (has_colon s) eqn:Hs.
    + split; [exact IHno|]. exists (String c before).
      split; [rewrite string_app_cons; f_equal; exact IHeq|].
      right. destruct IHbefore as [->|(b & ->)].
      * change ("" +:+ last_segment s) with (last_segment s) in IHeq.
        rewrite <- IHeq, Hs in IHno. discriminate.
      * exists (String c b). reflexivity.
    + destruct (is_colon c) eqn:Hc.
      * split; [exact Hs|]. exists (String c "").
        split; [reflexivity|]. right. exists "".
        apply is_colon_eq in Hc. subst c. reflexivity.
      * split; [cbn; rewrite Hc, Hs; reflexivity|].
        exists "". split; [reflexivity | left; reflexivity].
Qed.

Lemma has_colon_app (a b : string) : has_colon (a +:+ b) = has_colon a || has_colon b.
Proof.
  induction a as [|c a IH]; [reflexivity|].
  rewrite string_app_cons. cbn [has_colon]. rewrite IH. apply orb_assoc.
Qed.

(** X12. The file name put into a ticket is the part of the component
    path after its last colon: it contains no colon, the component ends
    with it, what precedes it is empty or ends with a colon, and a
    component without a colon is taken whole. *)
Theorem last_segment_spec (s : string) :
  has_colon (last_segment s) = false ∧
  (exists before, s = before +:+ last_segment s ∧
                  (before = "" ∨ exists b, before = b +:+ ":")) ∧
  (has_colon s = false -> last_segment s = s).
Proof.
  destruct (last_segment_split s) as [Hno (before & Heq & Hbefore)].
  split; [exact Hno|]. split; [exists before; auto|].
  intros Hs. destruct Hbefore as [->|(b & ->)]; [symmetry; exact Heq|].
  rewrite Heq, !has_colon_app in Hs. cbn in Hs.
  rewrite orb_true_r in Hs. discriminate.
Qed.

(** ** Assignee emails *)

Lemma unique_from_spec (seen l : list string) :
  NoDup (unique_from seen l) ∧
  forall x, x ∈ unique_from seen l <-> x ∈ l ∧ x ∉ seen.
Proof.
  revert seen. induction l as [|y l IH]; intros seen.
  - split; [constructor|]. intros x. cbn. rewrite elem_of_nil. tauto.
  - cbn [unique_from]. destruct (bool_decide_reflect (y ∈ seen)) as [Hy|Hy].
    + destruct (IH seen) as [Hnd Hmem]. split; [exact Hnd|].
      intros x. rewrite Hmem, elem_of_cons. split; [tauto|].
      intros [[->|Hx] Hns]; [contradiction | auto].
    + destruct (IH (y :: seen)) as [Hnd Hmem]. split.
      * constructor; [|exact Hnd]. rewrite Hmem, elem_of_cons. tauto.
      * intros x. rewrite !elem_of_cons, Hmem, elem_of_cons. split.
        -- intros [->|[Hx Hns]]; [auto | tauto].
        -- intros [[->|Hx] Hns]; [auto|].
           destruct (decide (x = y)) as [->|Hne]; [auto | right; tauto].
Qed.

Lemma trim_empty : trim "" = "".
Proof. reflexivity. Qed.

(** X13. The emails looked up are the assignees of the configured
    projects that are not blank, each of them once. *)
Theorem uniqueEmails_spec (projects : list ProjectConfig) :
  NoDup (uniqueEmails projects) ∧
  forall email,
    email ∈ uniqueEmails projects <->
    exists p, p ∈ projects ∧ pc_assignee p = Some email ∧ trim email <> "".
Proof.
  unfold uniqueEmails, unique.
  destruct (unique_from_spec []
              (omap (fun p => match pc_assignee p with
                              | Some a => if truthy a && negb (String.eqb (trim a) "")
                                          then Some a else None
                              | None => None
                              end) projects)) as [Hnd Hmem].
  split; [exact Hnd|]. intros email. rewrite Hmem, list_elem_of_omap. split.
  - intros [(p & Hp & Hsel) _]. exists p. split; [exact Hp|].
    destruct (pc_assignee p) as [a|]; [|discriminate].
    destruct (truthy a && negb (String.eqb (trim a) "")) eqn:Hcond; [|discriminate].
    injection Hsel as ->. split; [reflexivity|].
    apply andb_true_iff in Hcond as [_ Hcond].
    apply negb_true_iff, String.eqb_neq in Hcond. exact Hcond.
  - intros (p & Hp & Ha & Htrim). split; [|apply not_elem_of_nil].
    exists p. split; [exact Hp|]. rewrite Ha.
    assert (Htruthy : truthy email = true).
    { unfold truthy. apply negb_true_iff, String.eqb_neq. intros ->.
      apply Htrim. exact trim_empty. }
    apply String.eqb_neq in Htrim. rewrite Htruthy, Htrim. reflexivity.
Qed.

Lemma lookupJiraUser_run email (st : State W) :
  exists st' sent,
    lookupJiraUser fetch email st = (Ok tt, st') ∧
    calls st' = (calls st ++ sent)%list ∧
    (sent = [] ∨ (cached email st = false ∧
                  exists n, sent = replicate (S n) (JiraUserSearch email))) ∧
    (forall e account,
       userAccountCache st !! e = Some account -> truthy account = true ->
       userAccountCache st' !! e = Some account).
Proof.
  unfold lookupJiraUser, bind, get_state.
  destruct (cached email st) eqn:Hcached.
  { exists st, []. split; [reflexivity|]. split; [rewrite app_nil_r; reflexivity|].
    split; [left; reflexivity | auto]. }
  unfold try_catch, bind.
  destruct (fetchWithRetry_sends fetch (JiraUserSearch email) st) as [n Hn].
  assert (Hsame : forall st1 : State W,
            sends st st1 (replicate (S n) (JiraUserSearch email)) ->
            exists st' sent,
              (Ok tt, st1) = (Ok tt, st') ∧
              calls st' = (calls st ++ sent)%list ∧
              (sent = [] ∨ (false = false ∧
                            exists n, sent = replicate (S n) (JiraUserSearch email))) ∧
              (forall e account,
                 userAccountCache st !! e = Some account -> truthy account = true ->
                 userAccountCache st' !! e = Some account)).
  { intros st1 (Hc & Hu & _). exists st1, (replicate (S n) (JiraUserSearch email)).
    split; [reflexivity|]. split; [exact Hc|]. split; [right; eauto|].
    intros e account He _. rewrite Hu. exact He. }
  destruct (fetchWithRetry fetch (JiraUserSearch email) st) as [[resp|e] st1];
    cbn [snd] in Hn; [|apply Hsame; exact Hn].
  cbn [BodyOf] in *. destruct (ok resp); [|apply Hsame; exact Hn].
  unfold response_json. destruct (json resp) as [[[|user users]|]|];
    try (apply Hsame; exact Hn).
  cbn. destruct Hn as (Hc & Hu & _).
  eexists _, (replicate (S n) (JiraUserSearch email)).
  split; [reflexivity|]. cbn. split; [exact Hc|]. split; [right; eauto|].
  intros e account He Ht. rewrite Hu.
  destruct (decide (e = email)) as [->|Hne].
  - unfold cached in Hcached. rewrite He in Hcached. cbn in Hcached.
    rewrite Ht in Hcached. discriminate.
  - rewrite lookup_insert_ne by congruence. exact He.
Qed.

Lemma lookup_loop_run (st0 : State W) emails :
  forall st : State W,
    (forall e account,
       userAccountCache st0 !! e = Some account -> truthy account = true ->
       userAccountCache st !! e = Some account) ->
    exists st' sent,
      for_of emails (lookupJiraUser fetch) st = (Ok tt, st') ∧
      calls st' = (calls st ++ sent)%list ∧
      Forall (fun r => exists email, email ∈ emails ∧ cached email st0 = false ∧
                                     r = JiraUserSearch email) sent ∧
      (forall e account,
         userAccountCache st0 !! e = Some account -> truthy account = true ->
         userAccountCache st' !! e = Some account).
Proof.
  induction emails as [|email emails IH]; intros st Hmono.
  - exists st, []. split; [reflexivity|]. split; [rewrite app_nil_r; reflexivity|].
    split; [constructor | exact Hmono].
  - cbn [for_of]. unfold bind.
    destruct (lookupJiraUser_run email st) as (st1 & sent1 & -> & Hc1 & Hsent1 & Hk1).
    destruct (IH st1) as (st2 & sent2 & -> & Hc2 & HF2 & Hk2).
    { intros e account He Ht. apply Hk1; [apply Hmono; assumption | exact Ht]. }
    exists st2, (sent1 ++ sent2)%list. split; [reflexivity|].
    split; [rewrite Hc2, Hc1, app_assoc; reflexivity|]. split; [|exact Hk2].
    apply Forall_app. split.
    + destruct Hsent1 as [->|(Hcached & n & ->)]; [constructor|].
      apply Forall_forall. intros r Hr. apply elem_of_replicate in Hr as [-> _].
      exists email. split; [left|]. split; [|reflexivity].
      destruct (cached email st0) eqn:H0; [|reflexivity].
      unfold cached in H0, Hcached.
      destruct (userAccountCache st0 !! email) as [account|] eqn:Hacc; [|discriminate].
      cbn in H0. rewrite (Hmono email account Hacc H0) in Hcached.
      cbn in Hcached. congruence.
    + eapply Forall_impl; [exact HF2|].
      intros r (e & He & Hcached & ->). exists e. split; [right; exact He | auto].
Qed.

(** X14. The user lookup never throws, asks the tracker only about
    configured assignee emails that had no account in the cache when it
    started, and keeps every account that was cached: with all emails
    cached it sends nothing. *)
Theorem lookupJiraUsers_keeps_cache (projects : list ProjectConfig) (st : State W) :
  exists st' sent,
    lookupJiraUsers fetch projects st = (Ok tt, st') ∧
    calls st' = (calls st ++ sent)%list ∧
    Forall (fun r => exists email,
                       email ∈ uniqueEmails projects ∧ cached email st = false ∧
                       r = JiraUserSearch email) sent ∧
    (forall email account,
       userAccountCache st !! email = Some account -> truthy account = true ->
       userAccountCache st' !! email = Some account) ∧
    ((forall email, email ∈ uniqueEmails projects -> cached email st = true) ->
     sent = []).
Proof.
  destruct (lookup_loop_run st (uniqueEmails projects) st)
    as (st' & sent & E & Hc & HF & Hk); [auto|].
  exists st', sent. repeat (split; [assumption|]).
  intros Hall. destruct sent as [|r sent]; [reflexivity|].
  apply Forall_cons in HF as [(email & Hin & Hcached & _) _].
  rewrite (Hall email Hin) in Hcached. discriminate.
Qed.

(** ** The creation run: what is sent and what is returned *)

Section MoreCreation.

Variable projects : list ProjectConfig.
Variable sonarBaseUrl : string.

Lemma indexTicket_nodup ticket (st : State W) :
  NoDup (existingTickets st) -> NoDup (existingTickets (indexTicket ticket st).2).
Proof.
  intros Hnd. unfold indexTicket, try_catch.
  destruct (referenceText ticket) as [sonarKey|]; [|exact Hnd].
  cbn. case_bool_decide as Hin; [exact Hnd|].
  apply NoDup_app. split; [exact Hnd|]. split.
  - intros x Hx Hx'. apply list_elem_of_singleton in Hx'. subst x. contradiction.
  - apply NoDup_singleton.
Qed.

Lemma indexTickets_nodup tickets (st : State W) :
  NoDup (existingTickets st) ->
  NoDup (existingTickets (for_of tickets indexTicket st).2).
Proof.
  revert st. induction tickets as [|ticket tickets IH]; intros st Hnd; [exact Hnd|].
  cbn [for_of]. unfold bind.
  pose proof (indexTicket_nodup ticket st Hnd) as H1.
  destruct (indexTicket_spec ticket st) as (st1 & E & _). rewrite E in H1 |- *.
  apply IH. exact H1.
Qed.

Lemma checkExistingBatch_nodup batch (st : State W) :
  NoDup (existingTickets st) ->
  NoDup (existingTickets (checkExistingBatch fetch batch st).2).
Proof.
  intros Hnd. unfold checkExistingBatch, bind.
  destruct (fetchWithRetry_sends fetch (JiraSearchExisting batch) st)
    as (n & _ & _ & _ & He & _).
  destruct (fetchWithRetry fetch (JiraSearchExisting batch) st) as [[resp|e] st1];
    cbn [snd] in *; [|rewrite He; exact Hnd].
  destruct (ok resp); cbn [negb]; [|cbn; rewrite He; exact Hnd].
  unfold response_json. destruct (json resp) as [searchData|];
    [|cbn; rewrite He; exact Hnd].
  cbv beta iota zeta delta [ret]. destruct (js_issues searchData) as [[|t ts]|];
    try (cbn; rewrite He; exact Hnd).
  apply indexTickets_nodup. rewrite He. exact Hnd.
Qed.

Lemma checkExistingBatches_run (P : Request -> Prop) bs (st : State W) :
  (forall b, b ∈ bs -> P (JiraSearchExisting b)) ->
  let st' := (for_of bs (checkExistingBatch fetch) st).2 in
  emits P st st' ∧
  createdTickets st' = createdTickets st ∧
  userAccountCache st' = userAccountCache st ∧
  (NoDup (existingTickets st) -> NoDup (existingTickets st')).
Proof.
  revert st. induction bs as [|b bs IH]; intros st HP; cbv zeta.
  - cbn. repeat split; auto. apply emits_refl.
  - cbn [for_of]. unfold bind.
    destruct (checkExistingBatch_spec fetch b st) as (n & Hc & Hd & Hu & _).
    cbv zeta in Hc, Hd, Hu.
    pose proof (checkExistingBatch_nodup b st) as Hnd.
    assert (He : emits P st (checkExistingBatch fetch b st).2).
    { exists (replicate (S n) (JiraSearchExisting b)). split; [exact Hc|].
      apply Forall_forall. intros x Hx.
      apply elem_of_replicate in Hx as [-> _]. apply HP. left. }
    destruct (checkExistingBatch fetch b st) as [[[]|e] st1]; cbn [snd] in *.
    + destruct (IH st1) as (He2 & Hd2 & Hu2 & Hnd2).
      { intros b' Hb'. apply HP. right. exact Hb'. }
      cbv zeta in He2, Hd2, Hu2, Hnd2.
      rewrite Hd2, Hu2. repeat split; auto.
      eapply emits_trans; eauto.
    + repeat split; auto.
Qed.

Lemma checkExistingTickets_run (P : Request -> Prop) allSonarKeys (st : State W) :
  (forall b, b ∈ batches maxBatchSize allSonarKeys -> P (JiraSearchExisting b)) ->
  exists st', checkExistingTickets fetch allSonarKeys st = (Ok tt, st') ∧
    emits P st st' ∧
    createdTickets st' = createdTickets st ∧
    userAccountCache st' = userAccountCache st ∧
    (NoDup (existingTickets st) -> NoDup (existingTickets st')).
Proof.
  intros HP. unfold checkExistingTickets.
  destruct allSonarKeys as [|k ks].
  - exists st. repeat split; auto. apply emits_refl.
  - unfold try_catch.
    pose proof (checkExistingBatches_run P (batches maxBatchSize (k :: ks)) st HP) as H.
    cbv zeta in H.
    destruct (for_of (batches maxBatchSize (k :: ks)) (checkExistingBatch fetch) st)
      as [[[]|e] st1]; cbn [snd] in H; exists st1; split; try reflexivity; exact H.
Qed.

Lemma guarded_create_run (P : Request -> Prop) item itemType (st : State W) :
  (forall cache,
     P (JiraCreateIssue (buildPayload projects sonarBaseUrl item itemType cache))) ->
  exists st' sent new,
    try_catch (createJiraTicket fetch projects sonarBaseUrl item itemType)
      (fun error => ret tt) st = (Ok tt, st') ∧
    calls st' = (calls st ++ sent)%list ∧ Forall P sent ∧
    userAccountCache st' = userAccountCache st ∧
    existingTicketsMap st' = existingTicketsMap st ∧
    existingTickets st' = existingTickets st ∧
    createdTickets st' = (createdTickets st ++ new)%list ∧ length new <= 1 ∧
    (checkIfTicketExists (key item) st = NoTicket ->
     Exists (fun r => creates_for (key item) r = true) sent).
Proof.
  intros HP. unfold try_catch, createJiraTicket, bind, get_state.
  destruct (checkIfTicketExists (key item) st) as [t| |] eqn:Hidx.
  1,2: exists st, [], []; split; [reflexivity|]; rewrite !app_nil_r;
       repeat split; auto; discriminate.
  cbv zeta.
  assert (Hsum : String.eqb (trim (jp_summary (buildPayload projects sonarBaseUrl item
                                 itemType (userAccountCache st)))) "" = false).
  { apply String.eqb_neq. cbn [buildPayload jp_summary].
    apply trim_not_blank, summaryOf_not_blank. }
  rewrite Hsum.
  destruct (fetchWithRetry_sends fetch
              (JiraCreateIssue (buildPayload projects sonarBaseUrl item itemType
                                  (userAccountCache st))) st)
    as (n & Hc & Hu & Hm & He & Hd).
  assert (HF : Forall P (replicate (S n)
                 (JiraCreateIssue (buildPayload projects sonarBaseUrl item itemType
                                     (userAccountCache st))))).
  { apply Forall_forall. intros r Hr. apply elem_of_replicate in Hr as [-> _].
    apply HP. }
  assert (HE : Exists (fun r => creates_for (key item) r = true)
                 (replicate (S n)
                    (JiraCreateIssue (buildPayload projects sonarBaseUrl item itemType
                                        (userAccountCache st))))).
  { apply Exists_cons_hd. cbn. apply String.eqb_refl. }
  assert (Hfail : forall st1 : State W,
            calls st1 = (calls st ++ replicate (S n)
                           (JiraCreateIssue (buildPayload projects sonarBaseUrl item
                                               itemType (userAccountCache st))))%list ->
            userAccountCache st1 = userAccountCache st ->
            existingTicketsMap st1 = existingTicketsMap st ->
            existingTickets st1 = existingTickets st ->
            createdTickets st1 = createdTickets st ->
            exists st' sent new,
              (Ok tt, st1) = (Ok tt, st') ∧
              calls st' = (calls st ++ sent)%list ∧ Forall P sent ∧
              userAccountCache st' = userAccountCache st ∧
              existingTicketsMap st' = existingTicketsMap st ∧
              existingTickets st' = existingTickets st ∧
              createdTickets st' = (createdTickets st ++ new)%list ∧ length new <= 1 ∧
              (NoTicket = NoTicket ->
               Exists (fun r => creates_for (key item) r = true) sent)).
  { intros st1 H1 H2 H3 H4 H5.
    exists st1, (replicate (S n)
                   (JiraCreateIssue (buildPayload projects sonarBaseUrl item
                                       itemType (userAccountCache st)))), [].
    split; [reflexivity|]. rewrite app_nil_r. repeat split; auto. }
  destruct (fetchWithRetry fetch
              (JiraCreateIssue (buildPayload projects sonarBaseUrl item itemType
                                  (userAccountCache st))) st) as [[resp|e] st1];
    cbn [snd] in *; [|apply Hfail; assumption].
  cbn [BodyOf] in *. destruct (ok resp); cbn [negb]; [|apply Hfail; assumption].
  unfold response_json. destruct (json resp) as [data|]; [|apply Hfail; assumption].
  cbn. eexists _, _, [cd_key data]. split; [reflexivity|]. cbn.
  rewrite Hd. repeat split; eauto.
Qed.

Lemma processItems_run (P : Request -> Prop) items itemType (st : State W) :
  (forall item cache, item ∈ items ->
     P (JiraCreateIssue (buildPayload projects sonarBaseUrl item itemType cache))) ->
  exists st' sent new,
    processItems fetch projects sonarBaseUrl items itemType st = (Ok tt, st') ∧
    calls st' = (calls st ++ sent)%list ∧ Forall P sent ∧
    userAccountCache st' = userAccountCache st ∧
    existingTicketsMap st' = existingTicketsMap st ∧
    existingTickets st' = existingTickets st ∧
    createdTickets st' = (createdTickets st ++ new)%list ∧
    length new <= length items ∧
    (forall item, item ∈ items -> checkIfTicketExists (key item) st = NoTicket ->
       Exists (fun r => creates_for (key item) r = true) sent).
Proof.
  unfold processItems. revert st.
  induction items as [|item items IH]; intros st HP.
  - exists st, [], []. split; [reflexivity|]. rewrite !app_nil_r.
    repeat split; auto. intros item Hin. apply elem_of_nil in Hin. contradiction.
  - cbn [for_of]. unfold bind.
    destruct (guarded_create_run P item itemType st)
      as (st1 & sent1 & new1 & -> & Hc1 & HF1 & Hu1 & Hm1 & He1 & Hd1 & Hl1 & Hx1).
    { intros cache. apply HP. left. }
    destruct (IH st1) as (st2 & sent2 & new2 & -> & Hc2 & HF2 & Hu2 & Hm2 & He2 & Hd2
                          & Hl2 & Hx2).
    { intros item' cache Hin. apply HP. right. exact Hin. }
    exists st2, (sent1 ++ sent2)%list, (new1 ++ new2)%list.
    split; [reflexivity|].
    split; [rewrite Hc2, Hc1, app_assoc; reflexivity|].
    split; [apply Forall_app; auto|].
    split; [congruence|]. split; [congruence|]. split; [congruence|].
    split; [rewrite Hd2, Hd1, app_assoc; reflexivity|].
    split; [rewrite length_app; cbn [length]; lia|].
    intros item' Hin Hidx. apply Exists_app.
    apply elem_of_cons in Hin as [->|Hin].
    + left. apply Hx1. exact Hidx.
    + right. apply (Hx2 item' Hin).
      rewrite (checkIfTicketExists_same_index _ st st1 Hm1). exact Hidx.
Qed.

Lemma createJiraTickets_run (sonarData : SonarData) (st : State W) :
  exists result st' sent,
    createJiraTickets fetch projects sonarBaseUrl (Some sonarData) st
      = (Ok result, st') ∧
    calls st' = (calls st ++ sent)%list ∧
    Forall (creation_request (uniqueEmails projects) sonarData) sent ∧
    created result = createdTickets st' ∧
    existing result = existingTickets st' ∧
    NoDup (existing result) ∧
    length (created result) <= length (issues sonarData ++ hotspots sonarData)%list ∧
    (forall item, item ∈ (issues sonarData ++ hotspots sonarData)%list ->
       checkIfTicketExists (key item) st' = NoTicket ->
       Exists (fun r => creates_for (key item) r = true) sent) ∧
    (forall k, (exists t, existingTicketsMap st' !! k = Some t ∧ truthy t = true)
               ∨ (existingTicketsMap st' !! k = None ∧ k ∈ objectPrototypeNames) ->
       Forall (fun r => creates_for k r = false) sent).
Proof.
  unfold createJiraTickets, try_catch, createJiraTickets_try, bind.
  destruct (lookup_loop_run st (uniqueEmails projects) st)
    as (st1 & sent1 & E1 & Hc1 & HF1 & _); [auto|].
  unfold lookupJiraUsers. rewrite E1.
  unfold init_locals, modify.
  set (st2 := {| world := world st1; calls := calls st1;
                 userAccountCache := userAccountCache st1;
                 existingTicketsMap := ∅; existingTickets := [];
                 createdTickets := [] |}).
  destruct (checkExistingTickets_run
              (fun r => creation_request (uniqueEmails projects) sonarData r
                        ∧ is_create r = false)
              (map key (issues sonarData) ++ map key (hotspots sonarData))%list st2)
    as (st3 & -> & (sent3 & Hc3 & HF3) & Hd3 & _ & Hnd3).
  { intros b Hb. split; [exact Hb | reflexivity]. }
  destruct (processItems_spec fetch projects sonarBaseUrl (issues sonarData) issue st3)
    as (st4' & Hspec4 & _ & _ & (s4 & Hs4 & HR4)).
  destruct (processItems_run (creation_request (uniqueEmails projects) sonarData)
              (issues sonarData) issue st3)
    as (st4 & sent4 & new4 & Hrun4 & Hc4 & HF4 & _ & Hm4 & He4 & Hd4 & Hl4 & Hx4).
  { intros item cache Hin. cbn. exists item.
    split; [apply elem_of_app; left; exact Hin|]. repeat split. }
  rewrite Hrun4 in Hspec4. injection Hspec4 as <-.
  assert (s4 = sent4) as ->
    by (apply (app_inv_head (calls st3)); rewrite <- Hs4, <- Hc4; reflexivity).
  destruct (processItems_spec fetch projects sonarBaseUrl (hotspots sonarData) hotspot st4)
    as (st5' & Hspec5 & _ & _ & (s5 & Hs5 & HR5)).
  destruct (processItems_run (creation_request (uniqueEmails projects) sonarData)
              (hotspots sonarData) hotspot st4)
    as (st5 & sent5 & new5 & Hrun5 & Hc5 & HF5 & _ & Hm5 & He5 & Hd5 & Hl5 & Hx5).
  { intros item cache Hin. cbn. exists item.
    split; [apply elem_of_app; right; exact Hin|]. repeat split. }
  rewrite Hrun5 in Hspec5. injection Hspec5 as <-.
  assert (s5 = sent5) as ->
    by (apply (app_inv_head (calls st4)); rewrite <- Hs5, <- Hc5; reflexivity).
  rewrite Hrun4, Hrun5.
  unfold get_state, ret.
  eexists _, st5, (sent1 ++ sent3 ++ sent4 ++ sent5)%list.
  split; [reflexivity|]. cbn [created existing].
  split; [rewrite Hc5, Hc4, Hc3; subst st2; cbn [calls]; rewrite Hc1, !app_assoc;
          reflexivity|].
  split.
  { apply Forall_app. split.
    - eapply Forall_impl; [exact HF1|]. intros r (email & Hin & _ & ->). exact Hin.
    - apply Forall_app. split; [|apply Forall_app; split; assumption].
      eapply Forall_impl; [exact HF3|]. intros r [Hr _]. exact Hr. }
  split; [reflexivity|]. split; [reflexivity|].
  split; [rewrite He5, He4; apply Hnd3; subst st2; constructor|].
  split.
  { rewrite Hd5, Hd4, Hd3. subst st2. cbn [createdTickets app].
    rewrite !length_app. lia. }
  split.
  - intros item Hin Hidx. apply Exists_app. right. apply Exists_app. right.
    apply Exists_app.
    assert (Hidx4 : checkIfTicketExists (key item) st4 = NoTicket).
    { rewrite <- (checkIfTicketExists_same_index _ st4 st5 Hm5). exact Hidx. }
    apply elem_of_app in Hin as [Hin|Hin].
    + left. apply (Hx4 item Hin).
      rewrite <- (checkIfTicketExists_same_index _ st3 st4 Hm4). exact Hidx4.
    + right. apply (Hx5 item Hin). exact Hidx4.
  - intros k Hk. rewrite Hm5, Hm4 in Hk. rewrite Hm4 in HR5.
    apply Forall_app. split; [|apply Forall_app; split; [|apply Forall_app; split]].
    + eapply Forall_impl; [exact HF1|]. intros r (email & _ & _ & ->). reflexivity.
    + eapply Forall_impl; [exact HF3|]. intros r [_ Hr].
      destruct r; cbn in *; congruence.
    + eapply Forall_impl; [exact HR4|]. intros r Hr. apply (Hr k Hk).
    + eapply Forall_impl; [exact HR5|]. intros r Hr. apply (Hr k Hk).
Qed.

(** X15. A creation run sends nothing but user searches for configured
    assignee emails, existence searches for batches of the findings' keys
    and creation requests that carry the key of one of the findings, in
    project LV with issue type Bug.  The [existing] list it returns has no
    duplicates, and [created] has at most one ticket per finding. *)
Theorem createJiraTickets_requests (sonarData : SonarData) (st : State W) :
  exists result st' sent,
    createJiraTickets fetch projects sonarBaseUrl (Some sonarData) st
      = (Ok result, st') ∧
    calls st' = (calls st ++ sent)%list ∧
    Forall (creation_request (uniqueEmails projects) sonarData) sent ∧
    Forall (fun r => is_transition_apply r = false ∧ is_comment r = false) sent ∧
    NoDup (existing result) ∧
    length (created result) <= length (issues sonarData ++ hotspots sonarData)%list.
Proof.
  destruct (createJiraTickets_run sonarData st)
    as (result & st' & sent & E & Hc & HF & _ & _ & Hnd & Hlen & _ & _).
  exists result, st', sent. repeat (split; [assumption|]).
  split; [|split; assumption].
  eapply Forall_impl; [exact HF|].
  intros r Hr. destruct r; cbn in Hr; try contradiction; split; reflexivity.
Qed.

(** X16. A creation run attempts a ticket for every finding for which
    the lookup in its index is empty, whatever happens to the other
    findings: when the finding's key has no entry in the index and names
    no member of [Object.prototype], at least one creation request
    carrying the key is sent.  A finding whose key has no entry but names
    such a member ([constructor], [toString], [__proto__], ...) is
    skipped like an indexed one: no creation request carries its key. *)
Theorem createJiraTickets_attempts_unindexed (sonarData : SonarData) (st : State W) :
  exists result st' sent,
    createJiraTickets fetch projects sonarBaseUrl (Some sonarData) st
      = (Ok result, st') ∧
    calls st' = (calls st ++ sent)%list ∧
    (forall item, item ∈ (issues sonarData ++ hotspots sonarData)%list ->
       existingTicketsMap st' !! key item = None ->
       key item ∉ objectPrototypeNames ->
       exists r, r ∈ sent ∧ creates_for (key item) r = true) ∧
    (forall item, item ∈ (issues sonarData ++ hotspots sonarData)%list ->
       existingTicketsMap st' !! key item = None ->
       key item ∈ objectPrototypeNames ->
       Forall (fun r => creates_for (key item) r = false) sent).
Proof.
  destruct (createJiraTickets_run sonarData st)
    as (result & st' & sent & E & Hc & _ & _ & _ & _ & _ & Hx & Hskip).
  exists result, st', sent. repeat (split; [assumption|]).
  split.
  - intros item Hin Hnone Hown. apply Exists_exists. apply Hx; [assumption|].
    apply checkIfTicketExists_none. left. auto.
  - intros item Hin Hnone Hinh. apply Hskip. right. auto.
Qed.

(** *** Findings that already have a ticket *)




Section FixedSearch.

Variable searchAnswer : list string -> FetchOutcome JiraSearchData.
Hypothesis search_fixed :
  forall batch w, (fetch (JiraSearchExisting batch) w).1 = searchAnswer batch.





End FixedSearch.

End MoreCreation.

End MoreProofs.

(** ** Environment variables *)

(** X17. [validateEnvironmentVariables] accepts an environment exactly
    when every required variable is set to a non-empty value; otherwise
    its error names the required variables that are unset or empty, in the
    order required, separated by commas. *)
Theorem validateEnvironmentVariables_spec
    (envVars : gmap string string) (requiredVars : list string) :
  (validateEnvironmentVariables envVars requiredVars = Ok tt <->
     forall v, v ∈ requiredVars -> exists s, envVars !! v = Some s ∧ s <> "") ∧
  (forall e, validateEnvironmentVariables envVars requiredVars = Throw e ->
     missingVars envVars requiredVars <> [] ∧
     (forall v, v ∈ missingVars envVars requiredVars <->
                v ∈ requiredVars ∧ (envVars !! v = None ∨ envVars !! v = Some "")) ∧
     e = Error ("Missing required environment variables: "
                +:+ String.concat ", " (missingVars envVars requiredVars))).
Proof.
  assert (Hfalsy : forall v, truthy_opt (envVars !! v) = false <->
                             envVars !! v = None ∨ envVars !! v = Some "").
  { intros v. destruct (envVars !! v) as [s|]; cbn.
    - unfold truthy. rewrite negb_false_iff, String.eqb_eq. split.
      + intros ->. right. reflexivity.
      + intros [H|H]; [discriminate | injection H as ->; reflexivity].
    - split; auto. }
  assert (Hmem : forall v, v ∈ missingVars envVars requiredVars <->
                   v ∈ requiredVars ∧ (envVars !! v = None ∨ envVars !! v = Some "")).
  { intros v. unfold missingVars. rewrite list_elem_of_filter, Hfalsy. tauto. }
  unfold validateEnvironmentVariables. split.
  - destruct (missingVars envVars requiredVars) as [|m ms] eqn:Hmiss.
    + split; [intros _|reflexivity]. intros v Hv.
      destruct (envVars !! v) as [s|] eqn:Hs.
      * exists s. split; [reflexivity|]. intros ->.
        assert (Hin : v ∈ @nil string); [|apply elem_of_nil in Hin; contradiction].
        apply Hmem. split; [exact Hv | right; exact Hs].
      * assert (Hin : v ∈ @nil string); [|apply elem_of_nil in Hin; contradiction].
        apply Hmem. split; [exact Hv | left; exact Hs].
    + split; [discriminate|]. intros Hall. exfalso.
      assert (Hin : m ∈ m :: ms) by left.
      apply Hmem in Hin as [Hreq Hbad].
      destruct (Hall m Hreq) as (s & Hs & Hne).
      destruct Hbad as [Hbad|Hbad]; rewrite Hs in Hbad; [discriminate|].
      injection Hbad as ->. contradiction.
  - intros e. destruct (missingVars envVars requiredVars) as [|m ms] eqn:Hmiss;
      [discriminate|].
    intros H. injection H as <-. split; [discriminate|]. split; [exact Hmem|].
    reflexivity.
Qed.

(** ** Collecting findings *)

Section CollectorProofs.

Context {W : Type}.
Variable fetch :
  forall q : Collector.Query, W -> FetchOutcome (Collector.PageOf q) * W.

Lemma collector_retry_loop q n (st : Collector.State W) :
  exists k, 1 <= k <= S n ∧
    Collector.queries (Collector.fetchWithRetry_loop fetch q (S n) st).2
    = (Collector.queries st ++ replicate k q)%list ∧
    match (Collector.fetchWithRetry_loop fetch q (S n) st).1 with
    | Ok (Some resp) => ok resp = true
    | Ok None => False
    | Throw _ => True
    end.
Proof.
  revert st. induction n as [|n IH]; intros st.
  - cbn [Collector.fetchWithRetry_loop]. unfold Collector.do_fetch.
    exists 1. split; [lia|].
    destruct (fetch q (Collector.world st)) as [[e|resp] w']; cbv beta iota zeta.
    + cbn. auto.
    + destruct (ok resp) eqn:Hok; cbn; auto.
  - change (Collector.fetchWithRetry_loop fetch q (S (S n)) st) with
      (match Collector.do_fetch fetch q st with
       | (Ok response, st') =>
           if ok response then (Ok (Some response), st')
           else Collector.fetchWithRetry_loop fetch q (S n) st'
       | (Throw error, st') => Collector.fetchWithRetry_loop fetch q (S n) st'
       end).
    unfold Collector.do_fetch.
    destruct (fetch q (Collector.world st)) as [[e|resp] w']; cbv beta iota zeta.
    + destruct (IH {| Collector.world := w';
                      Collector.queries := (Collector.queries st ++ [q])%list |})
        as (k & Hle & Hq & Hres).
      exists (S k). split; [lia|]. split; [|exact Hres].
      rewrite Hq. cbn [Collector.queries]. rewrite <- app_assoc. reflexivity.
    + destruct (ok resp) eqn:Hok.
      { exists 1. cbn. split; [lia|]. auto. }
      destruct (IH {| Collector.world := w';
                      Collector.queries := (Collector.queries st ++ [q])%list |})
        as (k & Hle & Hq & Hres).
      exists (S k). split; [lia|]. split; [|exact Hres].
      rewrite Hq. cbn [Collector.queries]. rewrite <- app_assoc. reflexivity.
Qed.

Lemma collector_retry q (st : Collector.State W) :
  exists k, 1 <= k <= 3 ∧
    Collector.queries (Collector.fetchWithRetry fetch q st).2
    = (Collector.queries st ++ replicate k q)%list ∧
    match (Collector.fetchWithRetry fetch q st).1 with
    | Ok resp => ok resp = true
    | Throw _ => True
    end.
Proof.
  destruct (collector_retry_loop q 2 st) as (k & Hle & Hq & Hres).
  exists k. unfold Collector.fetchWithRetry, Collector.bind.
  destruct (Collector.fetchWithRetry_loop fetch q 3 st) as [[[resp|]|e] st1];
    cbn [fst snd] in *; [auto | contradiction | auto].
Qed.

Lemma fetchProjectIssues_run projectKey allIssues (st : Collector.State W) :
  exists found st' k,
    Collector.fetchProjectIssues fetch projectKey allIssues st
    = (Ok (allIssues ++ found)%list, st') ∧
    1 <= k <= 3 ∧
    Collector.queries st'
    = (Collector.queries st ++ replicate k (Collector.ProjectIssues projectKey))%list.
Proof.
  unfold Collector.fetchProjectIssues, Collector.try_catch, Collector.bind.
  destruct (collector_retry (Collector.ProjectIssues projectKey) st) as (k & Hk & Hq & _).
  assert (Hkeep : forall st1 : Collector.State W,
            Collector.queries st1
            = (Collector.queries st
               ++ replicate k (Collector.ProjectIssues projectKey))%list ->
            exists found st' k',
              (Ok allIssues, st1) = (Ok (allIssues ++ found)%list, st') ∧
              1 <= k' <= 3 ∧
              Collector.queries st'
              = (Collector.queries st
                 ++ replicate k' (Collector.ProjectIssues projectKey))%list).
  { intros st1 H1. exists [], st1, k. rewrite app_nil_r. auto. }
  destruct (Collector.fetchWithRetry fetch (Collector.ProjectIssues projectKey) st)
    as [[resp|e] st1]; cbn [snd] in Hq; [|apply Hkeep; exact Hq].
  cbn [Collector.PageOf] in *. destruct (ok resp); cbn [negb]; [|apply Hkeep; exact Hq].
  unfold Collector.response_json.
  destruct (json resp) as [issueData|]; [|apply Hkeep; exact Hq].
  cbn. destruct (default [] (Collector.page_issues issueData)) as [|f fs];
    [apply Hkeep; exact Hq|].
  exists (f :: fs), st1, k. auto.
Qed.

Lemma fetchProjectHotspots_run projectKey allHotspots (st : Collector.State W) :
  exists found st' k,
    Collector.fetchProjectHotspots fetch projectKey allHotspots st
    = (Ok (allHotspots ++ found)%list, st') ∧
    1 <= k <= 3 ∧
    Collector.queries st'
    = (Collector.queries st ++ replicate k (Collector.ProjectHotspots projectKey))%list.
Proof.
  unfold Collector.fetchProjectHotspots, Collector.try_catch, Collector.bind.
  destruct (collector_retry (Collector.ProjectHotspots projectKey) st)
    as (k & Hk & Hq & _).
  assert (Hkeep : forall st1 : Collector.State W,
            Collector.queries st1
            = (Collector.queries st
               ++ replicate k (Collector.ProjectHotspots projectKey))%list ->
            exists found st' k',
              (Ok allHotspots, st1) = (Ok (allHotspots ++ found)%list, st') ∧
              1 <= k' <= 3 ∧
              Collector.queries st'
              = (Collector.queries st
                 ++ replicate k' (Collector.ProjectHotspots projectKey))%list).
  { intros st1 H1. exists [], st1, k. rewrite app_nil_r. auto. }
  destruct (Collector.fetchWithRetry fetch (Collector.ProjectHotspots projectKey) st)
    as [[resp|e] st1]; cbn [snd] in Hq; [|apply Hkeep; exact Hq].
  cbn [Collector.PageOf] in *. destruct (ok resp); cbn [negb]; [|apply Hkeep; exact Hq].
  unfold Collector.response_json.
  destruct (json resp) as [hotspotData|]; [|apply Hkeep; exact Hq].
  cbn. destruct (default [] (Collector.page_hotspots hotspotData)) as [|f fs];
    [apply Hkeep; exact Hq|].
  exists (f :: fs), st1, k. auto.
Qed.

Lemma processSingleProject_run projectKey collected (st : Collector.State W) :
  exists foundIssues foundHotspots st' sent,
    Collector.processSingleProject fetch projectKey collected st
    = (Ok ((collected.1 ++ foundIssues)%list, (collected.2 ++ foundHotspots)%list), st') ∧
    Collector.queries st' = (Collector.queries st ++ sent)%list ∧
    Collector.project_queries projectKey sent.
Proof.
  unfold Collector.processSingleProject, Collector.bind.
  destruct (fetchProjectIssues_run projectKey collected.1 st)
    as (foundIssues & st1 & i & -> & Hi & Hq1).
  destruct (fetchProjectHotspots_run projectKey collected.2 st1)
    as (foundHotspots & st2 & h & -> & Hh & Hq2).
  exists foundIssues, foundHotspots, st2,
    (replicate i (Collector.ProjectIssues projectKey)
     ++ replicate h (Collector.ProjectHotspots projectKey))%list.
  split; [reflexivity|]. split; [rewrite Hq2, Hq1, app_assoc; reflexivity|].
  exists i, h. auto.
Qed.

(** X18. [processSingleProject] never throws and only adds to the two
    collections.  The hotspot search is made whatever became of the issue
    search: the project's issue search is sent one to three times, then
    its hotspot search one to three times, and nothing else. *)
Theorem processSingleProject_contained
    (projectKey : string) (allIssues allHotspots : list Finding)
    (st : Collector.State W) :
  exists foundIssues foundHotspots st' sent,
    Collector.processSingleProject fetch projectKey (allIssues, allHotspots) st
    = (Ok ((allIssues ++ foundIssues)%list, (allHotspots ++ foundHotspots)%list), st') ∧
    Collector.queries st' = (Collector.queries st ++ sent)%list ∧
    Collector.project_queries projectKey sent ∧
    (exists n, sent !! n = Some (Collector.ProjectHotspots projectKey)).
Proof.
  destruct (processSingleProject_run projectKey (allIssues, allHotspots) st)
    as (foundIssues & foundHotspots & st' & sent & E & Hq & Hsent).
  exists foundIssues, foundHotspots, st', sent. repeat (split; [assumption|]).
  destruct Hsent as (i & h & Hi & Hh & ->). exists i.
  rewrite lookup_app_r by (rewrite length_replicate; lia).
  rewrite length_replicate, Nat.sub_diag.
  destruct h as [|h]; [lia | reflexivity].
Qed.

Variable projects : list ProjectConfig.

Lemma collect_loop_run (ps : list ProjectConfig) collected (st : Collector.State W) :
  exists foundIssues foundHotspots st' sent,
    Collector.for_acc ps
      (fun project => Collector.processSingleProject fetch (pc_key project)) collected st
    = (Ok ((collected.1 ++ foundIssues)%list, (collected.2 ++ foundHotspots)%list), st') ∧
    Collector.queries st' = (Collector.queries st ++ sent)%list ∧
    Collector.run_queries (map pc_key ps) sent.
Proof.
  revert collected st. induction ps as [|p ps IH]; intros collected st.
  - exists [], [], st, []. cbn. rewrite !app_nil_r. destruct collected. auto.
  - cbn [Collector.for_acc]. unfold Collector.bind.
    destruct (processSingleProject_run (pc_key p) collected st)
      as (fi1 & fh1 & st1 & sent1 & -> & Hq1 & Hs1).
    destruct (IH ((collected.1 ++ fi1)%list, (collected.2 ++ fh1)%list) st1)
      as (fi2 & fh2 & st2 & sent2 & -> & Hq2 & Hs2).
    exists (fi1 ++ fi2)%list, (fh1 ++ fh2)%list, st2, (sent1 ++ sent2)%list.
    cbn [fst snd]. rewrite <- !app_assoc. split; [reflexivity|].
    split; [rewrite Hq2, Hq1, <- app_assoc; reflexivity|].
    cbn [map Collector.run_queries]. exists sent1, sent2. auto.
Qed.

Lemma fetchSonarData_run
    (envVars : gmap string string) (projectList : list ProjectConfig)
    (st : Collector.State W) :
  match validateEnvironmentVariables envVars requiredEnvVars with
  | Throw e =>
      Collector.fetchSonarData fetch projects envVars projectList st = (Throw e, st)
  | Ok _ =>
      exists data st' sent,
        Collector.fetchSonarData fetch projects envVars projectList st = (Ok data, st') ∧
        Collector.queries st' = (Collector.queries st ++ sent)%list ∧
        Collector.run_queries
          (Collector.scannedProjects projects envVars projectList) sent ∧
        (Collector.scannedProjects projects envVars projectList = [] ->
         st' = st ∧ data = {| issues := []; hotspots := [] |})
  end.
Proof.
  unfold Collector.fetchSonarData.
  destruct (validateEnvironmentVariables envVars requiredEnvVars) as [[]|e];
    [|reflexivity].
  unfold Collector.try_catch, Collector.fetchSonarData_try, Collector.scannedProjects.
  assert (Hloop : forall p ps,
            exists data st' sent,
              match
                Collector.bind
                  (Collector.for_acc (p :: ps)
                     (fun project =>
                        Collector.processSingleProject fetch (pc_key project)) ([], []))
                  (fun collected =>
                     Collector.ret {| issues := collected.1; hotspots := collected.2 |})
                  st
              with
              | (Ok a, st') => (Ok a, st')
              | (Throw e, st') =>
                  Collector.throw
                    (Error ("SonarQube fetch failed: " +:+ exn_message e)) st'
              end = (Ok data, st') ∧
              Collector.queries st' = (Collector.queries st ++ sent)%list ∧
              Collector.run_queries (map pc_key (p :: ps)) sent ∧
              (map pc_key (p :: ps) = [] ->
               st' = st ∧ data = {| issues := []; hotspots := [] |})).
  { intros p ps. unfold Collector.bind.
    destruct (collect_loop_run (p :: ps) ([], []) st)
      as (fi & fh & st' & sent & -> & Hq & Hs).
    eexists _, st', sent. split; [reflexivity|]. split; [exact Hq|].
    split; [exact Hs | discriminate]. }
  destruct projectList as [|p ps]; [|apply Hloop].
  destruct (filter (fun project => pc_isChecked project = true) projects) as [|p ps];
    [|apply Hloop].
  assert (Hnone : exists data st' sent,
            (Ok {| issues := []; hotspots := [] |}, st) = (Ok data, st') ∧
            Collector.queries st' = (Collector.queries st ++ sent)%list ∧
            Collector.run_queries [] sent ∧
            (@nil string = [] -> st' = st ∧ data = {| issues := []; hotspots := [] |})).
  { exists {| issues := []; hotspots := [] |}, st, []. rewrite app_nil_r.
    cbn. auto. }
  destruct (envVars !! "SONARQUBE_PROJECT_KEY") as [fallback|]; [|exact Hnone].
  destruct (truthy fallback); [|exact Hnone].
  unfold Collector.bind.
  destruct (processSingleProject_run fallback ([], []) st)
    as (fi & fh & st' & sent & -> & Hq & Hs).
  eexists _, st', sent. split; [reflexivity|]. split; [exact Hq|].
  split; [|discriminate].
  cbn [Collector.run_queries]. exists sent, []. rewrite app_nil_r. auto.
Qed.

(** X19. [fetchSonarData] fails only on an incomplete environment, and
    then before any query.  Otherwise it returns, having queried exactly
    the projects to scan, one after the other, each with its issue search
    first and its hotspot search second; with no project to scan it sends
    nothing. *)
Theorem fetchSonarData_outcome
    (envVars : gmap string string) (projectList : list ProjectConfig)
    (st : Collector.State W) :
  match validateEnvironmentVariables envVars requiredEnvVars with
  | Throw e =>
      Collector.fetchSonarData fetch projects envVars projectList st = (Throw e, st)
  | Ok _ =>
      exists data st' sent,
        Collector.fetchSonarData fetch projects envVars projectList st = (Ok data, st') ∧
        Collector.queries st' = (Collector.queries st ++ sent)%list ∧
        Collector.run_queries
          (Collector.scannedProjects projects envVars projectList) sent ∧
        (Collector.scannedProjects projects envVars projectList = [] ->
         st' = st ∧ data = {| issues := []; hotspots := [] |})
  end.
Proof. apply fetchSonarData_run. Qed.

Section FixedProjectAnswers.

Variable issuesAnswer : string -> FetchOutcome Collector.IssuesPage.
Variable hotspotsAnswer : string -> FetchOutcome Collector.HotspotsPage.
Hypothesis issues_fixed :
  forall k w, (fetch (Collector.ProjectIssues k) w).1 = issuesAnswer k.
Hypothesis hotspots_fixed :
  forall k w, (fetch (Collector.ProjectHotspots k) w).1 = hotspotsAnswer k.

Lemma collector_retry_loop_stationary q o n :
  (forall w, (fetch q w).1 = o) ->
  forall st, (Collector.fetchWithRetry_loop fetch q (S n) st).1 = settled_loop o.
Proof.
  intros Hstat. induction n as [|n IH]; intros st.
  - cbn [Collector.fetchWithRetry_loop]. unfold Collector.do_fetch.
    specialize (Hstat (Collector.world st)).
    destruct (fetch q (Collector.world st)) as [o' w']. cbn in Hstat. subst o'.
    destruct o as [e|resp]; cbn; [reflexivity|].
    destruct (ok resp); reflexivity.
  - change (Collector.fetchWithRetry_loop fetch q (S (S n)) st) with
      (match Collector.do_fetch fetch q st with
       | (Ok response, st') =>
           if ok response then (Ok (Some response), st')
           else Collector.fetchWithRetry_loop fetch q (S n) st'
       | (Throw error, st') => Collector.fetchWithRetry_loop fetch q (S n) st'
       end).
    unfold Collector.do_fetch. pose proof (Hstat (Collector.world st)) as Hw.
    destruct (fetch q (Collector.world st)) as [o' w']. cbn in Hw. subst o'.
    destruct o as [e|resp]; cbv beta iota zeta.
    + apply IH.
    + destruct (ok resp) eqn:E.
      * cbn. rewrite E. reflexivity.
      * rewrite IH. cbn. rewrite E. reflexivity.
Qed.

Lemma collector_retry_stationary q o :
  (forall w, (fetch q w).1 = o) ->
  forall st, (Collector.fetchWithRetry fetch q st).1 = settled o.
Proof.
  intros Hstat st. unfold Collector.fetchWithRetry, Collector.bind.
  pose proof (collector_retry_loop_stationary q o 2 Hstat st) as H.
  destruct (Collector.fetchWithRetry_loop fetch q 3 st) as [res st1].
  cbn in H. subst res.
  destruct o as [e|resp]; cbn; [reflexivity|].
  destruct (ok resp); reflexivity.
Qed.

Lemma fetchProjectIssues_fixed projectKey allIssues (st : Collector.State W) :
  (Collector.fetchProjectIssues fetch projectKey allIssues st).1
  = Ok (allIssues ++ Collector.listedIssues (issuesAnswer projectKey))%list.
Proof.
  unfold Collector.fetchProjectIssues, Collector.try_catch, Collector.bind.
  pose proof (collector_retry_stationary (Collector.ProjectIssues projectKey) _
                (issues_fixed projectKey) st) as H.
  destruct (Collector.fetchWithRetry fetch (Collector.ProjectIssues projectKey) st)
    as [res st1]. cbn [fst] in H. subst res.
  unfold Collector.listedIssues.
  destruct (issuesAnswer projectKey) as [e|resp]; cbn [settled];
    [cbn; rewrite app_nil_r; reflexivity|].
  cbn [Collector.PageOf] in *.
  destruct (ok resp) eqn:Hok; [|cbn; rewrite app_nil_r; reflexivity].
  rewrite Hok. cbn [negb]. unfold Collector.response_json.
  destruct (json resp) as [issueData|]; [|cbn; rewrite app_nil_r; reflexivity].
  cbn. destruct (default [] (Collector.page_issues issueData)) as [|f fs];
    [cbn; rewrite app_nil_r; reflexivity | reflexivity].
Qed.

Lemma fetchProjectHotspots_fixed projectKey allHotspots (st : Collector.State W) :
  (Collector.fetchProjectHotspots fetch projectKey allHotspots st).1
  = Ok (allHotspots ++ Collector.listedHotspots (hotspotsAnswer projectKey))%list.
Proof.
  unfold Collector.fetchProjectHotspots, Collector.try_catch, Collector.bind.
  pose proof (collector_retry_stationary (Collector.ProjectHotspots projectKey) _
                (hotspots_fixed projectKey) st) as H.
  destruct (Collector.fetchWithRetry fetch (Collector.ProjectHotspots projectKey) st)
    as [res st1]. cbn [fst] in H. subst res.
  unfold Collector.listedHotspots.
  destruct (hotspotsAnswer projectKey) as [e|resp]; cbn [settled];
    [cbn; rewrite app_nil_r; reflexivity|].
  cbn [Collector.PageOf] in *.
  destruct (ok resp) eqn:Hok; [|cbn; rewrite app_nil_r; reflexivity].
  rewrite Hok. cbn [negb]. unfold Collector.response_json.
  destruct (json resp) as [hotspotData|]; [|cbn; rewrite app_nil_r; reflexivity].
  cbn. destruct (default [] (Collector.page_hotspots hotspotData)) as [|f fs];
    [cbn; rewrite app_nil_r; reflexivity | reflexivity].
Qed.

Lemma processSingleProject_fixed projectKey collected (st : Collector.State W) :
  (Collector.processSingleProject fetch projectKey collected st).1
  = Ok ((collected.1 ++ Collector.listedIssues (issuesAnswer projectKey))%list,
        (collected.2 ++ Collector.listedHotspots (hotspotsAnswer projectKey))%list).
Proof.
  unfold Collector.processSingleProject, Collector.bind.
  pose proof (fetchProjectIssues_fixed projectKey collected.1 st) as H1.
  destruct (Collector.fetchProjectIssues fetch projectKey collected.1 st) as [r1 st1].
  cbn [fst] in H1. subst r1.
  pose proof (fetchProjectHotspots_fixed projectKey collected.2 st1) as H2.
  destruct (Collector.fetchProjectHotspots fetch projectKey collected.2 st1) as [r2 st2].
  cbn [fst] in H2. subst r2. reflexivity.
Qed.

Lemma collect_loop_fixed (ps : list ProjectConfig) collected (st : Collector.State W) :
  (Collector.for_acc ps
     (fun project => Collector.processSingleProject fetch (pc_key project))
     collected st).1
  = Ok ((collected.1
         ++ concat (map (fun k => Collector.listedIssues (issuesAnswer k))
                      (map pc_key ps)))%list,
        (collected.2
         ++ concat (map (fun k => Collector.listedHotspots (hotspotsAnswer k))
                      (map pc_key ps)))%list).
Proof.
  revert collected st. induction ps as [|p ps IH]; intros collected st.
  - cbn. rewrite !app_nil_r. destruct collected. reflexivity.
  - cbn [Collector.for_acc]. unfold Collector.bind.
    pose proof (processSingleProject_fixed (pc_key p) collected st) as H1.
    destruct (Collector.processSingleProject fetch (pc_key p) collected st) as [r1 st1].
    cbn [fst] in H1. subst r1. rewrite IH. cbn [fst snd map concat].
    rewrite <- !app_assoc. reflexivity.
Qed.

(** X20. Against a scanner whose answers do not change during the run,
    [fetchSonarData] returns, for a complete environment, the issues and
    the hotspots listed for the scanned projects, project after project
    in scan order; a project whose search fails or cannot be read
    contributes nothing and does not stop the run. *)
Theorem fetchSonarData_collects
    (envVars : gmap string string) (projectList : list ProjectConfig)
    (st : Collector.State W) :
  validateEnvironmentVariables envVars requiredEnvVars = Ok tt ->
  (Collector.fetchSonarData fetch projects envVars projectList st).1
  = Ok {| issues :=
            concat (map (fun k => Collector.listedIssues (issuesAnswer k))
                      (Collector.scannedProjects projects envVars projectList));
          hotspots :=
            concat (map (fun k => Collector.listedHotspots (hotspotsAnswer k))
                      (Collector.scannedProjects projects envVars projectList)) |}.
Proof.
  intros Henv. unfold Collector.fetchSonarData. rewrite Henv.
  unfold Collector.try_catch, Collector.fetchSonarData_try, Collector.scannedProjects.
  assert (Hloop : forall p ps,
            (let (r, st') :=
               Collector.bind
                 (Collector.for_acc (p :: ps)
                    (fun project =>
                       Collector.processSingleProject fetch (pc_key project)) ([], []))
                 (fun collected =>
                    Collector.ret {| issues := collected.1; hotspots := collected.2 |})
                 st in
             match r with
             | Ok a => (Ok a, st')
             | Throw e =>
                 Collector.throw
                   (Error ("SonarQube fetch failed: " +:+ exn_message e)) st'
             end).1
            = Ok {| issues :=
                      concat (map (fun k => Collector.listedIssues (issuesAnswer k))
                                (map pc_key (p :: ps)));
                    hotspots :=
                      concat (map (fun k => Collector.listedHotspots (hotspotsAnswer k))
                                (map pc_key (p :: ps))) |}).
  { intros p ps. unfold Collector.bind.
    pose proof (collect_loop_fixed (p :: ps) ([], []) st) as H.
    destruct (Collector.for_acc (p :: ps)
                (fun project => Collector.processSingleProject fetch (pc_key project))
                ([], []) st) as [r st1].
    cbn [fst] in H. subst r. reflexivity. }
  destruct projectList as [|p ps]; [|apply Hloop].
  destruct (filter (fun project => pc_isChecked project = true) projects) as [|p ps];
    [|apply Hloop].
  destruct (envVars !! "SONARQUBE_PROJECT_KEY") as [fallback|]; [|reflexivity].
  destruct (truthy fallback); [|reflexivity].
  unfold Collector.bind.
  pose proof (processSingleProject_fixed fallback ([], []) st) as H.
  destruct (Collector.processSingleProject fetch fallback ([], []) st) as [r st1].
  cbn [fst] in H. subst r. cbn. rewrite !app_nil_r. reflexivity.
Qed.

End FixedProjectAnswers.

End CollectorProofs.

(** ** The creation handler, run locally *)

Section WebhookProofs.

Context {Wc W : Type}.
Variable scan : forall q : Collector.Query, Wc -> FetchOutcome (Collector.PageOf q) * Wc.
Variable fetch : forall r : Request, W -> FetchOutcome (BodyOf r) * W.
Variable projects : list ProjectConfig.

Lemma formatResponse_shape (createdTickets : CreateResult) :
  exists message totals,
    formatResponse createdTickets
    = {| statusCode := 200; body := WebhookSummary message totals |} ∧
    totalCreated totals = length (created createdTickets) ∧
    totalExisting totals = length (existing createdTickets) ∧
    totalProcessed totals = totalCreated totals + totalExisting totals ∧
    (message = "No Jira tickets created or found" <-> totalProcessed totals = 0).
Proof.
  unfold formatResponse, responsify, no_errorType. cbn.
  eexists _, _. split; [reflexivity|]. cbn.
  repeat (split; [reflexivity|]).
  destruct (created createdTickets), (existing createdTickets); cbn;
    split; intros H; try reflexivity; try discriminate; lia.
Qed.

Lemma collectAndCreate_run (envVars : gmap string string)
    (projectList : list ProjectConfig) (st : Collector.State Wc * State W) :
  exists response st',
    collectAndCreate scan fetch projects envVars projectList st = (Ok response, st') ∧
    match validateEnvironmentVariables envVars requiredEnvVars with
    | Throw e =>
        response = {| statusCode := 500;
                      body := WebhookError "Failed to process webhook" (exn_message e) |}
        ∧ st' = st
    | Ok _ =>
        statusCode response = 200 ∧
        exists sonarIssues createdTickets message totals,
          (Collector.fetchSonarData scan projects envVars projectList st.1).1
          = Ok sonarIssues ∧
          (createJiraTickets fetch projects
             (property_key (envVars !! "SONARQUBE_BASE_URL"))
             (Some sonarIssues) st.2).1 = Ok createdTickets ∧
          body response = WebhookSummary message totals ∧
          totalCreated totals = length (created createdTickets) ∧
          totalExisting totals = length (existing createdTickets) ∧
          totalProcessed totals = totalCreated totals + totalExisting totals ∧
          (message = "No Jira tickets created or found" <-> totalProcessed totals = 0)
    end.
Proof.
  unfold collectAndCreate. cbv zeta.
  pose proof (fetchSonarData_run scan projects envVars projectList st.1) as Hscan.
  destruct (validateEnvironmentVariables envVars requiredEnvVars) as [[]|e].
  - destruct Hscan as (data & collector' & sent & Hscan & _). rewrite Hscan.
    destruct (createJiraTickets_run fetch projects
                (property_key (envVars !! "SONARQUBE_BASE_URL")) data st.2)
      as (result & tracker' & sent' & Hrun & _).
    rewrite Hrun.
    destruct (formatResponse_shape result)
      as (message & totals & Hshape & H1 & H2 & H3 & H4).
    rewrite Hshape.
    eexists _, _. split; [reflexivity|]. split; [reflexivity|].
    exists data, result, message, totals.
    split; [reflexivity|]. split; [rewrite Hrun; reflexivity|].
    split; [reflexivity|]. auto.
  - rewrite Hscan. destruct st as [collector tracker].
    eexists _, _. split; [reflexivity|]. split; reflexivity.
Qed.

Lemma run_queries_app keys1 keys2 sent1 sent2 :
  Collector.run_queries keys1 sent1 -> Collector.run_queries keys2 sent2 ->
  Collector.run_queries (keys1 ++ keys2) (sent1 ++ sent2).
Proof.
  revert sent1. induction keys1 as [|k keys1 IH]; intros sent1 H1 H2.
  - cbn in H1. subst sent1. exact H2.
  - cbn [Collector.run_queries app] in *.
    destruct H1 as (first & rest & -> & Hfirst & Hrest).
    exists first, (rest ++ sent2)%list. rewrite app_assoc.
    split; [reflexivity|]. split; [exact Hfirst | apply IH; assumption].
Qed.

Lemma processProjectBatch_run (envVars : gmap string string)
    (batch : list ProjectConfig) collected (st : Collector.State Wc * State W) :
  batch <> [] ->
  match validateEnvironmentVariables envVars requiredEnvVars with
  | Throw e => processProjectBatch scan fetch projects envVars batch collected st
               = (collected, st)
  | Ok _ =>
      exists sent,
        Collector.queries
          (processProjectBatch scan fetch projects envVars batch collected st).2.1
        = (Collector.queries st.1 ++ sent)%list ∧
        Collector.run_queries (map pc_key batch) sent
  end.
Proof.
  intros Hbatch. unfold processProjectBatch.
  pose proof (fetchSonarData_run scan projects envVars batch st.1) as Hscan.
  destruct (validateEnvironmentVariables envVars requiredEnvVars) as [[]|e].
  - destruct Hscan as (data & collector' & sent & Hscan & Hq & Hsent & _).
    rewrite Hscan. cbv zeta. exists sent.
    destruct batch as [|p ps]; [contradiction|].
    destruct (createJiraTickets fetch projects
                (property_key (envVars !! "SONARQUBE_BASE_URL")) (Some data) st.2)
      as [[result|e] tracker']; cbn [fst snd]; auto.
  - rewrite Hscan. destruct st. reflexivity.
Qed.

Lemma processProjectBatches_run (envVars : gmap string string)
    (bs : list (list ProjectConfig)) collected (st : Collector.State Wc * State W) :
  Forall (fun b => b <> []) bs ->
  match validateEnvironmentVariables envVars requiredEnvVars with
  | Throw e =>
      foldl (fun acc batch =>
               processProjectBatch scan fetch projects envVars batch acc.1 acc.2)
            (collected, st) bs = (collected, st)
  | Ok _ =>
      exists sent,
        Collector.queries
          (foldl (fun acc batch =>
                    processProjectBatch scan fetch projects envVars batch acc.1 acc.2)
                 (collected, st) bs).2.1
        = (Collector.queries st.1 ++ sent)%list ∧
        Collector.run_queries (map pc_key (concat bs)) sent
  end.
Proof.
  intros Hbs. revert collected st.
  induction Hbs as [|b bs Hb Hbs IH]; intros collected st.
  - destruct (validateEnvironmentVariables envVars requiredEnvVars) as [[]|e];
      [|reflexivity].
    exists []. cbn. rewrite app_nil_r. auto.
  - cbn [foldl concat fst snd].
    pose proof (processProjectBatch_run envVars b collected st Hb) as H1.
    destruct (processProjectBatch scan fetch projects envVars b collected st)
      as [collected1 st1] eqn:E1.
    cbn [fst snd] in *.
    specialize (IH collected1 st1).
    destruct (validateEnvironmentVariables envVars requiredEnvVars) as [[]|e].
    + destruct H1 as (sent1 & Hq1 & Hs1). destruct IH as (sent2 & Hq2 & Hs2).
      exists (sent1 ++ sent2)%list. cbn [fst snd] in Hq1.
      split; [etrans; [exact Hq2|]; rewrite Hq1, app_assoc; reflexivity|].
      rewrite map_app. apply run_queries_app; assumption.
    + injection H1 as -> ->. exact IH.
Qed.

(** X24. [sonarToJiraHandler] never throws, whatever the project fetcher
    handed back.  With a complete environment it answers 200 whatever the
    scanner and the tracker answer.  With a required variable missing it
    sends nothing; it then answers 500 "Failed to process webhook" with
    the validation message, unless the fetcher returned more than ten
    projects: the batch mode swallows the error of every batch and answers
    200 "No Jira tickets created or found". *)
Theorem sonarToJiraHandler_answers
    (envVars : gmap string string) (invocation : option (Result InvokeResult))
    (st : Collector.State Wc * State W) :
  exists response st',
    sonarToJiraHandler scan fetch projects envVars invocation st = (Ok response, st') ∧
    match validateEnvironmentVariables envVars requiredEnvVars with
    | Ok _ => statusCode response = 200
    | Throw e =>
        st' = st ∧
        response
        = if (10 <? length (fetchedProjects invocation))%nat
          then {| statusCode := 200;
                  body := WebhookSummary "No Jira tickets created or found"
                            {| totalCreated := 0; totalExisting := 0;
                               totalProcessed := 0 |} |}
          else {| statusCode := 500;
                  body := WebhookError "Failed to process webhook" (exn_message e) |}
    end.
Proof.
  assert (Hdirect : forall projectList,
            exists response st',
              collectAndCreate scan fetch projects envVars projectList st
              = (Ok response, st') ∧
              match validateEnvironmentVariables envVars requiredEnvVars with
              | Ok _ => statusCode response = 200
              | Throw e =>
                  st' = st ∧
                  response
                  = {| statusCode := 500;
                       body := WebhookError "Failed to process webhook"
                                 (exn_message e) |}
              end).
  { intros projectList.
    destruct (collectAndCreate_run envVars projectList st) as (response & st' & E & H).
    exists response, st'. split; [exact E|].
    destruct (validateEnvironmentVariables envVars requiredEnvVars) as [[]|e].
    - apply H.
    - destruct H as [-> ->]. auto. }
  unfold sonarToJiraHandler, fetchedProjects.
  destruct invocation as [[fetcherResult|lambdaError]|];
    [|apply (Hdirect [])|apply (Hdirect [])].
  destruct (StatusCode fetcherResult =? 200)%nat;
    [|destruct (Payload fetcherResult); apply (Hdirect [])].
  destruct (Payload fetcherResult) as [fetcherPayload|lambdaError];
    [|apply (Hdirect [])].
  cbn [andb].
  destruct (fetcher_statusCode fetcherPayload =? 200)%nat;
    [|apply (Hdirect [])].
  cbv zeta.
  destruct (10 <? length (default [] (fetcher_projects fetcherPayload)))%nat eqn:Hmany;
    [|apply Hdirect].
  unfold processBatchedProjects. cbv zeta.
  pose proof (processProjectBatches_run envVars
                (batches projectBatchSize (default [] (fetcher_projects fetcherPayload)))
                ([], []) st) as Hrun.
  eexists _, _. split; [reflexivity|].
  destruct (validateEnvironmentVariables envVars requiredEnvVars) as [[]|e].
  - reflexivity.
  - unfold HandlerState in *. rewrite Hrun; [split; reflexivity|].
    eapply Forall_impl; [apply (batches_fuel_sizes 5); lia|].
    intros b [Hb _] ->. cbn in Hb. lia.
Qed.

(** X27. Steps 2 to 4 of [sonarToJiraHandler] (the direct mode) with a
    complete environment: the answer is 200 and its body summarises what
    [createJiraTickets] returned for the collected findings: the two
    totals are the numbers of created and of existing tickets,
    [totalProcessed] is their sum, and the message is "No Jira tickets
    created or found" exactly when that sum is 0.  With a required
    variable missing the answer is 500 and nothing was sent. *)
Theorem collectAndCreate_summary (envVars : gmap string string)
    (projectList : list ProjectConfig) (st : Collector.State Wc * State W) :
  exists response st',
    collectAndCreate scan fetch projects envVars projectList st = (Ok response, st') ∧
    match validateEnvironmentVariables envVars requiredEnvVars with
    | Throw e =>
        response = {| statusCode := 500;
                      body := WebhookError "Failed to process webhook" (exn_message e) |}
        ∧ st' = st
    | Ok _ =>
        statusCode response = 200 ∧
        exists sonarIssues createdTickets message totals,
          (Collector.fetchSonarData scan projects envVars projectList st.1).1
          = Ok sonarIssues ∧
          (createJiraTickets fetch projects
             (property_key (envVars !! "SONARQUBE_BASE_URL"))
             (Some sonarIssues) st.2).1 = Ok createdTickets ∧
          body response = WebhookSummary message totals ∧
          totalCreated totals = length (created createdTickets) ∧
          totalExisting totals = length (existing createdTickets) ∧
          totalProcessed totals = totalCreated totals + totalExisting totals ∧
          (message = "No Jira tickets created or found" <-> totalProcessed totals = 0)
    end.
Proof. apply collectAndCreate_run. Qed.

(** X26. In batch mode every project of the list is scanned exactly once
    and in order: with a complete environment [processBatchedProjects]
    answers 200, and the scanner has been asked about the projects of the
    list one after the other, each with its issue search first and its
    hotspot search second. *)
Theorem processBatchedProjects_scans_every_project
    (envVars : gmap string string) (projectList : list ProjectConfig)
    (st : Collector.State Wc * State W) :
  validateEnvironmentVariables envVars requiredEnvVars = Ok tt ->
  exists response st' sent,
    processBatchedProjects scan fetch projects envVars projectList st
    = (Ok response, st') ∧
    statusCode response = 200 ∧
    Collector.queries st'.1 = (Collector.queries st.1 ++ sent)%list ∧
    Collector.run_queries (map pc_key projectList) sent.
Proof.
  intros Henv. unfold processBatchedProjects. cbv zeta.
  pose proof (processProjectBatches_run envVars (batches projectBatchSize projectList)
                ([], []) st) as Hrun.
  rewrite Henv in Hrun. destruct Hrun as (sent & Hq & Hsent).
  { eapply Forall_impl; [apply (batches_fuel_sizes 5); lia|].
    intros b [Hb _] ->. cbn in Hb. lia. }
  eexists _, _, sent. split; [reflexivity|]. split; [reflexivity|].
  split; [exact Hq|].
  rewrite batches_concat in Hsent by (unfold projectBatchSize; lia). exact Hsent.
Qed.

End WebhookProofs.


(** * Runs on concrete back ends *)

Import Worlds.

(** The first scenario of the specification: [k1] is listed by the issue
    search, [k2] is unknown to both phases. *)
Lemma checkMultipleIssuesResolved_reconciles_witness :
  exists m st',
    checkMultipleIssuesResolved (constant_world (scanner ["k1"])) ["k1"; "k2"]
      (initial unit tt) = (Ok m, st') ∧
    (forall k, k ∈ ["k1"; "k2"] -> k <> "__proto__" ->
       (m !! k = Some false <->
          confirmed_present (fun b => scanner ["k1"] (SonarIssueSearch b))
            (fun h => scanner ["k1"] (SonarHotspotShow h)) ["k1"; "k2"] k) ∧
       (m !! k = Some true <->
          ¬ confirmed_present (fun b => scanner ["k1"] (SonarIssueSearch b))
              (fun h => scanner ["k1"] (SonarHotspotShow h)) ["k1"; "k2"] k)) ∧
    m !! "__proto__" = None.
Proof.
  apply (checkMultipleIssuesResolved_reconciles (constant_world (scanner ["k1"]))
           (fun b => scanner ["k1"] (SonarIssueSearch b))
           (fun h => scanner ["k1"] (SonarHotspotShow h))).
  - intros batch w. reflexivity.
  - intros k w. reflexivity.
Defined.

(** C1 (the code departs from the claim). The identifier list
    [["__proto__"; "k2"]] against a scanner that knows neither: the
    assignment [resolvedStatus[key] = true] does nothing for the name
    [__proto__], so the initial object holds [k2] alone and [__proto__]
    does not start as resolved.  The hotspot phase asks about [k2] only,
    the returned object has no entry for [__proto__], and reading it there
    yields the inherited member, neither [true] nor [false].  When the
    issue search lists [__proto__], the identifier is not marked active
    either. *)
Theorem checkMultipleIssuesResolved_proto_run :
  let run := checkMultipleIssuesResolved (constant_world (scanner []))
               ["__proto__"; "k2"] (initial unit tt) in
  mark_all true ["__proto__"; "k2"] = <["k2" := true]> ∅ ∧
  run.1 = Ok (<["k2" := true]> ∅) ∧
  calls run.2 = [SonarIssueSearch ["__proto__"; "k2"]; SonarHotspotShow "k2";
                 SonarHotspotShow "k2"; SonarHotspotShow "k2"] ∧
  member (<["k2" := true]> (∅ : gmap string bool)) "__proto__" = Inherited ∧
  (checkMultipleIssuesResolved (constant_world (scanner ["__proto__"]))
     ["__proto__"; "k2"] (initial unit tt)).1 = Ok (<["k2" := true]> ∅).
Proof.
  cbv zeta. repeat split; vm_compute; reflexivity.
Qed.

Example reconcile_k1_active_k2_resolved :
  (checkMultipleIssuesResolved (constant_world (scanner ["k1"])) ["k1"; "k2"]
     (initial unit tt)).1
  = Ok (<["k1" := false]> (<["k2" := true]> ∅)).
Proof. vm_compute. reflexivity. Qed.

Example reconcile_both_absent :
  (checkMultipleIssuesResolved
     (constant_world (scanner [])) ["k1"; "k2"] (initial unit tt)).1
  = Ok (<["k1" := true]> (<["k2" := true]> ∅)).
Proof. vm_compute. reflexivity. Qed.

Example file_name_of_component :
  last_segment "test-project:path/to/file.js" = "path/to/file.js"
  ∧ last_segment "file.js" = "file.js"
  ∧ trim "  LV-1 " = "LV-1"
  ∧ unique ["a@x"; "b@x"; "a@x"] = ["a@x"; "b@x"].
Proof. repeat split; reflexivity. Qed.


(** C10 (the code departs from the claim). One open ticket whose
    reference text is [__proto__], and a scanner that knows no such
    finding: the identifier is extracted and submitted to the engine, the
    returned map has no entry for it, and the closure run takes the
    unknown-status branch, counting the ticket as an error. *)
Theorem closeResolvedJiraTickets_unknown_status_run :
  let fetch := constant_world
                 (closing_world [open_ticket "LV-9" "__proto__"] (scanner [])) in
  omap extractSonarKey [open_ticket "LV-9" "__proto__"] = ["__proto__"] ∧
  (checkMultipleIssuesResolved fetch ["__proto__"] (initial unit tt)).1 = Ok ∅ ∧
  resolutionBranch ∅ "__proto__" = UnknownStatus ∧
  (closeResolvedJiraTickets fetch 10 (initial unit tt)).1
  = Ok (Some {| ticketsChecked := 1; ticketsClosed := 0;
                ticketsNotResolved := 0; ticketsWithErrors := Some 1 |}).
Proof.
  cbv zeta. repeat split; vm_compute; reflexivity.
Qed.

(** The same tracker with the reference text [k1]: the scanner confirms
    the finding absent and the ticket is closed. *)
Example closeResolvedJiraTickets_closes_resolved :
  (closeResolvedJiraTickets
     (constant_world (closing_world [open_ticket "LV-9" "k1"] (scanner [])))
     10 (initial unit tt)).1
  = Ok (Some {| ticketsChecked := 1; ticketsClosed := 1;
                ticketsNotResolved := 0; ticketsWithErrors := Some 0 |}).
Proof. vm_compute. reflexivity. Qed.

(** The scenario of C5: the workflow offers only "Other". *)
Lemma closeJiraTicket_selects_preferred_witness :
  (forall t, selectTransition preferredTransitions only_other = Some t <->
             first_preferred_match preferredTransitions only_other t) ∧
  ((forall t, t ∈ only_other -> tr_name t ∉ preferredTransitions) ->
     closeJiraTicket (constant_world (tracker_workflow only_other 204))
       "TICKET-2" "k2" (initial unit tt)
     = (Ok false, after_transition_fetch "TICKET-2") ∧
     exists sent, calls (after_transition_fetch "TICKET-2")
                  = (calls (initial unit tt) ++ sent)%list ∧
                  Forall (fun r => is_transition_apply r = false) sent) ∧
  (forall t, first_preferred_match preferredTransitions only_other t ->
     truthy (tr_id t) = true ->
     exists n,
       calls (closeJiraTicket (constant_world (tracker_workflow only_other 204))
                "TICKET-2" "k2" (initial unit tt)).2
       = (calls (after_transition_fetch "TICKET-2")
          ++ replicate (S n) (JiraPostTransition "TICKET-2" (commentBody t)))%list).
Proof.
  apply (closeJiraTicket_selects_preferred
           (constant_world (tracker_workflow only_other 204))
           "TICKET-2" "k2" (initial unit tt) (after_transition_fetch "TICKET-2")
           {| status := 200; json := Some {| transitions := Some only_other |} |}
           only_other).
  - reflexivity.
  - reflexivity.
Defined.

Example close_with_only_other_returns_false :
  closeJiraTicket (constant_world (tracker_workflow only_other 204))
    "TICKET-2" "k2" (initial unit tt)
  = (Ok false, after_transition_fetch "TICKET-2").
Proof. vm_compute. reflexivity. Qed.

(** The scenario of C6: the workflow offers "Done", and the tracker
    answers every transition request with status 500. *)
(** C6 (the code departs from the claim). With the combined
    transition-and-comment request answered by status 500 on each of its
    three attempts, [closeJiraTicket] returns [false]; the requests sent are
    the transition fetch and the three combined attempts, so neither the
    transition-only request nor the separate comment is sent. *)
Theorem closeJiraTicket_combined_failure_run :
  let run := closeJiraTicket (constant_world (tracker_workflow offers_done 500))
               "TICKET-4" "k4" (initial unit tt) in
  run.1 = Ok false ∧
  calls run.2 = [JiraGetTransitions "TICKET-4";
                 combined_request; combined_request; combined_request] ∧
  Forall (fun r => is_transition_only r = false ∧ is_comment r = false) (calls run.2).
Proof.
  cbv zeta. split; [vm_compute; reflexivity|].
  split; [vm_compute; reflexivity|].
  vm_compute. repeat constructor.
Qed.

(** The repository's own test of the creation run: one new issue, one
    issue whose identifier is already on an open ticket. *)
Example create_new_and_skip_existing :
  (createJiraTickets
     (constant_world (tracker_search (fun _ => true)
                        [open_ticket "LV-123" "existing-issue-key"] "LV-456"))
     [] "https://sonarqube.test"
     (Some {| issues := [finding "new-issue-key" "MAJOR";
                         finding "existing-issue-key" "CRITICAL"];
              hotspots := [] |})
     (initial unit tt)).1
  = Ok {| created := ["LV-456"]; existing := ["LV-123"]; error := None |}.
Proof. vm_compute. reflexivity. Qed.

(** The scenario of C7: 101 findings make three batches; the tracker
    answers the search of the first batch and fails on the others. *)
Lemma checkExistingTickets_stops_at_failure_witness :
  let fetch := constant_world (tracker_search has_k0 [open_ticket "LV-1" "k0"] "LV-2") in
  let keys := map key (findings 101) in
  let b1 := take 50 keys in
  let b2 := take 50 (drop 50 keys) in
  let b3 := drop 100 keys in
  let st1 := (for_of [b1] (checkExistingBatch fetch) (initial unit tt)).2 in
  let st2 := (checkExistingBatch fetch b2 st1).2 in
  checkExistingTickets fetch keys (initial unit tt) = (Ok tt, st2) ∧
  existingTicketsMap st2 = existingTicketsMap st1 ∧
  existingTickets st2 = existingTickets st1 ∧
  exists n, calls st2 = (calls st1 ++ replicate (S n) (JiraSearchExisting b2))%list.
Proof.
  cbv zeta.
  apply (checkExistingTickets_stops_at_failure
           (constant_world (tracker_search has_k0 [open_ticket "LV-1" "k0"] "LV-2"))
           (map key (findings 101))
           [take 50 (map key (findings 101))]
           [drop 100 (map key (findings 101))]
           (take 50 (drop 50 (map key (findings 101))))
           (initial unit tt) _ _ (Error "HTTP 500")).
  - vm_compute. reflexivity.
  - vm_compute. reflexivity.
  - vm_compute. reflexivity.
Defined.

(** C7 as stated fails: with 51 findings and a failing search for the
    first batch, the second batch is never searched. *)
Lemma later_batches_not_checked_counterexample :
  let fetch := constant_world (tracker_search (fun _ => false) [] "LV-2") in
  let keys := map key (findings 51) in
  ¬ (forall b, b ∈ batches maxBatchSize keys ->
       exists r,
         r ∈ calls (createJiraTickets fetch [] "https://sonarqube.test"
                      (Some (sonar_issues 51)) (initial unit tt)).2
         ∧ searches_batch b r = true).
Proof.
  cbv zeta. intros H.
  destruct (H ["k50"]) as (r & Hin & Hr).
  - apply list_elem_of_In. vm_compute. right. left. reflexivity.
  - apply list_elem_of_In in Hin.
    assert (Hex : existsb (searches_batch ["k50"])
                    (calls (createJiraTickets
                              (constant_world (tracker_search (fun _ => false) [] "LV-2"))
                              [] "https://sonarqube.test"
                              (Some (sonar_issues 51)) (initial unit tt)).2) = true).
    { apply existsb_exists. exists r. split; assumption. }
    vm_compute in Hex. discriminate.
Qed.

(** The scenario of C8: the search for the assignee returns two accounts. *)
Lemma lookupJiraUsers_caches_first_match_witness :
  let fetch := constant_world (tracker_users two_accounts) in
  let projects := one_project "duplicate@example.com" in
  let st' := (lookupJiraUsers fetch projects (initial unit tt)).2 in
  (lookupJiraUsers fetch projects (initial unit tt)).1 = Ok tt ∧
  (searchMatches (tracker_users two_accounts (JiraUserSearch "duplicate@example.com")) = [] ->
     cached "duplicate@example.com" st' = false ∧
     forall sonarBaseUrl item itemType,
       pi_assignee (getProjectInfo projects (project item))
         = Some "duplicate@example.com" ->
       jp_assignee (buildPayload projects sonarBaseUrl item itemType
                      (userAccountCache st')) = None) ∧
  (forall user users,
     searchMatches (tracker_users two_accounts (JiraUserSearch "duplicate@example.com"))
       = user :: users ->
     userAccountCache st' !! "duplicate@example.com" = Some (accountId user)).
Proof.
  cbv zeta.
  apply (lookupJiraUsers_caches_first_match
           (constant_world (tracker_users two_accounts))
           (one_project "duplicate@example.com") "duplicate@example.com"
           (tracker_users two_accounts (JiraUserSearch "duplicate@example.com"))
           (initial unit tt)).
  - intros w. reflexivity.
  - apply list_elem_of_In. vm_compute. left. reflexivity.
  - reflexivity.
Defined.

(** C8 as stated fails for several matches: the email gets an entry. *)
Lemma multiple_matches_resolved_counterexample :
  let fetch := constant_world (tracker_users two_accounts) in
  let projects := one_project "duplicate@example.com" in
  ¬ (userAccountCache (lookupJiraUsers fetch projects (initial unit tt)).2
       !! "duplicate@example.com" = None).
Proof. cbv zeta. vm_compute. discriminate. Qed.

(** C9 (the code departs from the claim). One fetched ticket whose
    reference text is empty: the run is not fatal, yet the object it
    returns has the three counts of the early [return] and no
    [ticketsWithErrors]. *)
Theorem closeResolvedJiraTickets_early_return_run :
  (closeResolvedJiraTickets
     (constant_world (tracker_search (fun _ => true) [open_ticket "LV-300" ""] "LV-2"))
     10 (initial unit tt)).1
  = Ok (Some {| ticketsChecked := 1; ticketsClosed := 0;
                ticketsNotResolved := 0; ticketsWithErrors := None |}).
Proof. vm_compute. reflexivity. Qed.

(** The same tracker with a ticket that carries an identifier: the run
    reaches the normal [return], which has all four counts. *)
Example closeResolvedJiraTickets_normal_return_run :
  (closeResolvedJiraTickets
     (constant_world (tracker_search (fun _ => true) [open_ticket "LV-200" "k1"] "LV-2"))
     10 (initial unit tt)).1
  = Ok (Some {| ticketsChecked := 1; ticketsClosed := 0;
                ticketsNotResolved := 0; ticketsWithErrors := Some 1 |}).
Proof. vm_compute. reflexivity. Qed.

(** * Further runs on concrete back ends *)

Import MoreWorlds.

(** Three keys in batches of two. *)
Lemma batches_partition_witness :
  concat (batches 2 ["a"; "b"; "c"]) = ["a"; "b"; "c"] ∧
  Forall (fun b => 0 < length b <= 2) (batches 2 ["a"; "b"; "c"]) ∧
  (forall pre b post,
     batches 2 ["a"; "b"; "c"] = (pre ++ b :: post)%list -> post <> [] ->
     length b = 2).
Proof. apply (batches_partition 2 ["a"; "b"; "c"]). lia. Defined.

(** One open ticket whose finding the scanner cannot confirm and whose
    transitions cannot be fetched: it is counted as an error. *)
Lemma closeResolvedJiraTickets_counts_add_up_witness :
  let summary := {| ticketsChecked := 1; ticketsClosed := 0;
                    ticketsNotResolved := 0; ticketsWithErrors := Some 1 |} in
  (closeResolvedJiraTickets
     (constant_world (tracker_search (fun _ => true) [open_ticket "LV-200" "k1"] "LV-2"))
     10 (initial unit tt)).1 = Ok (Some summary) ∧
  match ticketsWithErrors summary with
  | Some errors =>
      ticketsClosed summary + ticketsNotResolved summary + errors
      = ticketsChecked summary
  | None => ticketsClosed summary = 0 ∧ ticketsNotResolved summary = 0
  end.
Proof.
  cbv zeta. split; [vm_compute; reflexivity|].
  apply (closeResolvedJiraTickets_counts_add_up
           (constant_world (tracker_search (fun _ => true)
                              [open_ticket "LV-200" "k1"] "LV-2"))
           10 (initial unit tt)
           (closeResolvedJiraTickets
              (constant_world (tracker_search (fun _ => true)
                                 [open_ticket "LV-200" "k1"] "LV-2"))
              10 (initial unit tt)).2).
  vm_compute. reflexivity.
Defined.

(** With the tracker unreachable the run throws after three searches for
    the first page. *)
Lemma closeResolvedJiraTickets_fails_before_any_ticket_witness :
  exists sent,
    sends (initial unit tt)
      (closeResolvedJiraTickets (constant_world offline) 10 (initial unit tt)).2 sent ∧
    Forall (fun r => r = JiraSearchOpen 0) sent ∧
    Forall (fun r => is_transition_apply r = false ∧ is_create r = false) sent.
Proof.
  apply (closeResolvedJiraTickets_fails_before_any_ticket (constant_world offline)
           10 (initial unit tt) _ (Error "request failed")).
  vm_compute. reflexivity.
Defined.

Example closer_handler_offline :
  (ticketCloserHandler (constant_world offline) 10 (initial unit tt)).1
  = Ok (Some {| statusCode := 500;
                body := CloserError "Failed to process ticket closing"
                          "request failed" |}).
Proof. vm_compute. reflexivity. Qed.

(** Empty pages with a total of one: a budget of seven ends in the loop. *)
Lemma pagination_stalls_on_empty_pages_witness :
  (closeResolvedJiraTickets (constant_world (tracker_empty_pages 1)) 7
     (initial unit tt)).1 = Ok None ∧
  calls (closeResolvedJiraTickets (constant_world (tracker_empty_pages 1)) 7
           (initial unit tt)).2
  = (calls (initial unit tt) ++ replicate 7 (JiraSearchOpen 0))%list.
Proof.
  apply (pagination_stalls_on_empty_pages (constant_world (tracker_empty_pages 1))
           1 7 (initial unit tt)).
  - intros w. reflexivity.
  - lia.
Defined.

(** A first page of one ticket out of two, and no second page. *)
Lemma pagination_failure_keeps_fetched_witness :
  let fetch := constant_world (tracker_first_page [open_ticket "LV-1" "k1"] 2) in
  fetchAllTickets fetch 5 [] 0 (initial unit tt)
  = (Ok (Some [open_ticket "LV-1" "k1"]),
     (fetchWithRetry fetch (JiraSearchOpen 1)
        (fetchWithRetry fetch (JiraSearchOpen 0) (initial unit tt)).2).2) ∧
  exists summary st',
    closeResolvedJiraTickets fetch 5 (initial unit tt) = (Ok (Some summary), st') ∧
    ticketsChecked summary = length [open_ticket "LV-1" "k1"].
Proof.
  cbv zeta.
  apply (pagination_failure_keeps_fetched
           (constant_world (tracker_first_page [open_ticket "LV-1" "k1"] 2))
           3 2 [open_ticket "LV-1" "k1"] (Error "request failed")
           (initial unit tt)
           (fetchWithRetry
              (constant_world (tracker_first_page [open_ticket "LV-1" "k1"] 2))
              (JiraSearchOpen 0) (initial unit tt)).2
           _
           {| status := 200;
              json := Some {| js_issues := Some [open_ticket "LV-1" "k1"];
                              js_total := Some 2 |} |}).
  - vm_compute. reflexivity.
  - reflexivity.
  - discriminate.
  - cbn. lia.
  - vm_compute. reflexivity.
Defined.

(** A finding of "test-project" with only "project1" configured. *)
Lemma unconfigured_project_payload_witness :
  let projects := one_project "dev@example.com" in
  let item := finding "k1" "MAJOR" in
  getProjectInfo projects (project item)
  = {| pi_name := project item; pi_assignee := None; pi_component := Some "Others" |} ∧
  jp_components (buildPayload projects "https://sonarqube.test" item issue ∅)
  = Some "Others" ∧
  jp_assignee (buildPayload projects "https://sonarqube.test" item issue ∅) = None ∧
  "Project: " +:+ project item +:+ " (" +:+ project item +:+ ")"
  ∈ jp_description (buildPayload projects "https://sonarqube.test" item issue ∅).
Proof.
  cbv zeta.
  apply (unconfigured_project_payload (one_project "dev@example.com")
           "https://sonarqube.test" (finding "k1" "MAJOR") issue ∅).
  intros p Hp. apply list_elem_of_singleton in Hp. subst p. cbn. discriminate.
Defined.

(** The configuration enables "alpha" only; its issue search lists one
    issue and its hotspot search fails. *)
Lemma fetchSonarData_collects_witness :
  (Collector.fetchSonarData (collector_world scanner_projects) two_projects
     complete_env [] collector_initial).1
  = Ok {| issues :=
            concat (map (fun k => Collector.listedIssues
                                    (scanner_projects (Collector.ProjectIssues k)))
                      (Collector.scannedProjects two_projects complete_env []));
          hotspots :=
            concat (map (fun k => Collector.listedHotspots
                                    (scanner_projects (Collector.ProjectHotspots k)))
                      (Collector.scannedProjects two_projects complete_env [])) |}.
Proof.
  apply (fetchSonarData_collects (collector_world scanner_projects) two_projects
           (fun k => scanner_projects (Collector.ProjectIssues k))
           (fun k => scanner_projects (Collector.ProjectHotspots k))).
  - intros k w. reflexivity.
  - intros k w. reflexivity.
  - vm_compute. reflexivity.
Defined.

Example fetchSonarData_alpha_run :
  Collector.fetchSonarData (collector_world scanner_projects) two_projects
    complete_env [] collector_initial
  = (Ok {| issues := [finding "alpha-1" "MAJOR"]; hotspots := [] |},
     {| Collector.world := tt;
        Collector.queries :=
          [Collector.ProjectIssues "alpha"; Collector.ProjectHotspots "alpha";
           Collector.ProjectHotspots "alpha"; Collector.ProjectHotspots "alpha"] |}).
Proof. vm_compute. reflexivity. Qed.

Example fetchSonarData_incomplete_environment :
  (Collector.fetchSonarData (collector_world scanner_projects) two_projects
     (delete "JIRA_USERNAME" (delete "SONARQUBE_TOKEN" complete_env)) []
     collector_initial).1
  = Throw (Error "Missing required environment variables: SONARQUBE_TOKEN, JIRA_USERNAME").
Proof. vm_compute. reflexivity. Qed.

(** Every back end is down: the creation handler, run locally, still
    answers 200. *)
Example webhook_with_back_ends_down :
  (sonarToJiraHandler (collector_world scanner_offline) (constant_world offline)
     two_projects complete_env None (collector_initial, initial unit tt)).1
  = Ok {| statusCode := 200;
          body := WebhookSummary "No Jira tickets created or found"
                    {| totalCreated := 0; totalExisting := 0; totalProcessed := 0 |} |}.
Proof. vm_compute. reflexivity. Qed.

(** An environment without its token: 500 for a short project list, 200
    in batch mode. *)
Example webhook_incomplete_environment :
  (sonarToJiraHandler (collector_world scanner_projects) (constant_world offline)
     two_projects (delete "SONARQUBE_TOKEN" complete_env) None
     (collector_initial, initial unit tt)).1
  = Ok {| statusCode := 500;
          body := WebhookError "Failed to process webhook"
                    "Missing required environment variables: SONARQUBE_TOKEN" |}
  ∧
  (sonarToJiraHandler (collector_world scanner_projects) (constant_world offline)
     two_projects (delete "SONARQUBE_TOKEN" complete_env)
     (fetcher_returned eleven_projects) (collector_initial, initial unit tt)).1
  = Ok {| statusCode := 200;
          body := WebhookSummary "No Jira tickets created or found"
                    {| totalCreated := 0; totalExisting := 0; totalProcessed := 0 |} |}.
Proof. split; vm_compute; reflexivity. Qed.

(** Eleven projects in batches of five. *)
Lemma processBatchedProjects_scans_every_project_witness :
  exists response st' sent,
    processBatchedProjects (collector_world scanner_offline) (constant_world offline)
      two_projects complete_env eleven_projects (collector_initial, initial unit tt)
    = (Ok response, st') ∧
    statusCode response = 200 ∧
    Collector.queries st'.1
    = (Collector.queries (collector_initial, initial unit tt).1 ++ sent)%list ∧
    Collector.run_queries (map pc_key eleven_projects) sent.
Proof.
  apply (processBatchedProjects_scans_every_project
           (collector_world scanner_offline) (constant_world offline)
           two_projects complete_env eleven_projects
           (collector_initial, initial unit tt)).
  vm_compute. reflexivity.
Defined.

Example summary_of_long_message :
  String.length
    (summaryOf {| key := "k"; project := "p"; component := "p:f.js";
                  message := String.concat "" (replicate 30 "0123456789");
                  type := "BUG"; severity := None;
                  vulnerabilityProbability := None |} "f.js") = 254.
Proof. vm_compute. reflexivity. Qed.


(** A finding whose key names a member of [Object.prototype] is skipped
    although no ticket refers to it; the other finding gets its ticket. *)
Example inherited_name_is_skipped :
  let run := createJiraTickets
               (constant_world (tracker_search (fun _ => true) [] "LV-456"))
               [] "https://sonarqube.test"
               (Some {| issues := [finding "constructor" "MAJOR"; finding "k1" "MAJOR"];
                        hotspots := [] |})
               (initial unit tt) in
  run.1 = Ok {| created := ["LV-456"]; existing := []; error := None |} ∧
  existsb (creates_for "constructor") (calls run.2) = false ∧
  existsb (creates_for "k1") (calls run.2) = true.
Proof. cbv zeta. repeat split; vm_compute; reflexivity. Qed.
